(** * MemoryVault AI: recall pipeline, fallback extractors and flat-file store

    A shallow embedding of [memory_processor.py], [data_store.py] and the
    tab logic of [app.py], with the properties of the specification stated
    and settled against it.

    Modelling conventions.
    - A Python [str] is a [string] whose characters are the code points
      below 256; [lower] and [split] follow [str.lower] and [str.split] on
      that range.
    - A memory is the dict the application builds.  Every key the code reads
      is a record field of option type: [None] stands for an absent key (or,
      for [unlock_date], the value [None]); a present field has the type the
      data model of the specification gives it.  The recall pipeline is given
      a second time over records as they can sit in the store
      ([stored_memory]), where [text], [emotion] and [location] can hold
      [None] and an embedding can have [None] components, so that a field
      access can raise; on records of the declared types the two agree
      ([recall_memories_as_stored]).
    - An [int] is an integer of [Z].  A [float] is an IEEE 754 binary64
      value with the arithmetic of the processor: every product, sum and
      quotient is rounded to nearest, ties to even, and overflows to an
      infinity.  The built-in [sum] adds from the left, as CPython 3.11 does.
    - The remote services are oracles bundled in a [client] record; an oracle
      answering [None] is a call that raised (no key, quota, network, reply
      that does not parse or has the wrong shape).
    - [try]/[except Exception] is kept as [try_except] over a result type
      whose [Raise] carries no payload, since every handler catches all. *)

From Stdlib Require Import ZArith QArith Ascii String List Bool Lia.
From Stdlib Require Import Permutation Sorted.
From Stdlib Require Import DecimalString.
From Stdlib Require Import Floats.SpecFloat.
From stdpp Require Import base option list gmap strings.

Local Open Scope string_scope.
Local Open Scope list_scope.
Local Open Scope Z_scope.

(** ** Strings as Python sees them *)

Module Str.

Definition code (c : ascii) : N := N_of_ascii c.

(** [str.isspace] on one character, the separator set of [str.split()]. *)
Definition is_space (c : ascii) : bool :=
  let n := code c in
  ((9 <=? n) && (n <=? 13) || (28 <=? n) && (n <=? 32)
   || (n =? 133) || (n =? 160))%N.

(** [str.lower] on one character. *)
Definition lower_char (c : ascii) : ascii :=
  let n := code c in
  if ((65 <=? n) && (n <=? 90)
      || (192 <=? n) && (n <=? 222) && negb (n =? 215))%N
  then ascii_of_N (n + 32) else c.

Fixpoint lower (s : string) : string :=
  match s with
  | EmptyString => EmptyString
  | String c s' => String (lower_char c) (lower s')
  end.

Fixpoint starts_with (p s : string) : bool :=
  match p, s with
  | EmptyString, _ => true
  | String _ _, EmptyString => false
  | String a p', String b s' => Ascii.eqb a b && starts_with p' s'
  end.

(** [needle in hay]. *)
Fixpoint contains (needle hay : string) : bool :=
  starts_with needle hay
  || match hay with
     | EmptyString => false
     | String _ hay' => contains needle hay'
     end.

Fixpoint drop (n : nat) (s : string) : string :=
  match n, s with
  | O, _ => s
  | S _, EmptyString => EmptyString
  | S n', String _ s' => drop n' s'
  end.

(** [s.split()]: maximal runs of non-space characters. *)
Fixpoint split_ws_go (cur : string) (s : string) : list string :=
  match s with
  | EmptyString => match cur with EmptyString => [] | _ => [cur] end
  | String c s' =>
      if is_space c
      then match cur with
           | EmptyString => split_ws_go EmptyString s'
           | _ => cur :: split_ws_go EmptyString s'
           end
      else split_ws_go (cur +:+ String c EmptyString) s'
  end.

Definition split_ws (s : string) : list string := split_ws_go EmptyString s.

(** [sep.join(parts)]. *)
Definition join (sep : string) (parts : list string) : string :=
  String.concat sep parts.

(** [s.split(sep)] for a non-empty [sep]: cut at each leftmost occurrence,
    scanning left to right without overlap.  [skip] counts the characters of
    a matched separator still to be passed over; [cur] is the piece being
    collected. *)
Fixpoint split_go (sep : string) (skip : nat) (cur : string) (s : string)
  : list string :=
  match s with
  | EmptyString => [cur]
  | String c s' =>
      match skip with
      | S k => split_go sep k cur s'
      | O =>
          if starts_with sep s
          then cur :: split_go sep (String.length sep - 1) EmptyString s'
          else split_go sep O (cur +:+ String c EmptyString) s'
      end
  end.

Definition split (sep s : string) : list string :=
  split_go sep O EmptyString s.

(** The leftmost occurrence of [sep] in [s], as the text before it and the
    text after it. *)
Fixpoint cut (sep s : string) : option (string * string) :=
  if starts_with sep s then Some (EmptyString, drop (String.length sep) s)
  else match s with
       | EmptyString => None
       | String c s' =>
           match cut sep s' with
           | Some (b, a) => Some (String c b, a)
           | None => None
           end
       end.

(** The text of [s] up to the leftmost occurrence of [sep] (all of [s] when
    there is none), and the text after it. *)
Definition before (sep s : string) : string :=
  match cut sep s with Some (b, _) => b | None => s end.

End Str.

(** ** Python numbers

    A [float] is held as a [spec_float] of the standard library, read with
    precision 53 and exponent bound 1024 (binary64).  The operations are the
    library's: each rounds the exact result to nearest, ties to even. *)

Definition float : Type := spec_float.

Module Double.

Definition prec : Z := 53.
Definition emax : Z := 1024.

Definition zero : float := S754_zero false.

Definition add (x y : float) : float := SFadd prec emax x y.
Definition sub (x y : float) : float := SFsub prec emax x y.
Definition mul (x y : float) : float := SFmul prec emax x y.
Definition div (x y : float) : float := SFdiv prec emax x y.

(** [float(z)] for an int: the nearest double. *)
Definition of_int (z : Z) : float := binary_normalize prec emax z 0 false.

(** [a / b] on two ints, [b] positive: the quotient rounded once to the
    nearest double. *)
Definition true_div (a b : Z) : float :=
  match a with
  | Z0 => zero
  | Zpos _ =>
      let '(q, e, l) := SFdiv_core_binary prec emax a 0 b 0 in
      binary_round_aux prec emax false q e l
  | Zneg a' =>
      let '(q, e, l) := SFdiv_core_binary prec emax (Zpos a') 0 b 0 in
      binary_round_aux prec emax true q e l
  end.

(** The double nearest to a rational: what a decimal literal of the source
    or a number of a JSON reply is read as. *)
Definition of_Q (q : Q) : float := true_div (Qnum q) (Zpos (Qden q)).

End Double.

(** A number as the code compares and stores it: an [int] or a [float]. *)
Inductive number : Type :=
| Int (z : Z)
| Float (x : float).

(** What a number is worth: a rational or an infinity; NaN is worth
    nothing. *)
Inductive extended : Type :=
| MinusInfinity
| Rational (q : Q)
| PlusInfinity.

(** [m] times 2 to the [e]. *)
Definition dyadic (m e : Z) : Q :=
  if 0 <=? e then inject_Z (m * 2 ^ e)
  else Qmake m (2 ^ Z.to_pos (- e))%positive.

Definition float_value (x : float) : option extended :=
  match x with
  | S754_nan => None
  | S754_infinity true => Some MinusInfinity
  | S754_infinity false => Some PlusInfinity
  | S754_zero _ => Some (Rational 0)
  | S754_finite true m e => Some (Rational (dyadic (Zneg m) e))
  | S754_finite false m e => Some (Rational (dyadic (Zpos m) e))
  end.

Definition number_value (n : number) : option extended :=
  match n with
  | Int z => Some (Rational (inject_Z z))
  | Float x => float_value x
  end.

Definition extended_lt (a b : extended) : bool :=
  match a, b with
  | _, MinusInfinity => false
  | MinusInfinity, _ => true
  | PlusInfinity, _ => false
  | _, PlusInfinity => true
  | Rational p, Rational q => negb (Qle_bool q p)
  end.

(** [a < b] on ints and floats: the comparison of the two values, exact also
    between an int and a float, and false whenever one side is NaN. *)
Definition number_lt (a b : number) : bool :=
  match number_value a, number_value b with
  | Some x, Some y => extended_lt x y
  | _, _ => false
  end.

Definition is_nan (n : number) : bool :=
  match number_value n with
  | Some _ => false
  | None => true
  end.

(** Neither is smaller than the other. *)
Definition tied (a b : number) : bool :=
  negb (number_lt a b) && negb (number_lt b a).

(** ** The memory record *)

Record memory := Memory {
  mem_id : option Z;
  mem_text : option string;
  mem_date : option string;
  mem_emotion : option string;
  mem_people : option (list string);
  mem_location : option string;
  mem_topics : option (list string);
  mem_context : option string;
  mem_embedding : option (list float);
  mem_unlock_date : option string;
  mem_is_time_capsule : option bool;
  mem_relevance_score : option number
}.

(** [memory['relevance_score'] = s] *)
Definition set_relevance_score (s : number) (m : memory) : memory :=
  {| mem_id := mem_id m; mem_text := mem_text m; mem_date := mem_date m;
     mem_emotion := mem_emotion m; mem_people := mem_people m;
     mem_location := mem_location m; mem_topics := mem_topics m;
     mem_context := mem_context m; mem_embedding := mem_embedding m;
     mem_unlock_date := mem_unlock_date m;
     mem_is_time_capsule := mem_is_time_capsule m;
     mem_relevance_score := Some s |}.

(** [memory['id'] = i] *)
Definition set_id (i : Z) (m : memory) : memory :=
  {| mem_id := Some i; mem_text := mem_text m; mem_date := mem_date m;
     mem_emotion := mem_emotion m; mem_people := mem_people m;
     mem_location := mem_location m; mem_topics := mem_topics m;
     mem_context := mem_context m; mem_embedding := mem_embedding m;
     mem_unlock_date := mem_unlock_date m;
     mem_is_time_capsule := mem_is_time_capsule m;
     mem_relevance_score := mem_relevance_score m |}.

(** [del mem_copy['embedding']] *)
Definition del_embedding (m : memory) : memory :=
  {| mem_id := mem_id m; mem_text := mem_text m; mem_date := mem_date m;
     mem_emotion := mem_emotion m; mem_people := mem_people m;
     mem_location := mem_location m; mem_topics := mem_topics m;
     mem_context := mem_context m; mem_embedding := None;
     mem_unlock_date := mem_unlock_date m;
     mem_is_time_capsule := mem_is_time_capsule m;
     mem_relevance_score := mem_relevance_score m |}.

(** ** Python's stable descending sort

    [sorted(xs, key=k, reverse=True)] and [xs.sort(key=k, reverse=True)]:
    descending by key, elements with equal keys in their original order.
    The sort compares keys with [<] only, and any stable sort gives this
    list when [<] orders the keys, that is when none of them is NaN. *)

Section Sorting.
Context {A : Type} (key : A -> number).

Fixpoint insert_desc (x : A) (l : list A) : list A :=
  match l with
  | [] => [x]
  | y :: l' =>
      if number_lt (key x) (key y) then y :: insert_desc x l'
      else x :: y :: l'
  end.

Definition sorted_desc (l : list A) : list A := foldr insert_desc [] l.

(** Descending order of the keys: no element is smaller than a later one. *)
Definition descending (l : list A) : Prop :=
  StronglySorted (fun a b => number_lt (key a) (key b) = false) l.

(** The elements whose key is tied with [v], in list order. *)
Definition with_key (v : number) (l : list A) : list A :=
  List.filter (fun x => tied (key x) v) l.

(** No key is NaN. *)
Definition comparable (l : list A) : Prop :=
  Forall (fun x => is_nan (key x) = false) l.

End Sorting.

(** ** The keyword scorer ([keyword_search], nested in [recall_memories]) *)

(** The built-in [sum], from the left starting at 0. *)
Definition py_sum (l : list Z) : Z := fold_left Z.add l 0.

(** [sum(w for word in words if cond(word))] *)
Definition sum_if (w : Z) (cond : string -> bool) (words : list string) : Z :=
  py_sum (map (fun _ => w) (List.filter cond words)).

(** [x.get('relevance_score', 0)] *)
Definition relevance_key (m : memory) : number :=
  default (Int 0) (mem_relevance_score m).

Definition keyword_score (query_words : list string) (memory : memory) : Z :=
  let memory_text := Str.lower (default EmptyString (mem_text memory)) in
  let memory_emotion := Str.lower (default EmptyString (mem_emotion memory)) in
  let memory_location := Str.lower (default EmptyString (mem_location memory)) in
  let memory_people :=
    Str.join " " (map Str.lower (default [] (mem_people memory))) in
  let score := sum_if 1 (fun word => Str.contains word memory_text) query_words in
  let score := score + sum_if 3 (fun word => Str.contains word memory_emotion) query_words in
  let score := score + sum_if 2 (fun word => Str.contains word memory_location) query_words in
  let score := score + sum_if 2 (fun word => Str.contains word memory_people) query_words in
  score.

Definition keyword_search (query_text : string) (memory_list : list memory)
  : list memory :=
  let query_words := Str.split_ws (Str.lower query_text) in
  let scored_memories :=
    map (fun memory =>
           set_relevance_score (Int (keyword_score query_words memory)) memory)
        memory_list in
  sorted_desc relevance_key scored_memories.

(** The scoring rule in the words of the specification: every query token
    earns 1, 3, 2 and 2 points for occurring in the text, the emotion, the
    location and the space-joined people list.  [norm] is what is done to a
    field before the token is looked up in it. *)
Definition token_points (norm : string -> string) (m : memory) (tok : string) : Z :=
  (if Str.contains tok (norm (default EmptyString (mem_text m))) then 1 else 0)
  + (if Str.contains tok (norm (default EmptyString (mem_emotion m))) then 3 else 0)
  + (if Str.contains tok (norm (default EmptyString (mem_location m))) then 2 else 0)
  + (if Str.contains tok (norm (Str.join " " (default [] (mem_people m)))) then 2 else 0).

Fixpoint total (l : list Z) : Z :=
  match l with
  | [] => 0
  | x :: l' => x + total l'
  end.

Definition stated_score (norm : string -> string) (query : string) (m : memory) : Z :=
  total (map (token_points norm m) (Str.split_ws (Str.lower query))).

Definition annotate (norm : string -> string) (query : string) (m : memory) : memory :=
  set_relevance_score (Int (stated_score norm query m)) m.

(** ** The fallback extractor ([process_memory], [except] branch) *)

(** The [emotions] table of [basic_emotion_analysis], in declaration order. *)
Definition emotions : list (string * list string) :=
  [ ("Happy", ["happy"; "joy"; "excited"; "glad"; "delighted"; "pleased"]);
    ("Sad", ["sad"; "unhappy"; "depressed"; "down"; "blue"; "upset"]);
    ("Angry", ["angry"; "mad"; "furious"; "annoyed"; "irritated"]);
    ("Anxious", ["anxious"; "worried"; "nervous"; "stressed"]);
    ("Peaceful", ["peaceful"; "calm"; "relaxed"; "tranquil"]);
    ("Nostalgic", ["nostalgic"; "remember"; "memory"; "past"; "childhood"]);
    ("Grateful", ["grateful"; "thankful"; "appreciate"]) ].

(** The inner loop: [if keyword in txt: emotion_scores[emotion] += 1]. *)
Definition count_keywords (txt : string) (keywords : list string) : Z :=
  fold_left (fun score keyword =>
               if Str.contains keyword txt then score + 1 else score)
            keywords 0.

(** [max(items, key=...)] on [best :: l]: the first item with the largest key. *)
Fixpoint max_by {A : Type} (key : A -> Z) (best : A) (l : list A) : A :=
  match l with
  | [] => best
  | x :: l' => max_by key (if key best <? key x then x else best) l'
  end.

Definition basic_emotion_analysis (txt : string) : string :=
  let txt := Str.lower txt in
  let emotion_scores :=
    map (fun '(emotion, keywords) => (emotion, count_keywords txt keywords))
        emotions in
  if existsb (fun item => negb (snd item =? 0)) emotion_scores
  then match emotion_scores with
       | first :: others => fst (max_by snd first others)
       | [] => "Neutral"
       end
  else "Neutral".

Definition location_keywords : list string := ["at"; "in"; "near"; "by"].

(** The loop over [location_keywords]; falling out of it leaves
    [location = 'Unknown']. *)
Fixpoint location_loop (text : string) (keywords : list string) : string :=
  match keywords with
  | [] => "Unknown"
  | keyword :: rest =>
      let pattern := " " +:+ keyword +:+ " " in
      if Str.contains pattern (" " +:+ text +:+ " ") then
        let parts := Str.split pattern text in
        if (1 <? length parts)%nat then
          let possible_location :=
            hd EmptyString
               (Str.split ","
                  (hd EmptyString
                      (Str.split "." (nth 1 parts EmptyString)))) in
          if (String.length possible_location <? 30)%nat
          then possible_location
          else location_loop text rest
        else location_loop text rest
      else location_loop text rest
  end.

Definition fallback_location (text : string) : string :=
  location_loop text location_keywords.

(** ** The remote services *)

(** What the parameter-extraction reply is read for: the three keys, each
    absent or a list of strings. *)
Record search_params := SearchParams {
  sp_emotions : option (list string);
  sp_people : option (list string);
  sp_locations : option (list string)
}.

(** One entry of [memories_json], the payload of the final ranking call. *)
Record candidate := Candidate {
  cand_id : option Z;
  cand_text : option string;
  cand_date : option string;
  cand_emotion : option string;
  cand_people : list string;
  cand_location : option string
}.

Record client := Client {
  (** [client.embeddings.create(...).data[0].embedding] *)
  embeddings_create : string -> option (list float);
  (** first chat call, parsed: the search parameters *)
  chat_search_params : string -> option search_params;
  (** second chat call, parsed: [final_ranking.get('memory_ids', [])] *)
  chat_final_ranking : string -> list candidate -> option (list (option Z));
  (** [int(hashlib.md5(word.encode()).hexdigest(), 16)] *)
  md5_int : string -> Z
}.

(** ** Exceptions *)

Inductive result (A : Type) : Type :=
| Ok (a : A)
| Raise.
Arguments Ok {A} a.
Arguments Raise {A}.

#[global] Instance result_bind : MBind result :=
  fun A B (k : A -> result B) (r : result A) =>
    match r with
    | Ok a => k a
    | Raise => Raise
    end.

(** [try: body except Exception: handler] *)
Definition try_except {A : Type} (body handler : result A) : result A :=
  match body with
  | Ok a => Ok a
  | Raise => handler
  end.

(** A remote call: the reply, or the exception it raised. *)
Definition call {A : Type} (reply : option A) : result A :=
  match reply with
  | Some a => Ok a
  | None => Raise
  end.

(** ** Embeddings ([generate_memory_embedding]) *)

(** Dimension [i] of the hash-based vector:
    [(sum(values) / len(values) / 100) * 2 - 1], an int by an int first, then
    floats throughout. *)
Definition pseudo_component (word_hashes : list Z) (i : Z) : float :=
  let values := map (fun h => h mod (100 + i * 10)) word_hashes in
  Double.sub
    (Double.mul
       (Double.div (Double.true_div (py_sum values) (Z.of_nat (length values)))
                   (Double.of_int 100))
       (Double.of_int 2))
    (Double.of_int 1).

Definition pseudo_embedding (c : client) (text : string) : list float :=
  let words := Str.split_ws (Str.lower text) in
  let word_hashes :=
    map (md5_int c)
        (List.filter (fun word => negb (String.eqb word EmptyString)) words) in
  match word_hashes with
  | _ :: _ =>
      let pseudo := map (fun i => pseudo_component word_hashes (Z.of_nat i)) (seq 0 10) in
      pseudo ++ repeat Double.zero (10 - length pseudo)
  | [] => repeat Double.zero 10
  end.

Definition generate_memory_embedding (c : client) (text : string) : list float :=
  match embeddings_create c text with
  | Some embedding => embedding
  | None => pseudo_embedding c text
  end.

(** ** The recall pipeline ([recall_memories]) *)

Definition emotion_of (m : memory) : string :=
  Str.lower (default EmptyString (mem_emotion m)).

(** The three filters applied when the parameters could be extracted. *)
Definition filter_by_params (sp : search_params) (memories : list memory)
  : list memory :=
  let filtered_memories := memories in
  let filtered_memories :=
    match sp_emotions sp with
    | Some ((_ :: _) as wanted) =>
        List.filter
          (fun m => existsb (fun emotion => Str.contains (Str.lower emotion) (emotion_of m))
                            wanted)
          filtered_memories
    | _ => filtered_memories
    end in
  let filtered_memories :=
    match sp_people sp with
    | Some ((_ :: _) as wanted) =>
        List.filter
          (fun m => existsb
                      (fun person =>
                         existsb (String.eqb (Str.lower person))
                                 (map Str.lower (default [] (mem_people m))))
                      wanted)
          filtered_memories
    | _ => filtered_memories
    end in
  let filtered_memories :=
    match sp_locations sp with
    | Some ((_ :: _) as wanted) =>
        List.filter
          (fun m => existsb
                      (fun location =>
                         Str.contains (Str.lower location)
                           (Str.lower (default EmptyString (mem_location m))))
                      wanted)
          filtered_memories
    | _ => filtered_memories
    end in
  filtered_memories.

Definition common_emotions : list string :=
  ["happy"; "sad"; "angry"; "excited"; "frustrated"; "anxious"; "peaceful"].

(** The handler of the extraction call: the first known emotion word found in
    the query filters, and the loop breaks. *)
Definition basic_filter (query : string) (memories : list memory) : list memory :=
  let query_lower := Str.lower query in
  match List.find (fun emotion => Str.contains emotion query_lower) common_emotions with
  | Some emotion =>
      List.filter (fun m => Str.contains emotion (emotion_of m)) memories
  | None => memories
  end.

(** The built-in [sum] over floats: it starts from the int 0, which is
    what it returns when there is nothing to add, and adds from the left. *)
Definition sum_floats (l : list float) : number :=
  match l with
  | [] => Int 0
  | _ :: _ => Float (fold_left Double.add l Double.zero)
  end.

(** [sum(a*b for a, b in zip(q[:min_len], e[:min_len]))] *)
Definition similarity (query_embedding embedding : list float) : number :=
  let min_len := Nat.min (length query_embedding) (length embedding) in
  sum_floats (map (fun ab => Double.mul (fst ab) (snd ab))
                  (combine (firstn min_len query_embedding)
                           (firstn min_len embedding))).

(** The body of the scoring loop.  The write goes to the dict itself, which
    the caller's list shares; the pipeline reads the caller's list again only
    in [keyword_search], on a path where the loop did not run or after which
    the field is overwritten in a copy, so the shared write is not tracked. *)
Definition score_by_embedding (query_embedding : list float) (m : memory) : memory :=
  match mem_embedding m with
  | Some ((_ :: _) as embedding) =>
      set_relevance_score (similarity query_embedding embedding) m
  | _ => set_relevance_score (Int 0) m
  end.

(** [if query_embedding and filtered_memories: ... sort]. *)
Definition rank_by_embedding (query_embedding : list float) (filtered_memories : list memory)
  : list memory :=
  match query_embedding, filtered_memories with
  | _ :: _, _ :: _ =>
      sorted_desc relevance_key
        (map (score_by_embedding query_embedding) filtered_memories)
  | _, _ => filtered_memories
  end.

Definition candidate_of (m : memory) : candidate :=
  {| cand_id := mem_id m; cand_text := mem_text m; cand_date := mem_date m;
     cand_emotion := mem_emotion m; cand_people := default [] (mem_people m);
     cand_location := mem_location m |}.

(** [memories_json], before serialisation. *)
Definition ranking_payload (filtered_memories : list memory) : list candidate :=
  map candidate_of (firstn 20 filtered_memories).

(** [{m.get('id'): m for m in filtered_memories}]: a later memory replaces an
    earlier one with the same id. *)
Definition memory_map (filtered_memories : list memory) : gmap (option Z) memory :=
  foldl (fun acc m => <[mem_id m := m]> acc) ∅ filtered_memories.

Definition rerank (ranked_ids : list (option Z)) (filtered_memories : list memory)
  : list memory :=
  let ranked_memories := omap (fun mem_id => memory_map filtered_memories !! mem_id) ranked_ids in
  let remaining_memories :=
    List.filter (fun m => negb (bool_decide (mem_id m ∈ ranked_ids))) filtered_memories in
  ranked_memories ++ remaining_memories.

(** Stages 3 and 4: extraction and filtering, with the local handler. *)
Definition filter_stage (c : client) (query : string) (memories : list memory)
  : result (list memory) :=
  try_except
    (search_params ← call (chat_search_params c query);
     Ok (filter_by_params search_params memories))
    (Ok (basic_filter query memories)).

(** Stage 6: the guarded ranking call.  [Some] is the early [return]; [None]
    falls through to the statement after the [try]. *)
Definition ranking_stage (c : client) (query : string) (filtered_memories : list memory)
  : result (option (list memory)) :=
  try_except
    (match filtered_memories with
     | _ :: _ =>
         ranked_ids ← call (chat_final_ranking c query (ranking_payload filtered_memories));
         Ok (Some (rerank ranked_ids filtered_memories))
     | [] => Ok None
     end)
    (Ok None).

Definition recall_memories (c : client) (query : string) (memories : list memory)
  : result (list memory) :=
  match memories with
  | [] => Ok []
  | _ :: _ =>
      try_except
        (let query_embedding := generate_memory_embedding c query in
         filtered_memories ← filter_stage c query memories;
         let filtered_memories := rank_by_embedding query_embedding filtered_memories in
         returned ← ranking_stage c query filtered_memories;
         match returned with
         | Some ranked => Ok ranked
         | None =>
             Ok (match filtered_memories with
                 | _ :: _ => filtered_memories
                 | [] => keyword_search query memories
                 end)
         end)
        (Ok (keyword_search query memories))
  end.

(** The filtered set as it stands when the ranking call is reached. *)
Definition filtered_set (c : client) (query : string) (memories : list memory)
  : list memory :=
  let pre :=
    match chat_search_params c query with
    | Some sp => filter_by_params sp memories
    | None => basic_filter query memories
    end in
  rank_by_embedding (generate_memory_embedding c query) pre.

(** ** The flat-file store ([data_store.py]) *)

(** What the store functions can see and change: whether the [data]
    directory exists, the pickled list in [data/memories.pkl] (if the file
    exists), [st.session_state.memories], and how many times [pickle.dump]
    has run. *)
Record world := World {
  data_dir : bool;
  file : option (list memory);
  session : list memory;
  dumps : nat
}.

(** [get_data_file_path]: [os.makedirs(DATA_DIRECTORY, exist_ok=True)]. *)
Definition ensure_data_directory (w : world) : world :=
  {| data_dir := true; file := file w; session := session w; dumps := dumps w |}.

Definition load_memories (w : world) : world * list memory :=
  (ensure_data_directory w, default [] (file w)).

(** [pickle.dump(memories, f)] followed by the session update. *)
Definition dump_and_publish (memories : list memory) (w : world) : world :=
  {| data_dir := true; file := Some memories; session := memories;
     dumps := S (dumps w) |}.

Definition save_memory (memory : memory) (w : world) : world :=
  let '(w, memories) := load_memories w in
  let memories := memories ++ [memory] in
  dump_and_publish memories w.

(** [memories[i].update(updated_data)]: the keys present in [updated_data]
    replace those of the stored record. *)
Definition dict_update (updated_data m : memory) : memory :=
  {| mem_id := from_option Some (mem_id m) (mem_id updated_data);
     mem_text := from_option Some (mem_text m) (mem_text updated_data);
     mem_date := from_option Some (mem_date m) (mem_date updated_data);
     mem_emotion := from_option Some (mem_emotion m) (mem_emotion updated_data);
     mem_people := from_option Some (mem_people m) (mem_people updated_data);
     mem_location := from_option Some (mem_location m) (mem_location updated_data);
     mem_topics := from_option Some (mem_topics m) (mem_topics updated_data);
     mem_context := from_option Some (mem_context m) (mem_context updated_data);
     mem_embedding := from_option Some (mem_embedding m) (mem_embedding updated_data);
     mem_unlock_date := from_option Some (mem_unlock_date m) (mem_unlock_date updated_data);
     mem_is_time_capsule :=
       from_option Some (mem_is_time_capsule m) (mem_is_time_capsule updated_data);
     mem_relevance_score :=
       from_option Some (mem_relevance_score m) (mem_relevance_score updated_data) |}.

(** [memory.get('id') == memory_id] *)
Definition has_id (memory_id : Z) (m : memory) : bool :=
  bool_decide (mem_id m = Some memory_id).

(** The [for i, memory in enumerate(memories)] scan of [update_memory] and
    [delete_memory]: the list with [change] applied at the first record whose
    id matches, or [None] when the scan ends without a match. *)
Fixpoint at_first_match (memory_id : Z) (change : memory -> list memory)
  (memories : list memory) : option (list memory) :=
  match memories with
  | [] => None
  | memory :: rest =>
      if has_id memory_id memory then Some (change memory ++ rest)
      else match at_first_match memory_id change rest with
           | Some rest' => Some (memory :: rest')
           | None => None
           end
  end.

Definition update_memory (memory_id : Z) (updated_data : memory) (w : world)
  : world * bool :=
  let '(w, memories) := load_memories w in
  match at_first_match memory_id (fun m => [dict_update updated_data m]) memories with
  | Some memories => (dump_and_publish memories w, true)
  | None => (w, false)
  end.

Definition delete_memory (memory_id : Z) (w : world) : world * bool :=
  let '(w, memories) := load_memories w in
  match at_first_match memory_id (fun _ => []) memories with
  | Some memories => (dump_and_publish memories w, true)
  | None => (w, false)
  end.

(** The document between [json.dumps] and [json.loads]: the list of records.
    The text encoding of the [json] module is taken to be lossless on it. *)
Definition json_document : Type := list memory.

Definition export_memories_json (w : world) : world * json_document :=
  let '(w, memories) := load_memories w in
  (w, map del_embedding memories).

(** [max([...], default=0)] *)
Definition max_default (l : list Z) : Z :=
  match l with
  | [] => 0
  | x :: l' => fold_left Z.max l' x
  end.

(** The import loop: number the records from [next_id] on and append them. *)
Fixpoint assign_ids (next_id : Z) (imported_memories : list memory) : list memory :=
  match imported_memories with
  | [] => []
  | memory :: rest => set_id next_id memory :: assign_ids (next_id + 1) rest
  end.

Definition import_memories_json (json_str : json_document) (w : world)
  : world * bool :=
  let imported_memories := json_str in
  let '(w, current_memories) := load_memories w in
  let next_id := max_default (map (fun m => default 0 (mem_id m)) current_memories) + 1 in
  let current_memories := current_memories ++ assign_ids next_id imported_memories in
  (dump_and_publish current_memories w, true).

(** ** The tabs of [app.py] *)

(** The record built by the Capture and Time Capsule tabs: the id is
    [len(st.session_state.memories) + 1], the remaining keys come from the
    form and the extractor and are passed in as [draft]. *)
Definition new_memory (draft : memory) (w : world) : memory :=
  set_id (Z.of_nat (length (session w)) + 1) draft.

(** "Save Memory" / "Create Time Capsule": build, [save_memory], reload. *)
Definition capture (draft : memory) (w : world) : world :=
  let w := save_memory (new_memory draft w) w in
  let '(w, memories) := load_memories w in
  {| data_dir := data_dir w; file := file w; session := memories; dumps := dumps w |}.

(** Application start: [st.session_state.memories = load_memories()]. *)
Definition start (w : world) : world :=
  let '(w, memories) := load_memories w in
  {| data_dir := data_dir w; file := file w; session := memories; dumps := dumps w |}.

Definition fresh_install : world :=
  start {| data_dir := false; file := None; session := []; dumps := O |}.

(** The actions that change the store. *)
Inductive action : Type :=
| Capture (draft : memory)
| Import (doc : json_document)
| Update (memory_id : Z) (updated_data : memory)
| Delete (memory_id : Z).

Definition perform (a : action) (w : world) : world :=
  match a with
  | Capture draft => capture draft w
  | Import doc => fst (import_memories_json doc w)
  | Update memory_id updated_data => fst (update_memory memory_id updated_data w)
  | Delete memory_id => fst (delete_memory memory_id w)
  end.

(** The store after a run of actions on a fresh installation. *)
Definition run (actions : list action) : world :=
  fold_left (fun w a => perform a w) actions fresh_install.

Definition stored_ids (w : world) : list (option Z) := map mem_id (default [] (file w)).

(** [m.get('unlock_date') and m.get('unlock_date') > current_date] *)
Definition locked (current_date : string) (m : memory) : bool :=
  match mem_unlock_date m with
  | Some unlock_date =>
      negb (String.eqb unlock_date EmptyString) && String.ltb current_date unlock_date
  | None => false
  end.

(** [not m.get('unlock_date') or m.get('unlock_date') <= current_date] *)
Definition unlocked (current_date : string) (m : memory) : bool :=
  match mem_unlock_date m with
  | Some unlock_date =>
      String.eqb unlock_date EmptyString || String.leb unlock_date current_date
  | None => true
  end.

(** [available_memories] of the Mind Map and Summaries tabs. *)
Definition available_memories (current_date : string) (memories : list memory)
  : list memory :=
  List.filter (unlocked current_date) memories.

(** [m.get('date')[:10]]; slicing [None] raises. *)
Definition day_of (m : memory) : result string :=
  match mem_date m with
  | Some date => Ok (String.substring 0 10 date)
  | None => Raise
  end.

(** A list comprehension whose condition can raise. *)
Fixpoint filter_raising {A : Type} (cond : A -> result bool) (l : list A)
  : result (list A) :=
  match l with
  | [] => Ok []
  | x :: l' =>
      keep ← cond x;
      rest ← filter_raising cond l';
      Ok (if keep : bool then x :: rest else rest)
  end.

(** A loop body that can raise, run over a list. *)
Fixpoint map_raising {A B : Type} (f : A -> result B) (l : list A)
  : result (list B) :=
  match l with
  | [] => Ok []
  | x :: l' =>
      y ← f x;
      rest ← map_raising f l';
      Ok (y :: rest)
  end.

(** What [generate_mind_map] receives. *)
Definition mind_map_input (current_date : string) (memories : list memory)
  : list memory :=
  available_memories current_date memories.

(** What [summarize_memories] receives for a period starting at [start_date]. *)
Definition summary_input (current_date start_date : string) (memories : list memory)
  : result (list memory) :=
  filter_raising
    (fun m => day ← day_of m; Ok (String.leb start_date day))
    (available_memories current_date memories).

(** What the search branch of the Recall tab hands to [recall_memories]. *)
Definition recall_input (memories : list memory) : list memory := memories.

(** The Recall tab: the list it goes on to display.  With a query and the
    button pressed it is the result of [recall_memories] on the session's
    memories; otherwise the unlock filter and the selected emotion, person and
    date filters are applied. *)
Definition recall_tab (c : client) (search_query : string) (search_button : bool)
  (emotion_filter person_filter : option string)
  (date_range : option (string * string))
  (current_date : string) (memories : list memory) : result (list memory) :=
  if negb (String.eqb search_query EmptyString) && search_button then
    recall_memories c search_query (recall_input memories)
  else
    let filtered_memories := memories in
    let filtered_memories := List.filter (unlocked current_date) filtered_memories in
    let filtered_memories :=
      match emotion_filter with
      | Some wanted =>
          List.filter (fun m => bool_decide (mem_emotion m = Some wanted)) filtered_memories
      | None => filtered_memories
      end in
    let filtered_memories :=
      match person_filter with
      | Some wanted =>
          List.filter (fun m => bool_decide (wanted ∈ default [] (mem_people m)))
                      filtered_memories
      | None => filtered_memories
      end in
    match date_range with
    | Some (start_date, end_date) =>
        filter_raising
          (fun m =>
             day ← day_of m;
             Ok (String.leb start_date day && String.leb day end_date))
          filtered_memories
    | None => Ok filtered_memories
    end.

(** ** The statements of the specification, as functions

    Each definition below follows the wording of the specification, not the
    code, and is what the code is compared with. *)

(** The number of places in [txt] where [keyword] occurs. *)
Fixpoint occurrences (keyword txt : string) : Z :=
  (if Str.starts_with keyword txt then 1 else 0)
  + match txt with
    | EmptyString => 0
    | String _ txt' => occurrences keyword txt'
    end.

(** One point for a keyword that occurs in [txt], however often. *)
Definition presence (keyword txt : string) : Z :=
  if Str.contains keyword txt then 1 else 0.

(** The classifier of the specification for a given way of counting: every
    category scores the points of its keywords, the first category in
    declaration order with the largest score wins, and all scores zero gives
    Neutral. *)
Definition category_scores (points : string -> string -> Z) (txt : string)
  : list (string * Z) :=
  map (fun item => (fst item, total (map (fun keyword => points keyword txt) (snd item))))
      emotions.

Definition largest (scores : list (string * Z)) : Z :=
  fold_right Z.max 0 (map snd scores).

Definition classify (points : string -> string -> Z) (txt : string) : string :=
  let scores := category_scores points txt in
  if forallb (fun item => snd item =? 0) scores then "Neutral"
  else match List.find (fun item => snd item =? largest scores) scores with
       | Some item => fst item
       | None => "Neutral"
       end.

(** Some keyword of category [label] occurs in [txt]. *)
Definition mentions (label txt : string) : bool :=
  existsb (fun item => String.eqb (fst item) label
                       && existsb (fun keyword => Str.contains keyword txt) (snd item))
          emotions.

Definition pattern_of (keyword : string) : string := " " +:+ keyword +:+ " ".

Definition is_stop (c : ascii) : bool := Ascii.eqb c "." || Ascii.eqb c ",".

(** The text of [s] up to its first character satisfying [stop]. *)
Fixpoint until (stop : ascii -> bool) (s : string) : string :=
  match s with
  | EmptyString => EmptyString
  | String c s' => if stop c then EmptyString else String c (until stop s')
  end.

(** The text after the leftmost occurrence of [sep]. *)
Definition after (sep s : string) : option string :=
  match Str.cut sep s with
  | Some (_, a) => Some a
  | None => None
  end.

(** Location extraction as the specification words it: the first pattern, in
    priority order, that occurs in the text decides; the text after its first
    match up to the next full stop or comma is the location if it is shorter
    than 30 characters, and otherwise the location stays Unknown. *)
Definition stated_location (text : string) : string :=
  match List.find (fun keyword => Str.contains (pattern_of keyword) text) location_keywords with
  | Some keyword =>
      match after (pattern_of keyword) text with
      | Some rest =>
          let possible := until is_stop rest in
          if (String.length possible <? 30)%nat then possible else "Unknown"
      | None => "Unknown"
      end
  | None => "Unknown"
  end.

(** The candidate one pattern yields: the text after its first occurrence, up
    to the next occurrence of the same pattern, full stop or comma. *)
Definition candidate_location (text keyword : string) : option string :=
  match after (pattern_of keyword) text with
  | Some rest => Some (until is_stop (Str.before (pattern_of keyword) rest))
  | None => None
  end.

(** The first candidate, in priority order, shorter than 30 characters. *)
Fixpoint first_accepted (text : string) (keywords : list string) : string :=
  match keywords with
  | [] => "Unknown"
  | keyword :: rest =>
      match candidate_location text keyword with
      | Some possible =>
          if (String.length possible <? 30)%nat then possible
          else first_accepted text rest
      | None => first_accepted text rest
      end
  end.

(** The rational a finite float is; 0 for the others. *)
Definition rational_of (x : float) : Q :=
  match float_value x with
  | Some (Rational q) => q
  | _ => 0%Q
  end.

(** The dot product over the first [n] components as a sum of products of
    rationals, nothing rounded. *)
Fixpoint exact_dot_upto (n : nat) (u v : list float) : Q :=
  match n with
  | O => 0%Q
  | S n' =>
      (exact_dot_upto n' u v
       + rational_of (nth n' u Double.zero) * rational_of (nth n' v Double.zero))%Q
  end.

(** The dot product over the first [n] components in double precision, from
    the first component on: every product and every partial sum is
    rounded. *)
Fixpoint dot_upto (n : nat) (u v : list float) : float :=
  match n with
  | O => Double.zero
  | S n' =>
      Double.add (dot_upto n' u v)
                 (Double.mul (nth n' u Double.zero) (nth n' v Double.zero))
  end.

(** The relevance of a memory in the words of the specification, the dot
    product being the one in double precision: over the length of the shorter
    vector, and the int 0 for a memory without embedding (none, or an empty
    one). *)
Definition stated_relevance (query_embedding : list float) (m : memory) : number :=
  match mem_embedding m with
  | Some ((_ :: _) as embedding) =>
      Float (dot_upto (Nat.min (length query_embedding) (length embedding))
                      query_embedding embedding)
  | _ => Int 0
  end.

(** Two memories in the order of their stored scores: both carry one, and
    the first is not smaller than the second. *)
Definition score_not_below (a b : memory) : Prop :=
  match mem_relevance_score a, mem_relevance_score b with
  | Some sa, Some sb => number_lt sa sb = false
  | _, _ => False
  end.

(** The last memory of a list carrying a given id. *)
Definition last_with_id (i : option Z) (l : list memory) : option memory :=
  last (List.filter (fun m => bool_decide (mem_id m = i)) l).

(** What the round trip through a document keeps of a record: the five
    content fields, with the embedding gone. *)
Definition preserved (m m' : memory) : Prop :=
  mem_text m' = mem_text m /\ mem_date m' = mem_date m
  /\ mem_emotion m' = mem_emotion m /\ mem_people m' = mem_people m
  /\ mem_location m' = mem_location m /\ mem_embedding m' = None.

(** Actions that leave the ids of stored records alone: no deletion, and no
    update that writes the [id] key. *)
Definition keeps_ids (a : action) : Prop :=
  match a with
  | Capture _ => True
  | Import _ => True
  | Update _ updated_data => mem_id updated_data = None
  | Delete _ => False
  end.

(** The ids 1, 2, ..., n. *)
Definition numbered (n : nat) : list (option Z) :=
  map (fun k => Some (Z.of_nat k)) (seq 1 n).

(** The session mirrors the file and the stored ids are 1, 2, ..., n. *)
Definition ids_in_sequence (w : world) : Prop :=
  session w = default [] (file w)
  /\ stored_ids w = numbered (length (default [] (file w))).

(** ** Sample records *)

Definition sunny_day : memory :=
  {| mem_id := Some 1; mem_text := Some "Great day by the sea";
     mem_date := Some "2024-06-01T10:00:00"; mem_emotion := Some "Happy";
     mem_people := Some ["Maria"]; mem_location := Some "Beach";
     mem_topics := Some []; mem_context := Some EmptyString;
     mem_embedding := Some [Double.of_Q (1#2); Double.of_Q (1#4)];
     mem_unlock_date := None;
     mem_is_time_capsule := None; mem_relevance_score := None |}.

Definition rainy_day : memory :=
  {| mem_id := Some 2; mem_text := Some "Missed the bus in the rain";
     mem_date := Some "2024-06-02T18:30:00"; mem_emotion := Some "Sad";
     mem_people := Some []; mem_location := Some "Unknown";
     mem_topics := Some []; mem_context := Some EmptyString;
     mem_embedding := Some [Double.of_Q 1; Double.of_Q 1];
     mem_unlock_date := None;
     mem_is_time_capsule := None; mem_relevance_score := None |}.

Definition capsule : memory :=
  {| mem_id := Some 3; mem_text := Some "Open me next year, happy birthday";
     mem_date := Some "2024-06-03T09:00:00"; mem_emotion := Some "Hopeful";
     mem_people := Some []; mem_location := Some "Time Capsule";
     mem_topics := Some []; mem_context := Some EmptyString;
     mem_embedding := Some [Double.of_Q (1#3); Double.of_Q (1#3)];
     mem_unlock_date := Some "2025-06-03";
     mem_is_time_capsule := Some true; mem_relevance_score := None |}.

(** Two records whose embeddings tell rounded sums from exact ones. *)
Definition cancelling : memory :=
  {| mem_id := Some 4; mem_text := Some "One, a whisker and minus one";
     mem_date := Some "2024-06-04T09:00:00"; mem_emotion := Some "Neutral";
     mem_people := Some []; mem_location := Some "Unknown";
     mem_topics := Some []; mem_context := Some EmptyString;
     mem_embedding :=
       Some [Double.of_Q 1; Double.of_Q (1 # 10000000000000000); Double.of_Q (-1)];
     mem_unlock_date := None;
     mem_is_time_capsule := None; mem_relevance_score := None |}.

Definition whisker : memory :=
  {| mem_id := Some 5; mem_text := Some "Half a whisker";
     mem_date := Some "2024-06-05T09:00:00"; mem_emotion := Some "Neutral";
     mem_people := Some []; mem_location := Some "Unknown";
     mem_topics := Some []; mem_context := Some EmptyString;
     mem_embedding :=
       Some [Double.of_Q (1 # 20000000000000000); Double.zero; Double.zero];
     mem_unlock_date := None;
     mem_is_time_capsule := None; mem_relevance_score := None |}.

(** A record with no key set, and one with only an id. *)
Definition blank : memory :=
  {| mem_id := None; mem_text := None; mem_date := None; mem_emotion := None;
     mem_people := None; mem_location := None; mem_topics := None;
     mem_context := None; mem_embedding := None; mem_unlock_date := None;
     mem_is_time_capsule := None; mem_relevance_score := None |}.

(** No service reachable: every remote call raises.  The word hash is a
    stand-in, used only by the hash-based embedding. *)
Definition offline : client :=
  {| embeddings_create := fun _ => None;
     chat_search_params := fun _ => None;
     chat_final_ranking := fun _ _ => None;
     md5_int := fun word => Z.of_nat (String.length word) |}.

(** The embedding service answers, both chat calls raise. *)
Definition embeddings_only : client :=
  {| embeddings_create := fun _ => Some [Double.of_Q 1; Double.of_Q 2];
     chat_search_params := fun _ => None;
     chat_final_ranking := fun _ _ => None;
     md5_int := fun word => Z.of_nat (String.length word) |}.

(** Every service answers; the ranking lists id 2, an unknown id 9, then 1. *)
Definition online : client :=
  {| embeddings_create := fun _ => Some [Double.of_Q 1; Double.of_Q 2];
     chat_search_params := fun _ => Some (SearchParams None None None);
     chat_final_ranking := fun _ _ => Some [Some 2; Some 9; Some 1];
     md5_int := fun word => Z.of_nat (String.length word) |}.

(** ** The rest of the store and of [utils.py] *)

(** [get_memory_by_id]: the first stored record carrying the id. *)
Definition get_memory_by_id (memory_id : Z) (w : world) : world * option memory :=
  let '(w, memories) := load_memories w in
  (w, List.find (has_id memory_id) memories).

(** The dict [{'unlock_date': new_unlock_date}]. *)
Definition unlock_date_only (new_unlock_date : string) : memory :=
  {| mem_id := None; mem_text := None; mem_date := None; mem_emotion := None;
     mem_people := None; mem_location := None; mem_topics := None;
     mem_context := None; mem_embedding := None;
     mem_unlock_date := Some new_unlock_date;
     mem_is_time_capsule := None; mem_relevance_score := None |}.

Definition update_memory_unlock_date (memory_id : Z) (new_unlock_date : string)
  (w : world) : world * bool :=
  update_memory memory_id (unlock_date_only new_unlock_date) w.

(** The records in the file. *)
Definition stored (w : world) : list memory := default [] (file w).

Fixpoint take (n : nat) (s : string) : string :=
  match n, s with
  | O, _ => EmptyString
  | S _, EmptyString => EmptyString
  | S n', String c s' => String c (take n' s')
  end.

(** [s[:stop]] for any integer [stop]: a negative [stop] counts from the
    end. *)
Definition slice_to (stop : Z) (s : string) : string :=
  if 0 <=? stop then take (Z.to_nat stop) s
  else take (Z.to_nat (Z.of_nat (String.length s) + stop)) s.

(** [truncate_text] of [utils.py]. *)
Definition truncate_text (text : string) (max_length : Z) : string :=
  if max_length <? Z.of_nat (String.length text)
  then slice_to max_length text +:+ "..."
  else text.

(** ** The rest of [memory_processor.py] *)

(** [str.capitalize]: the first character in upper case, the others in lower
    case.  The upper case is that of the letters a to z, which covers the
    twelve words of [common_topics], the only strings it is applied to. *)
Definition upper_char (c : ascii) : ascii :=
  let n := Str.code c in
  if ((97 <=? n) && (n <=? 122))%N then ascii_of_N (n - 32) else c.

Definition capitalize (s : string) : string :=
  match s with
  | EmptyString => EmptyString
  | String c s' => String (upper_char c) (Str.lower s')
  end.

Definition common_topics : list string :=
  ["family"; "work"; "school"; "friends"; "travel"; "food"; "health";
   "hobby"; "achievement"; "challenge"; "celebration"; "learning"].

Definition basic_topic_extraction (txt : string) : list string :=
  let txt_lower := Str.lower txt in
  let found_topics :=
    map capitalize
        (List.filter (fun topic => Str.contains topic txt_lower) common_topics) in
  firstn 3 found_topics.

(** The parsed reply of the extraction call: each key absent or of the type
    the data model gives it. *)
Record extraction_reply := ExtractionReply {
  reply_emotion : option string;
  reply_topics : option (list string);
  reply_context : option string;
  reply_people_mentioned : option (list string);
  reply_location : option string
}.

Record processed_memory := ProcessedMemory {
  pm_emotion : string;
  pm_topics : list string;
  pm_context : string;
  pm_people_mentioned : list string;
  pm_location : string
}.

(** [process_memory]; [reply] is the outcome of the chat call, [None] when
    it raised. *)
Definition process_memory (reply : option extraction_reply) (text : string)
  : processed_memory :=
  match reply with
  | Some result =>
      {| pm_emotion := default "Neutral" (reply_emotion result);
         pm_topics := default [] (reply_topics result);
         pm_context := default EmptyString (reply_context result);
         pm_people_mentioned := default [] (reply_people_mentioned result);
         pm_location := default "Unknown" (reply_location result) |}
  | None =>
      let emotion := basic_emotion_analysis text in
      let topics := basic_topic_extraction text in
      let location := fallback_location text in
      {| pm_emotion := emotion;
         pm_topics := topics;
         pm_context :=
           match topics with
           | _ :: _ => "This memory appears to be about " +:+ Str.join ", " topics
           | [] => EmptyString
           end;
         pm_people_mentioned := [];
         pm_location := location |}
  end.

(** [str.strip()] *)
Fixpoint lstrip (s : string) : string :=
  match s with
  | EmptyString => EmptyString
  | String c s' => if Str.is_space c then lstrip s' else s
  end.

Fixpoint rstrip (s : string) : string :=
  match s with
  | EmptyString => EmptyString
  | String c s' =>
      match rstrip s' with
      | EmptyString => if Str.is_space c then EmptyString else String c EmptyString
      | String d r => String c (String d r)
      end
  end.

Definition strip (s : string) : string := rstrip (lstrip s).

(** The [emotions] table of [analyze_emotion], in declaration order. *)
Definition analysis_emotions : list (string * list string) :=
  [ ("Happy", ["happy"; "joy"; "delighted"; "pleased"; "cheerful"; "content"; "joy"]);
    ("Sad", ["sad"; "unhappy"; "depressed"; "down"; "blue"; "upset"; "gloomy"]);
    ("Angry", ["angry"; "mad"; "furious"; "annoyed"; "irritated"; "frustrated"]);
    ("Surprised", ["surprised"; "shocked"; "astonished"; "amazed"; "stunned"]);
    ("Anxious", ["anxious"; "worried"; "nervous"; "stressed"; "uneasy"; "concerned"]);
    ("Peaceful", ["peaceful"; "calm"; "relaxed"; "tranquil"; "serene"; "content"]);
    ("Nostalgic", ["nostalgic"; "remember"; "memory"; "past"; "childhood"; "reminisce"]);
    ("Excited", ["excited"; "thrilled"; "eager"; "enthusiastic"; "energetic"]);
    ("Grateful", ["grateful"; "thankful"; "appreciate"; "blessed"; "fortunate"]);
    ("Confused", ["confused"; "puzzled"; "perplexed"; "bewildered"; "uncertain"]);
    ("Proud", ["proud"; "accomplished"; "achievement"; "satisfied"]);
    ("Embarrassed", ["embarrassed"; "ashamed"; "humiliated"; "mortified"]);
    ("Hopeful", ["hopeful"; "optimistic"; "looking forward"; "anticipate"]);
    ("Neutral", []) ].

(** [analyze_emotion]; [reply] is the content of the chat reply, [None] when
    the call raised. *)
Definition analyze_emotion (reply : option string) (text : string) : string :=
  match reply with
  | Some content => strip content
  | None =>
      let text_lower := Str.lower text in
      let emotion_scores :=
        map (fun '(emotion, keywords) => (emotion, count_keywords text_lower keywords))
            analysis_emotions in
      if existsb (fun item => negb (snd item =? 0)) emotion_scores
      then match emotion_scores with
           | first :: others => fst (max_by snd first others)
           | [] => "Neutral"
           end
      else "Neutral"
  end.

(** The scoring and selection both classifiers share, for any table. *)
Definition dominant_label (table : list (string * list string)) (txt : string)
  : string :=
  let emotion_scores :=
    map (fun '(emotion, keywords) => (emotion, count_keywords txt keywords)) table in
  if existsb (fun item => negb (snd item =? 0)) emotion_scores
  then match emotion_scores with
       | first :: others => fst (max_by snd first others)
       | [] => "Neutral"
       end
  else "Neutral".

(** No keyword of the table occurs in [txt]. *)
Definition no_keyword (table : list (string * list string)) (txt : string) : bool :=
  forallb (fun item => negb (existsb (fun keyword => Str.contains keyword txt) (snd item)))
          table.

(** A record without its transient [relevance_score]. *)
Definition forget_score (m : memory) : memory :=
  {| mem_id := mem_id m; mem_text := mem_text m; mem_date := mem_date m;
     mem_emotion := mem_emotion m; mem_people := mem_people m;
     mem_location := mem_location m; mem_topics := mem_topics m;
     mem_context := mem_context m; mem_embedding := mem_embedding m;
     mem_unlock_date := mem_unlock_date m;
     mem_is_time_capsule := mem_is_time_capsule m;
     mem_relevance_score := None |}.

(** ** The rest of [app.py] *)

(** [xs.sort(key=k)] on string keys: ascending, equal keys in their original
    order. *)
Section SortingAscending.
Context {A : Type} (key : A -> string).

Fixpoint insert_asc (x : A) (l : list A) : list A :=
  match l with
  | [] => [x]
  | y :: l' =>
      if String.ltb (key y) (key x) then y :: insert_asc x l'
      else x :: y :: l'
  end.

Definition sorted_asc (l : list A) : list A := foldr insert_asc [] l.

End SortingAscending.

(** Sidebar, "Time Capsules" metric: the list whose length is shown. *)
Definition locked_memories (current_date : string) (memories : list memory)
  : list memory :=
  List.filter (locked current_date) memories.

(** [m.get('unlock_date')] as a condition. *)
Definition has_unlock_date (m : memory) : bool :=
  match mem_unlock_date m with
  | Some unlock_date => negb (String.eqb unlock_date EmptyString)
  | None => false
  end.

(** [x.get('unlock_date')] of a record of [time_capsules], where the filter
    has left only records with a non-empty string under that key. *)
Definition unlock_key (m : memory) : string :=
  default EmptyString (mem_unlock_date m).

(** Time Capsule tab: the capsules, sorted by unlock date. *)
Definition time_capsules (memories : list memory) : list memory :=
  sorted_asc unlock_key (List.filter has_unlock_date memories).

Definition locked_capsules (current_date : string) (memories : list memory)
  : list memory :=
  List.filter (fun tc => String.ltb current_date (unlock_key tc))
              (time_capsules memories).

Definition unlocked_capsules (current_date : string) (memories : list memory)
  : list memory :=
  List.filter (fun tc => String.leb (unlock_key tc) current_date)
              (time_capsules memories).

(** Capture tab: [[p.strip() for p in people_involved.split(',')] if
    people_involved else []]. *)
Definition parse_people (people_involved : string) : list string :=
  match people_involved with
  | EmptyString => []
  | _ => map strip (Str.split "," people_involved)
  end.

(** "Save Memory": nothing happens without a text ([false] stands for the
    error message); otherwise the record is built from the form, the
    extractor and the embedding, and saved.  [reply] is the outcome of the
    extraction call, [current_date] that of [get_current_date()], and
    [unlock_date] the chosen date in ISO form when the time capsule box is
    ticked. *)
Definition save_memory_button (c : client) (reply : option extraction_reply)
  (memory_text people_involved location : string) (unlock_date : option string)
  (current_date : string) (w : world) : world * bool :=
  match memory_text with
  | EmptyString => (w, false)
  | _ =>
      let processed := process_memory reply memory_text in
      let draft :=
        {| mem_id := None;
           mem_text := Some memory_text;
           mem_date := Some current_date;
           mem_emotion := Some (pm_emotion processed);
           mem_people := Some (parse_people people_involved);
           mem_location :=
             Some (match location with EmptyString => "Unknown" | _ => location end);
           mem_topics := Some (pm_topics processed);
           mem_context := Some (pm_context processed);
           mem_embedding := Some (generate_memory_embedding c memory_text);
           mem_unlock_date := unlock_date;
           mem_is_time_capsule := None;
           mem_relevance_score := None |} in
      (capture draft w, true)
  end.

(** "Create Time Capsule". *)
Definition create_time_capsule_button (c : client) (reply : option extraction_reply)
  (time_capsule_text capsule_emotion capsule_unlock_date current_date : string)
  (w : world) : world * bool :=
  match time_capsule_text with
  | EmptyString => (w, false)
  | _ =>
      let processed := process_memory reply time_capsule_text in
      let draft :=
        {| mem_id := None;
           mem_text := Some time_capsule_text;
           mem_date := Some current_date;
           mem_emotion := Some capsule_emotion;
           mem_people := Some [];
           mem_location := Some "Time Capsule";
           mem_topics := Some (pm_topics processed);
           mem_context := Some (pm_context processed);
           mem_embedding := Some (generate_memory_embedding c time_capsule_text);
           mem_unlock_date := Some capsule_unlock_date;
           mem_is_time_capsule := Some true;
           mem_relevance_score := None |} in
      (capture draft w, true)
  end.

(** The number of commas in a text. *)
Fixpoint commas (s : string) : nat :=
  match s with
  | EmptyString => O
  | String c s' => ((if Ascii.eqb "," c then 1 else 0) + commas s')%nat
  end.

(** The first character, if any, is not white space. *)
Definition no_leading_space (s : string) : Prop :=
  match s with
  | EmptyString => True
  | String c _ => Str.is_space c = false
  end.

(** ** The template summary ([basic_summary_generator]) *)

(** [counts[key] = counts.get(key, 0) + 1] on a dict held as the list of its
    items in insertion order. *)
Fixpoint bump (key : string) (counts : list (string * Z)) : list (string * Z) :=
  match counts with
  | [] => [(key, 1)]
  | (k, n) :: rest =>
      if String.eqb k key then (k, n + 1) :: rest else (k, n) :: bump key rest
  end.

(** A counting loop over [keys], from the empty dict. *)
Definition tally (keys : list string) : list (string * Z) :=
  fold_left (fun counts key => bump key counts) keys [].

(** The dict [emotions]. *)
Definition emotion_counts (memory_list : list memory) : list (string * Z) :=
  tally (map (fun memory => default "Neutral" (mem_emotion memory)) memory_list).

(** [max(emotions.items(), key=lambda x: x[1])[0] if emotions else "Neutral"] *)
Definition dominant_emotion (memory_list : list memory) : string :=
  match emotion_counts memory_list with
  | first :: others => fst (max_by snd first others)
  | [] => "Neutral"
  end.

(** The dict [locations]: the locations other than Unknown. *)
Definition location_counts (memory_list : list memory) : list (string * Z) :=
  tally (List.filter (fun loc => negb (String.eqb loc "Unknown"))
                     (map (fun memory => default "Unknown" (mem_location memory))
                          memory_list)).

(** [sorted(counts.items(), key=lambda x: x[1], reverse=True)[:3]] *)
Definition top_three (counts : list (string * Z)) : list (string * Z) :=
  firstn 3 (sorted_desc (fun item => Int (snd item)) counts).

Definition common_locations (memory_list : list memory) : list (string * Z) :=
  top_three (location_counts memory_list).

Definition location_text (memory_list : list memory) : string :=
  match common_locations memory_list with
  | _ :: _ => Str.join ", " (map fst (common_locations memory_list))
  | [] => "various places"
  end.

(** The dict [people]. *)
Definition people_counts (memory_list : list memory) : list (string * Z) :=
  tally (flat_map (fun memory => default [] (mem_people memory)) memory_list).

Definition frequent_people (memory_list : list memory) : list (string * Z) :=
  top_three (people_counts memory_list).

Definition people_text (memory_list : list memory) : string :=
  match frequent_people memory_list with
  | _ :: _ => Str.join ", " (map fst (frequent_people memory_list))
  | [] => "various people"
  end.

(** The emotions named after the dominant one, when there is more than one
    emotion. *)
Definition other_emotions (memory_list : list memory) : option (list string) :=
  if (1 <? length (emotion_counts memory_list))%nat
  then Some (firstn 3 (List.filter
                         (fun e => negb (String.eqb e (dominant_emotion memory_list)))
                         (map fst (emotion_counts memory_list))))
  else None.

(** The closing phrase chosen from the dominant emotion. *)
Definition closing_phrase (dominant : string) : string :=
  if existsb (String.eqb dominant) ["Happy"; "Excited"; "Grateful"; "Peaceful"]
  then "joy and positivity"
  else if existsb (String.eqb dominant) ["Nostalgic"; "Hopeful"]
  then "reflection and introspection"
  else if existsb (String.eqb dominant) ["Sad"; "Angry"; "Anxious"]
  then "challenges and growth"
  else "various experiences".

(** The number of times [key] occurs in [keys]. *)
Fixpoint occurrences_of (key : string) (keys : list string) : Z :=
  match keys with
  | [] => 0
  | k :: rest => (if String.eqb k key then 1 else 0) + occurrences_of key rest
  end.

(** The count a dict of counts holds for [key], 0 when it has none. *)
Definition counted (counts : list (string * Z)) (key : string) : Z :=
  match List.find (fun item => String.eqb (fst item) key) counts with
  | Some item => snd item
  | None => 0
  end.

(** ** Nodes and connections of the mind map ([generate_mind_map])

    The node loop and the three deterministic connection loops: shared
    topics, shared people and shared locations.  The node loop reads the text
    and the date of every memory and raises on a memory that lacks either, or
    whose id is [None], which the graph library refuses as a node; nothing
    catches it, so no connection is computed then.  Each connection loop
    groups the memory ids under a key in a [defaultdict(list)], held here as
    the list of its items in insertion order, and connects every two ids of a
    group, the earlier one first.  The emotion loop and the final limit draw
    with [random.sample], and the layout and the figure belong to the graph
    and plotting libraries; they are left out. *)

(** The attributes of one node. *)
Record node := Node {
  node_id : Z;
  node_label : string;
  node_date : string;
  node_emotion : string
}.

(** [text[:50] + '...' if len(text) > 50 else text] *)
Definition node_label_of (text : string) : string :=
  if (50 <? String.length text)%nat
  then String.substring 0 50 text +:+ "..."
  else text.

(** [G.add_node(memory_id, label=..., date=..., emotion=..., type='memory')]:
    [len(None)] and [None[:10]] raise, and so does [add_node(None)]. *)
Definition add_node (memory : memory) : result node :=
  match mem_text memory, mem_date memory, mem_id memory with
  | Some text, Some date, Some memory_id =>
      Ok {| node_id := memory_id;
            node_label := node_label_of text;
            node_date := String.substring 0 10 date;
            node_emotion := default "Unknown" (mem_emotion memory) |}
  | _, _, _ => Raise
  end.

(** The node loop. *)
Definition add_nodes (memories : list memory) : result (list node) :=
  map_raising add_node memories.

Fixpoint group_append (key : string) (memory_id : option Z)
  (groups : list (string * list (option Z))) : list (string * list (option Z)) :=
  match groups with
  | [] => [(key, [memory_id])]
  | (k, mem_ids) :: rest =>
      if String.eqb k key then (k, mem_ids ++ [memory_id]) :: rest
      else (k, mem_ids) :: group_append key memory_id rest
  end.

(** [for memory in memories: for key in keys_of(memory):
    groups[key].append(memory.get('id'))] *)
Definition group_by (keys_of : memory -> list string) (memories : list memory)
  : list (string * list (option Z)) :=
  fold_left
    (fun groups memory =>
       fold_left (fun groups key => group_append key (mem_id memory) groups)
                 (keys_of memory) groups)
    memories [].

(** [for i in range(len(mem_ids)): for j in range(i+1, len(mem_ids))] *)
Fixpoint all_pairs {A : Type} (l : list A) : list (A * A) :=
  match l with
  | [] => []
  | x :: l' => map (pair x) l' ++ all_pairs l'
  end.

(** One connection: source, target, type and label. *)
Record connection := Connection {
  conn_source : option Z;
  conn_target : option Z;
  conn_type : string;
  conn_label : string
}.

Definition connections_of (type : string) (groups : list (string * list (option Z)))
  : list connection :=
  flat_map
    (fun group =>
       if (1 <? length (snd group))%nat
       then map (fun ab => Connection (fst ab) (snd ab) type (fst group))
                (all_pairs (snd group))
       else [])
    groups.

(** The connections of one loop, reached only when the node loop went
    through. *)
Definition connections_after_nodes (type : string) (keys_of : memory -> list string)
  (memories : list memory) : result (list connection) :=
  _ ← add_nodes memories;
  Ok (connections_of type (group_by keys_of memories)).

Definition topic_connections (memories : list memory) : result (list connection) :=
  connections_after_nodes "topic" (fun memory => default [] (mem_topics memory)) memories.

Definition person_connections (memories : list memory) : result (list connection) :=
  connections_after_nodes "person" (fun memory => default [] (mem_people memory)) memories.

(** [if location and location != 'Unknown'] *)
Definition location_keys (memory : memory) : list string :=
  match mem_location memory with
  | Some location =>
      if negb (String.eqb location EmptyString) && negb (String.eqb location "Unknown")
      then [location] else []
  | None => []
  end.

Definition location_connections (memories : list memory) : result (list connection) :=
  connections_after_nodes "location" location_keys memories.

(** Every memory has a text, a date and an id. *)
Definition drawable (memories : list memory) : bool :=
  forallb (fun memory =>
             match mem_text memory, mem_date memory, mem_id memory with
             | Some _, Some _, Some _ => true
             | _, _, _ => false
             end)
          memories.

(** The ids entered under [key], one per listing of the key, in the order
    of the memories. *)
Definition listings (keys_of : memory -> list string) (key : string)
  (memories : list memory) : list (option Z) :=
  flat_map (fun memory =>
              map (fun _ => mem_id memory)
                  (List.filter (fun k => String.eqb k key) (keys_of memory)))
           memories.

(** The ids a dict of groups holds under [key], none when it has no such
    key. *)
Definition grouped (groups : list (string * list (option Z))) (key : string)
  : list (option Z) :=
  match List.find (fun group => String.eqb (fst group) key) groups with
  | Some group => snd group
  | None => []
  end.

(** ** Summaries ([summarize_memories]) *)

Definition nl : string := String "010"%char EmptyString.

(** [str(n)] of a length. *)
Definition decimal (n : nat) : string := NilZero.string_of_uint (Nat.to_uint n).

(** A field formatted inside an f-string: a missing one prints as None. *)
Definition formatted (value : option string) : string := default "None" value.

(** The text sent for one memory; slicing a missing date raises. *)
Definition memory_str (memory : memory) : result string :=
  day ← day_of memory;
  Ok ("Date: " +:+ day +:+ nl
      +:+ "Content: " +:+ formatted (mem_text memory) +:+ nl
      +:+ "Emotion: " +:+ formatted (mem_emotion memory) +:+ nl
      +:+ match mem_people memory with
          | Some ((_ :: _) as people) => "People: " +:+ Str.join ", " people +:+ nl
          | _ => EmptyString
          end
      +:+ match mem_location memory with
          | Some location =>
              if negb (String.eqb location EmptyString)
                 && negb (String.eqb location "Unknown")
              then "Location: " +:+ location +:+ nl
              else EmptyString
          | None => EmptyString
          end).

Definition memories_combined (texts : list string) : string :=
  Str.join (nl +:+ "---" +:+ nl) texts.

(** The nested [basic_summary_generator]. *)
Definition basic_summary_generator (memory_list : list memory) (period : string)
  : string :=
  match memory_list with
  | [] => "No memories found for this time period."
  | _ :: _ =>
      nl +:+ "### Your " +:+ period +:+ " in Review" +:+ nl
      +:+ nl
      +:+ "During this period, you recorded **"
      +:+ decimal (length memory_list) +:+ " memories**. " +:+ nl
      +:+ nl
      +:+ "**Emotional Trends:** " +:+ nl
      +:+ "You primarily felt **" +:+ dominant_emotion memory_list
      +:+ "** during this time. "
      +:+ match other_emotions memory_list with
          | Some others =>
              "Other emotions you experienced include "
              +:+ Str.join ", " others +:+ "."
          | None => EmptyString
          end +:+ nl
      +:+ nl
      +:+ "**Places & People:** " +:+ nl
      +:+ "Your memories took place in " +:+ location_text memory_list +:+ ". "
      +:+ (if String.eqb (people_text memory_list) "various people"
           then EmptyString
           else "You shared these moments with "
                +:+ people_text memory_list +:+ ".") +:+ nl
      +:+ nl
      +:+ "**Reflection:**" +:+ nl
      +:+ "This " +:+ Str.lower period +:+ " appears to have been a time of "
      +:+ closing_phrase (dominant_emotion memory_list)
      +:+ ". Remember that each memory, whether positive or challenging, contributes to your personal journey."
      +:+ nl +:+ "        "
  end.

(** [summarize_memories]: [chat period content] is the text the completion
    service returns for the memories of [period], [None] when the call
    raises. *)
Definition summarize_memories (chat : string -> string -> option string)
    (memories : list memory) (time_period : string) : string :=
  match
    memories_text ← map_raising memory_str memories;
    call (chat time_period (memories_combined memories_text))
  with
  | Ok content => content
  | Raise => basic_summary_generator memories time_period
  end.


(** ** The browsing filters of the Recall tab, as a predicate *)

(** A condition that was evaluated and came out true. *)
Definition holds (r : result bool) : bool :=
  match r with
  | Ok true => true
  | _ => false
  end.

(** The memory is unlocked, has the selected emotion, lists the selected
    person and is dated within the selected range. *)
Definition matches_filters (emotion_filter person_filter : option string)
  (date_range : option (string * string)) (current_date : string) (m : memory)
  : Prop :=
  locked current_date m = false
  /\ (forall wanted, emotion_filter = Some wanted -> mem_emotion m = Some wanted)
  /\ (forall wanted, person_filter = Some wanted ->
        In wanted (default [] (mem_people m)))
  /\ (forall start_date end_date, date_range = Some (start_date, end_date) ->
        exists date, mem_date m = Some date
          /\ String.leb start_date (String.substring 0 10 date) = true
          /\ String.leb (String.substring 0 10 date) end_date = true).

(** ** The Summaries tab of [app.py], with "Generate Summary" pressed *)

(** What the tab shows: the summary, or one of its three notices. *)
Inductive summaries_view : Type :=
| ShowSummary (summary : string)
| NoMemoriesInPeriod
| NoAvailableMemories
| NoMemoriesStored.

(** [start_date] is the first day of the chosen period, which the tab
    computes from today's date.  [summarize_memories] is called only under
    the guard [if filtered_memories:]. *)
Definition summaries_tab (chat : string -> string -> option string)
    (summary_period start_date current_date : string) (memories : list memory)
  : result summaries_view :=
  match memories with
  | [] => Ok NoMemoriesStored
  | _ :: _ =>
      match available_memories current_date memories with
      | [] => Ok NoAvailableMemories
      | _ :: _ =>
          filtered_memories ← summary_input current_date start_date memories;
          match filtered_memories with
          | [] => Ok NoMemoriesInPeriod
          | _ :: _ =>
              Ok (ShowSummary
                    (summarize_memories chat filtered_memories summary_period))
          end
      end
  end.

(** ** [recall_memories] on records as they are stored

    [process_memory] stores [result.get('emotion', 'Neutral')] and
    [result.get('location', 'Unknown')] as the reply gives them, and
    [import_memories_json] stores a document as it is read, so a key can hold
    a value the data model does not foresee.  The records below add the cases
    the pipeline tells apart: [text], [emotion] and [location] absent, [None]
    or a string; [embedding] absent, [None] or a list whose components are
    floats or [None].  The other keys are as in [memory].  On such records a
    field access can raise, and the functions of the pipeline return a
    [result]. *)

(** What a key holds. *)
Inductive held (A : Type) : Type :=
| Absent
| Null
| Holds (a : A).
Arguments Absent {A}.
Arguments Null {A}.
Arguments Holds {A} a.

Record stored_memory := StoredMemory {
  st_id : option Z;
  st_text : held string;
  st_date : option string;
  st_emotion : held string;
  st_people : option (list string);
  st_location : held string;
  st_topics : option (list string);
  st_context : option string;
  st_embedding : held (list (option float));
  st_unlock_date : option string;
  st_is_time_capsule : option bool;
  st_relevance_score : option number
}.

Definition held_of {A : Type} (field : option A) : held A :=
  match field with
  | Some a => Holds a
  | None => Absent
  end.

(** A record of the declared types, as a stored record. *)
Definition as_stored (m : memory) : stored_memory :=
  {| st_id := mem_id m; st_text := held_of (mem_text m); st_date := mem_date m;
     st_emotion := held_of (mem_emotion m); st_people := mem_people m;
     st_location := held_of (mem_location m); st_topics := mem_topics m;
     st_context := mem_context m;
     st_embedding := held_of (option_map (map Some) (mem_embedding m));
     st_unlock_date := mem_unlock_date m;
     st_is_time_capsule := mem_is_time_capsule m;
     st_relevance_score := mem_relevance_score m |}.

Module Stored.

(** [memory['relevance_score'] = s] *)
Definition set_relevance_score (s : number) (m : stored_memory) : stored_memory :=
  {| st_id := st_id m; st_text := st_text m; st_date := st_date m;
     st_emotion := st_emotion m; st_people := st_people m;
     st_location := st_location m; st_topics := st_topics m;
     st_context := st_context m; st_embedding := st_embedding m;
     st_unlock_date := st_unlock_date m;
     st_is_time_capsule := st_is_time_capsule m;
     st_relevance_score := Some s |}.

(** [m.get(key, '').lower()]: [None] has no [lower]. *)
Definition get_lower (field : held string) : result string :=
  match field with
  | Absent => Ok EmptyString
  | Null => Raise
  | Holds s => Ok (Str.lower s)
  end.

(** [m.get(key)] *)
Definition get {A : Type} (field : held A) : option A :=
  match field with
  | Holds a => Some a
  | _ => None
  end.

(** [x.get('relevance_score', 0)] *)
Definition relevance_key (m : stored_memory) : number :=
  default (Int 0) (st_relevance_score m).

Definition keyword_score (query_words : list string) (memory : stored_memory) : result Z :=
  memory_text ← get_lower (st_text memory);
  memory_emotion ← get_lower (st_emotion memory);
  memory_location ← get_lower (st_location memory);
  let memory_people :=
    Str.join " " (map Str.lower (default [] (st_people memory))) in
  let score := sum_if 1 (fun word => Str.contains word memory_text) query_words in
  let score := score + sum_if 3 (fun word => Str.contains word memory_emotion) query_words in
  let score := score + sum_if 2 (fun word => Str.contains word memory_location) query_words in
  let score := score + sum_if 2 (fun word => Str.contains word memory_people) query_words in
  Ok score.

Definition keyword_search (query_text : string) (memory_list : list stored_memory)
  : result (list stored_memory) :=
  let query_words := Str.split_ws (Str.lower query_text) in
  scored_memories ←
    map_raising
      (fun memory =>
         score ← keyword_score query_words memory;
         Ok (set_relevance_score (Int score) memory))
      memory_list;
  Ok (sorted_desc relevance_key scored_memories).

(** The three filters applied when the parameters could be extracted. *)
Definition filter_by_params (sp : search_params) (memories : list stored_memory)
  : result (list stored_memory) :=
  let filtered_memories := memories in
  filtered_memories ←
    match sp_emotions sp with
    | Some ((_ :: _) as wanted) =>
        filter_raising
          (fun m =>
             memory_emotion ← get_lower (st_emotion m);
             Ok (existsb (fun emotion => Str.contains (Str.lower emotion) memory_emotion)
                         wanted))
          filtered_memories
    | _ => Ok filtered_memories
    end;
  let filtered_memories :=
    match sp_people sp with
    | Some ((_ :: _) as wanted) =>
        List.filter
          (fun m => existsb
                      (fun person =>
                         existsb (String.eqb (Str.lower person))
                                 (map Str.lower (default [] (st_people m))))
                      wanted)
          filtered_memories
    | _ => filtered_memories
    end in
  filtered_memories ←
    match sp_locations sp with
    | Some ((_ :: _) as wanted) =>
        filter_raising
          (fun m =>
             memory_location ← get_lower (st_location m);
             Ok (existsb (fun location => Str.contains (Str.lower location) memory_location)
                         wanted))
          filtered_memories
    | _ => Ok filtered_memories
    end;
  Ok filtered_memories.

(** The handler of the extraction stage; its own filter is not guarded. *)
Definition basic_filter (query : string) (memories : list stored_memory)
  : result (list stored_memory) :=
  let query_lower := Str.lower query in
  match List.find (fun emotion => Str.contains emotion query_lower) common_emotions with
  | Some emotion =>
      filter_raising
        (fun m =>
           memory_emotion ← get_lower (st_emotion m);
           Ok (Str.contains emotion memory_emotion))
        memories
  | None => Ok memories
  end.

(** [a*b] for a float [a]: [None] cannot be multiplied. *)
Definition times (a : float) (b : option float) : result float :=
  match b with
  | Some b => Ok (Double.mul a b)
  | None => Raise
  end.

(** [sum(a*b for a, b in zip(q[:min_len], e[:min_len]))] *)
Definition similarity (query_embedding : list float) (embedding : list (option float))
  : result number :=
  let min_len := Nat.min (length query_embedding) (length embedding) in
  products ←
    map_raising (fun ab => times (fst ab) (snd ab))
                (combine (firstn min_len query_embedding)
                         (firstn min_len embedding));
  Ok (sum_floats products).

Definition score_by_embedding (query_embedding : list float) (m : stored_memory)
  : result stored_memory :=
  match st_embedding m with
  | Holds ((_ :: _) as embedding) =>
      similarity ← similarity query_embedding embedding;
      Ok (set_relevance_score similarity m)
  | _ => Ok (set_relevance_score (Int 0) m)
  end.

(** [if query_embedding and filtered_memories: ... sort], outside the two
    guarded stages. *)
Definition rank_by_embedding (query_embedding : list float)
  (filtered_memories : list stored_memory) : result (list stored_memory) :=
  match query_embedding, filtered_memories with
  | _ :: _, _ :: _ =>
      scored ← map_raising (score_by_embedding query_embedding) filtered_memories;
      Ok (sorted_desc relevance_key scored)
  | _, _ => Ok filtered_memories
  end.

Definition candidate_of (m : stored_memory) : candidate :=
  {| cand_id := st_id m; cand_text := get (st_text m); cand_date := st_date m;
     cand_emotion := get (st_emotion m); cand_people := default [] (st_people m);
     cand_location := get (st_location m) |}.

Definition ranking_payload (filtered_memories : list stored_memory) : list candidate :=
  map candidate_of (firstn 20 filtered_memories).

Definition memory_map (filtered_memories : list stored_memory) : gmap (option Z) stored_memory :=
  foldl (fun acc m => <[st_id m := m]> acc) ∅ filtered_memories.

Definition rerank (ranked_ids : list (option Z)) (filtered_memories : list stored_memory)
  : list stored_memory :=
  let ranked_memories := omap (fun mem_id => memory_map filtered_memories !! mem_id) ranked_ids in
  let remaining_memories :=
    List.filter (fun m => negb (bool_decide (st_id m ∈ ranked_ids))) filtered_memories in
  ranked_memories ++ remaining_memories.

(** Stages 3 and 4: the guarded extraction and filtering; the handler runs
    when the call or one of the three filters raised. *)
Definition filter_stage (c : client) (query : string) (memories : list stored_memory)
  : result (list stored_memory) :=
  try_except
    (search_params ← call (chat_search_params c query);
     filter_by_params search_params memories)
    (basic_filter query memories).

(** Stage 6: the guarded ranking call. *)
Definition ranking_stage (c : client) (query : string) (filtered_memories : list stored_memory)
  : result (option (list stored_memory)) :=
  try_except
    (match filtered_memories with
     | _ :: _ =>
         ranked_ids ← call (chat_final_ranking c query (ranking_payload filtered_memories));
         Ok (Some (rerank ranked_ids filtered_memories))
     | [] => Ok None
     end)
    (Ok None).

Definition recall_memories (c : client) (query : string) (memories : list stored_memory)
  : result (list stored_memory) :=
  match memories with
  | [] => Ok []
  | _ :: _ =>
      try_except
        (let query_embedding := generate_memory_embedding c query in
         filtered_memories ← filter_stage c query memories;
         filtered_memories ← rank_by_embedding query_embedding filtered_memories;
         returned ← ranking_stage c query filtered_memories;
         match returned with
         | Some ranked => Ok ranked
         | None =>
             match filtered_memories with
             | _ :: _ => Ok filtered_memories
             | [] => keyword_search query memories
             end
         end)
        (keyword_search query memories)
  end.

End Stored.


(** [rainy_day] as the extractor stores it after a reply with a null
    emotion. *)
Definition null_emotion : stored_memory :=
  {| st_id := Some 2; st_text := Holds "Missed the bus in the rain";
     st_date := Some "2024-06-02T18:30:00"; st_emotion := Null;
     st_people := Some []; st_location := Holds "Unknown";
     st_topics := Some []; st_context := Some EmptyString;
     st_embedding := Holds [Some (Double.of_Q 1); Some (Double.of_Q 1)];
     st_unlock_date := None;
     st_is_time_capsule := None; st_relevance_score := None |}.

(** [sunny_day] as imported from a document whose embedding lacks its second
    component. *)
Definition holed_embedding : stored_memory :=
  {| st_id := Some 1; st_text := Holds "Great day by the sea";
     st_date := Some "2024-06-01T10:00:00"; st_emotion := Holds "Happy";
     st_people := Some ["Maria"]; st_location := Holds "Beach";
     st_topics := Some []; st_context := Some EmptyString;
     st_embedding := Holds [Some (Double.of_Q (1#2)); None];
     st_unlock_date := None;
     st_is_time_capsule := None; st_relevance_score := None |}.

Definition birthday : memory :=
  {| mem_id := Some 3; mem_text := Some "Cake for my birthday";
     mem_date := Some "2024-06-03T09:00:00"; mem_emotion := Some "Happy";
     mem_people := Some []; mem_location := Some "Home";
     mem_topics := Some []; mem_context := Some EmptyString;
     mem_embedding := Some [Double.of_Q (3#4); Double.of_Q (1#2)];
     mem_unlock_date := None;
     mem_is_time_capsule := None; mem_relevance_score := None |}.

(** Every service answers; the final ranking names the candidates whose text
    mentions the query. *)
Definition picks_mentions : client :=
  {| embeddings_create := fun _ => Some [Double.of_Q 1; Double.of_Q 2];
     chat_search_params := fun _ => Some (SearchParams None None None);
     chat_final_ranking :=
       fun query candidates =>
         Some (map cand_id
                   (List.filter
                      (fun candidate =>
                         Str.contains (Str.lower query)
                           (Str.lower (default EmptyString (cand_text candidate))))
                      candidates));
     md5_int := fun word => Z.of_nat (String.length word) |}.



(** * Properties *)

(** ** String primitives on concrete inputs *)

Example lower_mixed : Str.lower "Happy At The BEACH" = "happy at the beach".
Proof. reflexivity. Qed.

Example split_ws_runs :
  Str.split_ws "  so   happy
 today " = ["so"; "happy"; "today"].
Proof. reflexivity. Qed.

Example split_at :
  Str.split " at " "I was at the park at noon" = ["I was"; "the park"; "noon"].
Proof. reflexivity. Qed.

Example split_trailing : Str.split " at " "a at " = ["a"; EmptyString].
Proof. reflexivity. Qed.

Example split_absent : Str.split "," "no comma" = ["no comma"].
Proof. reflexivity. Qed.

(** ** The order of numbers *)

Example double_literals :
  Double.of_Q (1 # 10) = S754_finite false 7205759403792794 (-56)
  /\ Double.add (Double.of_Q (1 # 10)) (Double.of_Q (2 # 10))
     = S754_finite false 5404319552844596 (-54)
  /\ Double.of_Q (3 # 10) = S754_finite false 5404319552844595 (-54)
  /\ Double.mul (Double.of_Q (1 # 10)) (Double.of_Q (1 # 10))
     = S754_finite false 5764607523034236 (-59)
  /\ Double.of_int 100 = Double.of_Q 100
  /\ number_lt (Float (Double.of_Q (3 # 10)))
               (Float (Double.add (Double.of_Q (1 # 10)) (Double.of_Q (2 # 10))))
     = true
  /\ number_lt (Int 0) (Float (Double.of_Q (1 # 10))) = true
  /\ tied (Int 0) (Float (S754_zero true)) = true
  /\ number_lt (Float S754_nan) (Int 0) = false
  /\ number_lt (Int 0) (Float S754_nan) = false.
Proof. repeat split. Qed.

Lemma extended_lt_asym (a b : extended) :
  extended_lt a b = true -> extended_lt b a = false.
Proof.
  destruct a as [|p|], b as [|q|]; cbn; try reflexivity; try discriminate.
  intros H. apply negb_true_iff in H. apply negb_false_iff, Qle_bool_iff.
  apply Qlt_le_weak, Qnot_le_lt. intros Hle. apply Qle_bool_iff in Hle. congruence.
Qed.

Lemma extended_lt_negtrans (a b c : extended) :
  extended_lt a b = false -> extended_lt b c = false -> extended_lt a c = false.
Proof.
  destruct a as [|p|], b as [|q|], c as [|r|]; cbn;
    try reflexivity; try discriminate.
  intros Hab Hbc. apply negb_false_iff in Hab, Hbc. apply negb_false_iff.
  apply Qle_bool_iff in Hab, Hbc. apply Qle_bool_iff.
  now apply Qle_trans with q.
Qed.

Lemma extended_lt_irrefl (a : extended) : extended_lt a a = false.
Proof.
  destruct a as [|p|]; cbn; try reflexivity.
  apply negb_false_iff, Qle_bool_iff, Qle_refl.
Qed.

Lemma number_lt_asym (a b : number) :
  number_lt a b = true -> number_lt b a = false.
Proof.
  unfold number_lt. destruct (number_value a), (number_value b);
    try reflexivity; try discriminate.
  apply extended_lt_asym.
Qed.

Lemma number_lt_irrefl (a : number) : number_lt a a = false.
Proof.
  unfold number_lt. destruct (number_value a); [|reflexivity].
  apply extended_lt_irrefl.
Qed.

(** Among numbers none of which is NaN, [<] is a strict weak order; the
    middle number is the one that matters. *)
Lemma number_lt_negtrans (a b c : number) :
  is_nan b = false ->
  number_lt a b = false -> number_lt b c = false -> number_lt a c = false.
Proof.
  unfold number_lt, is_nan. destruct (number_value b); [|discriminate]. intros _.
  destruct (number_value a), (number_value c); try reflexivity.
  apply extended_lt_negtrans.
Qed.

Lemma int_not_nan (z : Z) : is_nan (Int z) = false.
Proof. reflexivity. Qed.

Lemma number_lt_int (a b : Z) : number_lt (Int a) (Int b) = (a <? b).
Proof.
  unfold number_lt. cbn [number_value extended_lt].
  destruct (Z.ltb_spec a b) as [Hlt|Hge].
  - apply negb_true_iff. destruct (Qle_bool (inject_Z b) (inject_Z a)) eqn:H;
      [|reflexivity].
    apply Qle_bool_iff in H. rewrite <- Zle_Qle in H. lia.
  - apply negb_false_iff, Qle_bool_iff. rewrite <- Zle_Qle. lia.
Qed.

Lemma tied_int (a b : Z) : tied (Int a) (Int b) = (a =? b).
Proof.
  unfold tied. rewrite !number_lt_int.
  destruct (Z.ltb_spec a b), (Z.ltb_spec b a), (Z.eqb_spec a b); simpl; lia.
Qed.

(** ** The stable descending sort *)

Section SortingFacts.
Context {A : Type} (key : A -> number).

Lemma insert_desc_perm (x : A) (l : list A) :
  Permutation (insert_desc key x l) (x :: l).
Proof.
  induction l as [|y l IH]; simpl; [reflexivity|].
  destruct (number_lt (key x) (key y)); [|reflexivity].
  rewrite IH. apply perm_swap.
Qed.

Lemma sorted_desc_perm (l : list A) : Permutation (sorted_desc key l) l.
Proof.
  induction l as [|x l IH]; simpl; [reflexivity|].
  rewrite insert_desc_perm. now constructor.
Qed.

Lemma comparable_perm (l l' : list A) :
  Permutation l l' -> comparable key l -> comparable key l'.
Proof. intros Hp. unfold comparable. now apply Permutation_Forall. Qed.

Lemma sorted_desc_comparable (l : list A) :
  comparable key l -> comparable key (sorted_desc key l).
Proof. apply comparable_perm. symmetry. apply sorted_desc_perm. Qed.

Lemma insert_desc_descending (x : A) (l : list A) :
  is_nan (key x) = false -> comparable key l ->
  descending key l -> descending key (insert_desc key x l).
Proof.
  unfold descending, comparable. intros Hx.
  induction l as [|y l IH]; intros Hc Hs; simpl.
  - constructor; constructor.
  - inversion Hs as [|? ? Hl Hall]; subst.
    inversion Hc as [|? ? Hy Hcl]; subst.
    destruct (number_lt (key x) (key y)) eqn:Hxy.
    + constructor; [now apply IH|].
      eapply Permutation_Forall; [symmetry; apply insert_desc_perm|].
      constructor; [|assumption].
      now apply number_lt_asym.
    + constructor; [assumption|].
      constructor; [assumption|].
      eapply List.Forall_impl; [|exact Hall].
      intros b Hb. simpl in Hb. now apply number_lt_negtrans with (key y).
Qed.

Lemma sorted_desc_descending (l : list A) :
  comparable key l -> descending key (sorted_desc key l).
Proof.
  induction l as [|x l IH]; intros Hc; simpl.
  - constructor.
  - inversion Hc as [|? ? Hx Hl]; subst.
    apply insert_desc_descending; [assumption| |now apply IH].
    now apply sorted_desc_comparable.
Qed.

Lemma with_key_insert (v : number) (x : A) (l : list A) :
  is_nan v = false ->
  with_key key v (insert_desc key x l) = with_key key v (x :: l).
Proof.
  intros Hv. unfold with_key.
  induction l as [|y l IH]; simpl; [reflexivity|].
  destruct (number_lt (key x) (key y)) eqn:Hxy; [|reflexivity].
  simpl. rewrite IH. simpl.
  destruct (tied (key y) v) eqn:Hy, (tied (key x) v) eqn:Hx; try reflexivity.
  unfold tied in Hy, Hx.
  apply andb_true_iff in Hy, Hx. destruct Hy as [_ Hvy], Hx as [Hxv _].
  apply negb_true_iff in Hvy, Hxv.
  rewrite (number_lt_negtrans _ _ _ Hv Hxv Hvy) in Hxy. discriminate.
Qed.

Lemma sorted_desc_stable (v : number) (l : list A) :
  is_nan v = false ->
  with_key key v (sorted_desc key l) = with_key key v l.
Proof.
  intros Hv. induction l as [|x l IH]; simpl; [reflexivity|].
  rewrite with_key_insert by assumption. unfold with_key in *. simpl. now rewrite IH.
Qed.

(** The sort leaves a list that is already in descending order as it is. *)
Lemma sorted_desc_fixes_descending (l : list A) :
  descending key l -> sorted_desc key l = l.
Proof.
  unfold descending. induction l as [|x l IH]; intros Hs; [reflexivity|].
  inversion Hs as [|? ? Hl Hall]; subst. cbn [sorted_desc foldr].
  change (foldr (insert_desc key) [] l) with (sorted_desc key l).
  rewrite (IH Hl). destruct l as [|y l]; [reflexivity|]. cbn [insert_desc].
  inversion Hall as [|? ? Hy _]; subst. now rewrite Hy.
Qed.

End SortingFacts.

(** Memories scored with ints can be compared. *)
Lemma int_scores_comparable (score : memory -> Z) (l : list memory) :
  comparable relevance_key (map (fun m => set_relevance_score (Int (score m)) m) l).
Proof.
  unfold comparable. apply List.Forall_forall. intros m Hin.
  apply in_map_iff in Hin. destruct Hin as [m0 [<- _]]. reflexivity.
Qed.

(** ** The keyword scorer *)

Lemma py_sum_from (l : list Z) (a : Z) : fold_left Z.add l a = a + total l.
Proof.
  revert a. induction l as [|x l IH]; intros a; simpl; [lia|].
  rewrite IH. lia.
Qed.

Lemma py_sum_total (l : list Z) : py_sum l = total l.
Proof. unfold py_sum. rewrite py_sum_from. lia. Qed.

Lemma sum_if_total (w : Z) (cond : string -> bool) (words : list string) :
  sum_if w cond words = total (map (fun word => if cond word then w else 0) words).
Proof.
  unfold sum_if. rewrite py_sum_total.
  induction words as [|x words IH]; simpl; [reflexivity|].
  destruct (cond x); simpl; lia.
Qed.

Lemma total_pointwise (f g : string -> Z) (l : list string) :
  total (map f l) + total (map g l) = total (map (fun x => f x + g x) l).
Proof. induction l as [|x l IH]; simpl; lia. Qed.

Lemma lower_append (a b : string) :
  Str.lower (a +:+ b) = Str.lower a +:+ Str.lower b.
Proof. induction a as [|c a IH]; simpl; [reflexivity|now rewrite IH]. Qed.

Lemma lower_join_space (parts : list string) :
  Str.lower (Str.join " " parts) = Str.join " " (map Str.lower parts).
Proof.
  unfold Str.join.
  induction parts as [|p parts IH]; [reflexivity|].
  destruct parts as [|p' parts]; [reflexivity|].
  change (String.concat " " (p :: p' :: parts))
    with (p +:+ " " +:+ String.concat " " (p' :: parts)).
  change (String.concat " " (map Str.lower (p :: p' :: parts)))
    with (Str.lower p +:+ " " +:+ String.concat " " (map Str.lower (p' :: parts))).
  rewrite !lower_append, IH. reflexivity.
Qed.

(** The four sums of the code add up to one sum over the tokens. *)
Lemma keyword_score_stated (query : string) (m : memory) :
  keyword_score (Str.split_ws (Str.lower query)) m = stated_score Str.lower query m.
Proof.
  unfold keyword_score, stated_score.
  rewrite !sum_if_total, !total_pointwise.
  f_equal. apply map_ext. intros tok. unfold token_points.
  now rewrite lower_join_space.
Qed.

Lemma keyword_search_unfold (query : string) (memories : list memory) :
  keyword_search query memories
  = sorted_desc relevance_key (map (annotate Str.lower query) memories).
Proof.
  unfold keyword_search, annotate. f_equal. apply map_ext. intros m.
  now rewrite keyword_score_stated.
Qed.

(** C4, as amended.  For every query and memory collection, [keyword_search]
    returns exactly the memories it was given, each carrying as
    [relevance_score] the sum, over the whitespace-split tokens of the
    lowercased query, of 1, 3, 2 and 2 points for the token occurring in the
    lowercased text, emotion, location and space-joined people list; the
    result is in descending order of that score, and memories with equal
    scores keep their original relative order. *)
Theorem keyword_search_lowercased_fields (query : string) (memories : list memory) :
  let scored := map (annotate Str.lower query) memories in
  Permutation (keyword_search query memories) scored
  /\ descending relevance_key (keyword_search query memories)
  /\ (forall s : Z,
        with_key relevance_key (Int s) (keyword_search query memories)
        = with_key relevance_key (Int s) scored)
  /\ Forall (fun m => exists s : Z, mem_relevance_score m = Some (Int s))
            (keyword_search query memories).
Proof.
  cbv zeta. rewrite keyword_search_unfold.
  split; [apply sorted_desc_perm|].
  split; [apply sorted_desc_descending, (int_scores_comparable _ memories)|].
  split; [intros v; now apply sorted_desc_stable|].
  eapply Permutation_Forall; [symmetry; apply sorted_desc_perm|].
  apply List.Forall_forall. intros m Hin.
  apply in_map_iff in Hin. destruct Hin as [m0 [<- _]].
  eexists. reflexivity.
Qed.

(** C4, as stated, fails: the token [happy] is not a substring of the emotion
    [Happy], so the stated rule gives the record 0 points, while the code,
    which lowercases the field first, gives it 3. *)
Lemma keyword_search_raw_fields_counterexample :
  map mem_relevance_score (keyword_search "happy" [sunny_day]) = [Some (Int 3)]
  /\ map mem_relevance_score (map (annotate (fun s => s) "happy") [sunny_day])
     = [Some (Int 0)]
  /\ ~ Permutation (keyword_search "happy" [sunny_day])
                   (map (annotate (fun s => s) "happy") [sunny_day]).
Proof.
  split; [reflexivity|]. split; [reflexivity|].
  intros H. apply Permutation_length_1 in H. vm_compute in H. discriminate H.
Qed.

(** ** The fallback emotion classifier *)

Lemma count_keywords_from (txt : string) (keywords : list string) (a : Z) :
  fold_left (fun score keyword =>
               if Str.contains keyword txt then score + 1 else score) keywords a
  = a + total (map (fun keyword => presence keyword txt) keywords).
Proof.
  revert a. induction keywords as [|k keywords IH]; intros a; simpl; [lia|].
  rewrite IH. unfold presence. destruct (Str.contains k txt); lia.
Qed.

Lemma count_keywords_presence (txt : string) (keywords : list string) :
  count_keywords txt keywords
  = total (map (fun keyword => presence keyword txt) keywords).
Proof. unfold count_keywords. rewrite count_keywords_from. lia. Qed.

Lemma presence_total_nonneg (txt : string) (keywords : list string) :
  0 <= total (map (fun keyword => presence keyword txt) keywords).
Proof.
  induction keywords as [|k keywords IH]; simpl; [lia|].
  unfold presence at 1. destruct (Str.contains k txt); lia.
Qed.

Lemma presence_total_zero (txt : string) (keywords : list string) :
  total (map (fun keyword => presence keyword txt) keywords) = 0
  <-> existsb (fun keyword => Str.contains keyword txt) keywords = false.
Proof.
  induction keywords as [|k keywords IH]; simpl; [tauto|].
  pose proof (presence_total_nonneg txt keywords) as Hnn.
  unfold presence at 1. destruct (Str.contains k txt); simpl.
  - split; [lia|discriminate].
  - rewrite <- IH. split; lia.
Qed.

Lemma max_init (l : list Z) (a b : Z) :
  fold_right Z.max (Z.max a b) l = Z.max b (fold_right Z.max a l).
Proof. induction l as [|y l IH]; simpl; [lia|]. rewrite IH. lia. Qed.

Lemma max_ge_init (l : list Z) (a : Z) : a <= fold_right Z.max a l.
Proof. induction l as [|y l IH]; simpl; lia. Qed.

(** [max] with a key returns the first element carrying the largest key. *)
Lemma max_by_first {A : Type} (key : A -> Z) (l : list A) (best : A) :
  List.find (fun x => key x =? fold_right Z.max (key best) (map key l)) (best :: l)
  = Some (max_by key best l).
Proof.
  revert best. induction l as [|x l IH]; intros best.
  - simpl. now rewrite Z.eqb_refl.
  - cbn [max_by].
    set (b' := if key best <? key x then x else best).
    assert (Hkey : key b' = Z.max (key best) (key x)).
    { subst b'. destruct (Z.ltb_spec (key best) (key x)); lia. }
    assert (HM : fold_right Z.max (key best) (map key (x :: l))
                 = fold_right Z.max (key b') (map key l)).
    { rewrite Hkey, max_init. reflexivity. }
    rewrite HM. rewrite <- (IH b').
    pose proof (max_ge_init (map key l) (key b')) as Hge.
    set (M := fold_right Z.max (key b') (map key l)) in *.
    subst b'. cbn [List.find].
    destruct (Z.ltb_spec (key best) (key x)) as [Hlt|Hle].
    + destruct (Z.eqb_spec (key best) M); [lia|reflexivity].
    + destruct (Z.eqb_spec (key best) M); [reflexivity|].
      destruct (Z.eqb_spec (key x) M); [lia|reflexivity].
Qed.

Lemma largest_nonneg_cons (first : string * Z) (others : list (string * Z)) :
  0 <= snd first ->
  largest (first :: others) = fold_right Z.max (snd first) (map snd others).
Proof.
  intros H. unfold largest. simpl.
  replace (snd first) with (Z.max 0 (snd first)) at 2 by lia.
  now rewrite max_init.
Qed.

Lemma largest_attained (scores : list (string * Z)) :
  largest scores = 0 \/ In (largest scores) (map snd scores).
Proof.
  unfold largest. induction scores as [|item scores IH]; simpl; [now left|].
  destruct (Z.max_spec (snd item) (fold_right Z.max 0 (map snd scores)))
    as [[_ ->]|[_ ->]]; [|now right; left].
  destruct IH as [IH|IH]; [now left|now right; right].
Qed.

Lemma largest_ge (scores : list (string * Z)) (item : string * Z) :
  In item scores -> snd item <= largest scores.
Proof.
  unfold largest. induction scores as [|y scores IH]; simpl; [tauto|].
  intros [->|Hin]; [lia|]. specialize (IH Hin). lia.
Qed.

Lemma emotion_scores_presence (txt : string) :
  map (fun '(emotion, keywords) => (emotion, count_keywords txt keywords)) emotions
  = category_scores presence txt.
Proof.
  unfold category_scores. apply map_ext. intros [emotion keywords]. simpl.
  now rewrite count_keywords_presence.
Qed.

Lemma category_scores_nonneg (txt : string) :
  Forall (fun item => 0 <= snd item) (category_scores presence txt).
Proof.
  unfold category_scores. apply List.Forall_forall. intros item Hin.
  apply in_map_iff in Hin. destruct Hin as [e [<- _]]. simpl.
  apply presence_total_nonneg.
Qed.

(** The code is the classifier of the specification with one point per
    keyword present in the lowercased text. *)
Lemma basic_emotion_analysis_classify (txt : string) :
  basic_emotion_analysis txt = classify presence (Str.lower txt).
Proof.
  unfold basic_emotion_analysis, classify.
  rewrite emotion_scores_presence.
  pose proof (category_scores_nonneg (Str.lower txt)) as Hnn.
  set (scores := category_scores presence (Str.lower txt)) in *.
  clearbody scores.
  assert (Hany : existsb (fun item => negb (snd item =? 0)) scores
                 = negb (forallb (fun item => snd item =? 0) scores)).
  { clear. induction scores as [|i l IH]; simpl; [reflexivity|].
    rewrite IH. now destruct (snd i =? 0). }
  rewrite Hany. destruct (forallb _ scores); simpl; [reflexivity|].
  destruct scores as [|first others]; [reflexivity|].
  inversion Hnn as [|? ? Hfirst _]; subst.
  rewrite largest_nonneg_cons by assumption.
  now rewrite (max_by_first snd others first).
Qed.

Lemma mentions_false_score (label txt : string) (e : string * list string) :
  mentions label txt = false -> In e emotions -> fst e = label ->
  total (map (fun keyword => presence keyword txt) (snd e)) = 0.
Proof.
  intros Hm Hin Hl. apply presence_total_zero.
  destruct (existsb _ (snd e)) eqn:Hex; [|reflexivity].
  assert (Ht : mentions label txt = true); [|congruence].
  unfold mentions. apply existsb_exists. exists e. split; [assumption|].
  rewrite Hex, andb_true_r. now apply String.eqb_eq.
Qed.

Lemma mentions_true_score (label txt : string) :
  mentions label txt = true ->
  exists e, In e emotions /\ fst e = label
            /\ 0 < total (map (fun keyword => presence keyword txt) (snd e)).
Proof.
  unfold mentions. intros Hm. apply existsb_exists in Hm.
  destruct Hm as [e [Hin He]]. apply andb_true_iff in He. destruct He as [Hl Hex].
  exists e. split; [assumption|]. split; [now apply String.eqb_eq|].
  pose proof (presence_total_nonneg txt (snd e)) as Hnn.
  destruct (Z.eq_dec (total (map (fun keyword => presence keyword txt) (snd e))) 0)
    as [Hz|Hz]; [|lia].
  apply presence_total_zero in Hz. congruence.
Qed.

Lemma classify_none (txt : string) :
  (forall label, mentions label txt = false) -> classify presence txt = "Neutral".
Proof.
  intros Hnone. unfold classify.
  assert (Hall : forallb (fun item => snd item =? 0) (category_scores presence txt) = true).
  { apply forallb_forall. intros item Hin. unfold category_scores in Hin.
    apply in_map_iff in Hin. destruct Hin as [e [<- Hin]]. simpl.
    apply Z.eqb_eq. now apply (mentions_false_score (fst e)). }
  now rewrite Hall.
Qed.

Lemma classify_single (label txt : string) :
  mentions label txt = true ->
  (forall other, other <> label -> mentions other txt = false) ->
  classify presence txt = label.
Proof.
  intros Hyes Hno. unfold classify.
  destruct (mentions_true_score label txt Hyes) as [e [Hin [Hl Hpos]]].
  set (scores := category_scores presence txt).
  assert (Hitem : In (fst e, total (map (fun keyword => presence keyword txt) (snd e))) scores).
  { unfold scores, category_scores. apply in_map_iff. now exists e. }
  pose proof (largest_ge scores _ Hitem) as Hge. simpl in Hge.
  assert (Hall : forallb (fun item => snd item =? 0) scores = false).
  { destruct (forallb _ scores) eqn:Hf; [|reflexivity].
    rewrite forallb_forall in Hf. specialize (Hf _ Hitem). simpl in Hf.
    apply Z.eqb_eq in Hf. lia. }
  rewrite Hall.
  destruct (List.find _ scores) as [item|] eqn:Hfind.
  - apply find_some in Hfind. destruct Hfind as [Hin' Heq].
    apply Z.eqb_eq in Heq.
    unfold scores, category_scores in Hin'. apply in_map_iff in Hin'.
    destruct Hin' as [e' [<- Hin']]. simpl in *.
    destruct (string_dec (fst e') label) as [Hsame|Hdiff]; [assumption|].
    pose proof (mentions_false_score (fst e') txt e' (Hno _ Hdiff) Hin' eq_refl).
    lia.
  - destruct (largest_attained scores) as [Hz|Hat]; [lia|].
    apply in_map_iff in Hat. destruct Hat as [item [Hs Hin']].
    pose proof (find_none _ _ Hfind _ Hin') as Hne. simpl in Hne.
    apply Z.eqb_neq in Hne. congruence.
Qed.

(** C7.  For every input text, [basic_emotion_analysis] scores each of the
    seven categories with the count of its keywords that occur in the text,
    which is read in lower case, and returns the first category in
    declaration order with the largest score, or Neutral when every score is
    zero.  Hence a text that contains keywords of exactly one category gets
    that category's label, and a text containing no keyword gets Neutral. *)
Theorem basic_emotion_analysis_counts_present_keywords (txt : string) :
  basic_emotion_analysis txt = classify presence (Str.lower txt)
  /\ (forall label : string,
        mentions label (Str.lower txt) = true ->
        (forall other, other <> label -> mentions other (Str.lower txt) = false) ->
        basic_emotion_analysis txt = label)
  /\ ((forall label : string, mentions label (Str.lower txt) = false) ->
      basic_emotion_analysis txt = "Neutral").
Proof.
  split; [apply basic_emotion_analysis_classify|]. split.
  - intros label Hyes Hno. rewrite basic_emotion_analysis_classify.
    now apply classify_single.
  - intros Hnone. rewrite basic_emotion_analysis_classify.
    now apply classify_none.
Qed.

(** The only category a text can mention when its keyword test is false for
    the six others. *)
Lemma only_happy_mentioned (txt : string) :
  (forall item, In item (tl emotions) ->
     existsb (fun keyword => Str.contains keyword txt) (snd item) = false) ->
  forall other, other <> "Happy" -> mentions other txt = false.
Proof.
  intros Hrest other Hne. unfold mentions.
  destruct (existsb _ emotions) eqn:Hex; [|reflexivity].
  apply existsb_exists in Hex. destruct Hex as [e [Hin He]].
  apply andb_true_iff in He. destruct He as [Hl Hk].
  apply String.eqb_eq in Hl.
  destruct Hin as [<-|Hin]; [simpl in Hl; congruence|].
  rewrite (Hrest e Hin) in Hk. discriminate.
Qed.

Lemma basic_emotion_analysis_beach_witness :
  basic_emotion_analysis "I was so happy at the beach with Maria" = "Happy".
Proof.
  apply (proj1 (proj2 (basic_emotion_analysis_counts_present_keywords
                         "I was so happy at the beach with Maria"))).
  - vm_compute. reflexivity.
  - apply only_happy_mentioned. intros item Hin.
    repeat (destruct Hin as [<-|Hin]; [vm_compute; reflexivity|]).
    destruct Hin.
Defined.

Example uppercase_text_is_matched :
  basic_emotion_analysis "SO HAPPY TODAY" = "Happy"
  /\ basic_emotion_analysis "Unhappy" = "Happy"
  /\ basic_emotion_analysis "nothing to report" = "Neutral".
Proof. repeat split. Qed.

(** The count is of the keywords that occur, not of the places where they
    occur: on this text Sad scores 1 and Happy 2, where counting every place
    would give Sad 3. *)
Example repeated_keyword_counts_once :
  basic_emotion_analysis "sad sad sad happy joy" = "Happy"
  /\ classify occurrences "sad sad sad happy joy" = "Sad"
  /\ basic_emotion_analysis "sad sad sad happy joy"
     <> classify occurrences "sad sad sad happy joy".
Proof.
  split; [reflexivity|]. split; [reflexivity|].
  vm_compute. discriminate.
Qed.

(** ** The fallback location extraction *)

Lemma append_cons (c : ascii) (s t : string) :
  String c s +:+ t = String c (s +:+ t).
Proof. reflexivity. Qed.

Lemma append_empty_r (s : string) : s +:+ EmptyString = s.
Proof.
  induction s as [|c s IH]; [reflexivity|]. now rewrite append_cons, IH.
Qed.

Lemma append_snoc (cur : string) (c : ascii) (s : string) :
  (cur +:+ String c EmptyString) +:+ s = cur +:+ String c s.
Proof.
  induction cur as [|d cur IH]; [reflexivity|]. now rewrite !append_cons, IH.
Qed.

(** Passing over the rest of a matched separator is dropping it. *)
Lemma split_go_skip (sep : string) (k : nat) (cur s : string) :
  Str.split_go sep k cur s = Str.split_go sep O cur (Str.drop k s).
Proof.
  revert s. induction k as [|k IH]; intros s; [reflexivity|].
  destruct s as [|c s]; [reflexivity|]. simpl. apply IH.
Qed.

(** [split] cuts at the leftmost occurrence and goes on in the text after. *)
Lemma split_go_cut (a : ascii) (sep' : string) (s cur : string) :
  let sep := String a sep' in
  Str.split_go sep O cur s
  = match Str.cut sep s with
    | Some (b, rest) => (cur +:+ b) :: Str.split_go sep O EmptyString rest
    | None => [cur +:+ s]
    end.
Proof.
  cbv zeta. revert cur. induction s as [|c s IH]; intros cur.
  - simpl. now rewrite append_empty_r.
  - cbn [Str.split_go Str.cut].
    destruct (Str.starts_with (String a sep') (String c s)) eqn:Hp.
    + rewrite append_empty_r. f_equal.
      rewrite split_go_skip. simpl. now rewrite Nat.sub_0_r.
    + rewrite IH. destruct (Str.cut (String a sep') s) as [[b rest]|].
      * now rewrite append_snoc.
      * now rewrite append_snoc.
Qed.

Lemma split_cut (a : ascii) (sep' : string) (s : string) :
  let sep := String a sep' in
  Str.split sep s
  = match Str.cut sep s with
    | Some (b, rest) => b :: Str.split sep rest
    | None => [s]
    end.
Proof. cbv zeta. unfold Str.split. now rewrite split_go_cut. Qed.

Lemma split_head (a : ascii) (sep' : string) (s : string) :
  hd EmptyString (Str.split (String a sep') s) = Str.before (String a sep') s.
Proof.
  rewrite split_cut. unfold Str.before.
  now destruct (Str.cut (String a sep') s) as [[b rest]|].
Qed.

Lemma split_length (a : ascii) (sep' : string) (s : string) :
  (1 <? length (Str.split (String a sep') s))%nat
  = match Str.cut (String a sep') s with Some _ => true | None => false end.
Proof.
  rewrite split_cut. destruct (Str.cut (String a sep') s) as [[b rest]|]; [|reflexivity].
  rewrite split_cut. now destruct (Str.cut (String a sep') rest) as [[b' rest']|].
Qed.

Lemma split_second (a : ascii) (sep' : string) (s b rest : string) :
  Str.cut (String a sep') s = Some (b, rest) ->
  nth 1 (Str.split (String a sep') s) EmptyString = Str.before (String a sep') rest.
Proof.
  intros Hc. rewrite split_cut, Hc. cbn [nth].
  rewrite <- split_head. now destruct (Str.split (String a sep') rest).
Qed.

Lemma contains_cut (sep s : string) :
  Str.contains sep s = match Str.cut sep s with Some _ => true | None => false end.
Proof.
  induction s as [|c s IH]; simpl.
  - destruct (Str.starts_with sep EmptyString); reflexivity.
  - destruct (Str.starts_with sep (String c s)); [reflexivity|]. simpl.
    rewrite IH. now destruct (Str.cut sep s) as [[b rest]|].
Qed.

Lemma starts_with_append (p s t : string) :
  Str.starts_with p s = true -> Str.starts_with p (s +:+ t) = true.
Proof.
  revert s. induction p as [|a p IH]; intros s H; [now destruct (s +:+ t)|].
  destruct s as [|b s]; [discriminate|]. rewrite append_cons. simpl in *.
  apply andb_true_iff in H. destruct H as [-> H]. simpl. now apply IH.
Qed.

Lemma contains_append_r (p s t : string) :
  Str.contains p s = true -> Str.contains p (s +:+ t) = true.
Proof.
  induction s as [|c s IH]; intros H.
  - simpl in H. rewrite orb_false_r in H. destruct p; [|discriminate].
    now destruct t.
  - rewrite append_cons. simpl in *. apply orb_true_iff in H. destruct H as [H|H].
    + pose proof (starts_with_append p (String c s) t H) as H'.
      rewrite append_cons in H'. now rewrite H'.
    + rewrite (IH H). apply orb_true_r.
Qed.

Lemma contains_padded (p text : string) :
  Str.contains p text = true -> Str.contains p (" " +:+ text +:+ " ") = true.
Proof.
  intros H. change (Str.contains p (String " " (text +:+ " ")) = true).
  simpl. rewrite (contains_append_r p text " " H). apply orb_true_r.
Qed.

Lemma before_char (c : ascii) (s : string) :
  Str.before (String c EmptyString) s = until (Ascii.eqb c) s.
Proof.
  unfold Str.before. induction s as [|d s IH]; [reflexivity|].
  cbn [Str.cut Str.starts_with until].
  destruct (Ascii.eqb c d) eqn:Hcd; cbn [andb].
  - now destruct s.
  - destruct (Str.cut (String c EmptyString) s) as [[b rest]|]; congruence.
Qed.

Lemma until_until (s : string) :
  until (Ascii.eqb ",") (until (Ascii.eqb ".") s) = until is_stop s.
Proof.
  induction s as [|d s IH]; [reflexivity|]. unfold is_stop in *. cbn [until].
  rewrite (Ascii.eqb_sym d "."), (Ascii.eqb_sym d ",").
  destruct (Ascii.eqb "." d) eqn:Hdot; cbn [until orb]; [reflexivity|].
  destruct (Ascii.eqb "," d) eqn:Hcomma; cbn [until orb]; [reflexivity|].
  now rewrite IH.
Qed.

Lemma possible_location_until (s : string) :
  hd EmptyString (Str.split "," (hd EmptyString (Str.split "." s)))
  = until is_stop s.
Proof. now rewrite !split_head, !before_char, until_until. Qed.

Lemma location_loop_first_accepted (text : string) (keywords : list string) :
  location_loop text keywords = first_accepted text keywords.
Proof.
  induction keywords as [|keyword rest IH]; [reflexivity|].
  cbn [location_loop first_accepted]. unfold candidate_location, after.
  change (" " +:+ keyword +:+ " ") with (pattern_of keyword).
  change (pattern_of keyword) with (String " " (keyword +:+ " ")) in *.
  rewrite split_length.
  destruct (Str.cut (String " " (keyword +:+ " ")) text) as [[b rest']|] eqn:Hcut.
  - assert (Hc : Str.contains (String " " (keyword +:+ " ")) text = true)
      by now rewrite contains_cut, Hcut.
    apply contains_padded in Hc. rewrite Hc.
    rewrite (split_second _ _ _ _ _ Hcut), possible_location_until.
    now rewrite IH.
  - rewrite IH. now destruct (Str.contains _ _).
Qed.

Lemma starts_with_drop (p s : string) :
  Str.starts_with p s = true -> s = p +:+ Str.drop (String.length p) s.
Proof.
  revert s. induction p as [|a p IH]; intros s H; [reflexivity|].
  destruct s as [|b s]; [discriminate|]. simpl in H.
  apply andb_true_iff in H. destruct H as [Hab H].
  apply Ascii.eqb_eq in Hab. subst b.
  rewrite append_cons. simpl. f_equal. now apply IH.
Qed.

(** [cut] does split the text around an occurrence of the separator. *)
Lemma cut_sound (sep s b rest : string) :
  Str.cut sep s = Some (b, rest) -> s = b +:+ sep +:+ rest.
Proof.
  revert b. induction s as [|c s IH]; intros b; cbn [Str.cut].
  - destruct (Str.starts_with sep EmptyString) eqn:Hp; [|discriminate].
    intros [= <- <-]. now apply starts_with_drop.
  - destruct (Str.starts_with sep (String c s)) eqn:Hp.
    + intros [= <- <-]. now apply starts_with_drop.
    + destruct (Str.cut sep s) as [[b' rest']|]; [|discriminate].
      intros [= <- <-]. rewrite append_cons. f_equal. now apply IH.
Qed.

(** C8, as amended.  For every input text, the fallback location extraction
    tries the patterns [ at ], [ in ], [ near ], [ by ] in that priority order;
    a pattern that occurs in the text yields as candidate the text following
    its first occurrence up to the next occurrence of the same pattern, the
    next full stop or the next comma; the first candidate shorter than 30
    characters is the location, and the location is Unknown when no pattern
    yields one. *)
Theorem fallback_location_first_short_candidate (text : string) :
  fallback_location text = first_accepted text location_keywords.
Proof. apply location_loop_first_accepted. Qed.

(** C8, as stated, fails: the first matching pattern is [ at ], the text after
    it up to the end has 51 characters, and the stated rule leaves Unknown;
    the code goes on to [ in ] and answers Spain. *)
Lemma fallback_location_fallthrough_counterexample :
  let text := "We stayed at the magnificent old seaside boarding house in Spain" in
  fallback_location text = "Spain"
  /\ stated_location text = "Unknown"
  /\ fallback_location text <> stated_location text.
Proof.
  cbv zeta. split; [reflexivity|]. split; [reflexivity|].
  vm_compute. discriminate.
Qed.

Example location_beach :
  fallback_location "I was so happy at the beach with Maria" = "the beach with Maria".
Proof. reflexivity. Qed.

Example location_stops_at_same_pattern :
  fallback_location "I was at the park at noon" = "the park"
  /\ stated_location "I was at the park at noon" = "the park at noon".
Proof. split; reflexivity. Qed.

Example location_leading_keyword_ignored :
  fallback_location "in Paris" = "Unknown".
Proof. reflexivity. Qed.

(** ** Embedding similarity and ranking *)

Lemma firstn_snoc {A : Type} (d : A) (n : nat) (l : list A) :
  (n < length l)%nat -> firstn (S n) l = firstn n l ++ [nth n l d].
Proof.
  revert n. induction l as [|x l IH]; intros n Hn; [simpl in Hn; lia|].
  destruct n as [|n]; [reflexivity|].
  cbn [firstn nth app]. cbn [length] in Hn. rewrite <- (IH n) by lia. reflexivity.
Qed.

Lemma combine_snoc {A B : Type} (u : list A) (v : list B) (x : A) (y : B) :
  length u = length v -> combine (u ++ [x]) (v ++ [y]) = combine u v ++ [(x, y)].
Proof.
  revert v. induction u as [|a u IH]; intros [|b v] Hlen; try discriminate;
    [reflexivity|].
  cbn [app combine]. rewrite IH by (simpl in Hlen; lia). reflexivity.
Qed.

Lemma combine_firstn_min {A B : Type} (u : list A) (v : list B) :
  combine (firstn (Nat.min (length u) (length v)) u)
          (firstn (Nat.min (length u) (length v)) v)
  = combine u v.
Proof.
  revert v. induction u as [|a u IH]; intros v; [reflexivity|].
  destruct v as [|b v]; [reflexivity|].
  cbn [length Nat.min firstn combine]. now rewrite IH.
Qed.

(** Adding the products from the left is the dot product by index. *)
Lemma fold_products_dot (n : nat) (u v : list float) :
  (n <= length u)%nat -> (n <= length v)%nat ->
  fold_left Double.add
            (map (fun ab => Double.mul (fst ab) (snd ab))
                 (combine (firstn n u) (firstn n v)))
            Double.zero
  = dot_upto n u v.
Proof.
  induction n as [|n IH]; intros Hu Hv; [reflexivity|].
  rewrite (firstn_snoc Double.zero n u), (firstn_snoc Double.zero n v) by lia.
  rewrite combine_snoc by (rewrite !length_firstn; lia).
  rewrite map_app, fold_left_app, IH by lia. reflexivity.
Qed.

(** The similarity of the code is the dot product in double precision over
    the common length. *)
Lemma similarity_dot (query_embedding embedding : list float) :
  query_embedding <> [] -> embedding <> [] ->
  similarity query_embedding embedding
  = Float (dot_upto (Nat.min (length query_embedding) (length embedding))
                    query_embedding embedding).
Proof.
  intros Hq He. unfold similarity.
  rewrite <- (fold_products_dot _ query_embedding embedding) by lia.
  destruct query_embedding as [|q0 qs]; [congruence|].
  destruct embedding as [|e0 es]; [congruence|]. reflexivity.
Qed.

Lemma score_by_embedding_stated (query_embedding : list float) (m : memory) :
  query_embedding <> [] ->
  score_by_embedding query_embedding m
  = set_relevance_score (stated_relevance query_embedding m) m.
Proof.
  intros Hq. unfold score_by_embedding, stated_relevance.
  destruct (mem_embedding m) as [[|e embedding]|]; try reflexivity.
  now rewrite similarity_dot.
Qed.

Lemma descending_by_score (l : list memory) :
  Forall (fun m => is_Some (mem_relevance_score m)) l ->
  descending relevance_key l -> StronglySorted score_not_below l.
Proof.
  unfold descending. intros Hall Hs.
  induction Hs as [|a l Hl IH Ha]; [constructor|].
  inversion Hall as [|? ? [sa Hsa] Hrest]; subst.
  constructor; [now apply IH|].
  rewrite List.Forall_forall in *. intros b Hb.
  destruct (Hrest b Hb) as [sb Hsb]. specialize (Ha b Hb).
  unfold score_not_below, relevance_key in *. now rewrite Hsa, Hsb in *.
Qed.

(** C6, as amended.  For every non-empty filtered set and non-empty query
    embedding, the ranking step stores with each memory, and changes nothing
    else of it, the relevance score that is the dot product of the query
    embedding and the memory's embedding over the length of the shorter
    vector, not divided by any magnitude and computed in double precision
    (every product and every partial sum rounded), or the int 0 for a memory
    without embedding; and when none of these scores is NaN the filtered set
    is then in descending order of the stored score, memories with tied scores
    in their prior order. *)
Theorem rank_by_embedding_dot_product
  (query_embedding : list float) (filtered_memories : list memory) :
  query_embedding <> [] -> filtered_memories <> [] ->
  let ranked := rank_by_embedding query_embedding filtered_memories in
  let scored :=
    map (fun m => set_relevance_score (stated_relevance query_embedding m) m)
        filtered_memories in
  Permutation ranked scored
  /\ Forall2 (fun m m' =>
                mem_relevance_score m' = Some (stated_relevance query_embedding m)
                /\ forget_score m' = forget_score m)
             filtered_memories scored
  /\ (Forall (fun m => is_nan (stated_relevance query_embedding m) = false)
             filtered_memories ->
      StronglySorted score_not_below ranked
      /\ forall v : number,
           is_nan v = false ->
           with_key relevance_key v ranked = with_key relevance_key v scored).
Proof.
  intros Hq Hf. cbv zeta. unfold rank_by_embedding.
  destruct query_embedding as [|q0 qs]; [congruence|].
  destruct filtered_memories as [|m0 ms]; [congruence|].
  set (q := q0 :: qs) in *. set (l := m0 :: ms) in *. clearbody l.
  assert (Hscored : map (score_by_embedding q) l
                    = map (fun m => set_relevance_score (stated_relevance q m) m) l)
    by (apply map_ext; intros m; now apply score_by_embedding_stated).
  rewrite Hscored.
  split; [apply sorted_desc_perm|]. split.
  - clear. induction l as [|m l IH]; cbn [map]; constructor; [|assumption].
    split; reflexivity.
  - intros Hnan.
    assert (Hc : comparable relevance_key
                   (map (fun m => set_relevance_score (stated_relevance q m) m) l)).
    { unfold comparable. apply List.Forall_forall. intros m Hin.
      apply in_map_iff in Hin. destruct Hin as [m1 [<- Hm1]].
      rewrite List.Forall_forall in Hnan. now apply Hnan. }
    split; [|intros v Hv; now apply sorted_desc_stable].
    apply descending_by_score; [|now apply sorted_desc_descending].
    eapply Permutation_Forall; [symmetry; apply sorted_desc_perm|].
    apply List.Forall_forall. intros m Hin.
    apply in_map_iff in Hin. destruct Hin as [m1 [<- _]]. cbn. eauto.
Qed.

Lemma rank_by_embedding_dot_product_witness :
  let query_embedding := [Double.of_Q 1; Double.of_Q 2] in
  let ranked := rank_by_embedding query_embedding [sunny_day; rainy_day] in
  let scored :=
    map (fun m => set_relevance_score (stated_relevance query_embedding m) m)
        [sunny_day; rainy_day] in
  Permutation ranked scored
  /\ Forall2 (fun m m' =>
                mem_relevance_score m' = Some (stated_relevance query_embedding m)
                /\ forget_score m' = forget_score m)
             [sunny_day; rainy_day] scored
  /\ StronglySorted score_not_below ranked
  /\ forall v : number,
       is_nan v = false ->
       with_key relevance_key v ranked = with_key relevance_key v scored.
Proof.
  cbv zeta.
  pose proof (rank_by_embedding_dot_product
                [Double.of_Q 1; Double.of_Q 2] [sunny_day; rainy_day]
                ltac:(discriminate) ltac:(discriminate)) as H.
  cbv zeta in H. destruct H as [Hperm [Hscores Hsorted]].
  split; [exact Hperm|]. split; [exact Hscores|].
  apply Hsorted. repeat constructor.
Defined.

Example ranked_by_similarity :
  map (fun m => (mem_id m, mem_relevance_score m))
      (rank_by_embedding [Double.of_Q 1; Double.of_Q 2; Double.of_Q 5]
                         [sunny_day; rainy_day; blank])
  = [(Some 2, Some (Float (Double.of_Q 3))); (Some 1, Some (Float (Double.of_Q 1)));
     (None, Some (Int 0))].
Proof. vm_compute. reflexivity. Qed.

(** C6, as stated, fails.  With an empty query embedding the step is
    skipped: a memory without embedding keeps the score 1 it carries from an
    earlier search instead of getting 0, and the set is left in its order,
    the score 1 before the score 5.  And the stored score is the rounded dot
    product: the dot product of the query with [cancelling] is larger than
    the one with [whisker], yet the score stored with [cancelling] is 0.0,
    the whisker being lost when it is added to 1.0, and [whisker] comes
    first. *)
Lemma rank_by_embedding_counterexample :
  let query_embedding := [Double.of_Q 1; Double.of_Q 1; Double.of_Q 1] in
  map (fun m => (mem_id m, mem_embedding m, mem_relevance_score m))
      (rank_by_embedding []
         [set_relevance_score (Int 1) blank; set_relevance_score (Int 5) rainy_day])
  = [(None, None, Some (Int 1));
     (Some 2, Some [Double.of_Q 1; Double.of_Q 1], Some (Int 5))]
  /\ map mem_relevance_score (rank_by_embedding [] [whisker; rainy_day]) = [None; None]
  /\ (exact_dot_upto 3 query_embedding (default [] (mem_embedding whisker))
      < exact_dot_upto 3 query_embedding (default [] (mem_embedding cancelling)))%Q
  /\ ~ (exact_dot_upto 3 query_embedding (default [] (mem_embedding cancelling)) == 0)%Q
  /\ map (fun m => (mem_id m, mem_relevance_score m))
         (rank_by_embedding query_embedding [cancelling; whisker])
     = [(Some 5, Some (Float (Double.of_Q (1 # 20000000000000000))));
        (Some 4, Some (Float Double.zero))].
Proof.
  cbv zeta. split; [vm_compute; reflexivity|]. split; [reflexivity|].
  split; [vm_compute; reflexivity|]. split; [vm_compute; discriminate|].
  vm_compute. reflexivity.
Qed.

(** Products of finite components can overflow to infinities of both signs,
    whose sum is not a number; such a score is neither smaller nor larger
    than any other. *)
Example similarity_not_a_number :
  similarity [Double.of_int (10 ^ 200); Double.of_int (10 ^ 200)]
             [Double.of_int (10 ^ 200); Double.of_int (- 10 ^ 200)]
  = Float S754_nan
  /\ number_lt (Float S754_nan) (Int 0) = false
  /\ number_lt (Int 0) (Float S754_nan) = false.
Proof. vm_compute. repeat split. Qed.

Lemma pseudo_embedding_length (c : client) (text : string) :
  length (pseudo_embedding c text) = 10%nat.
Proof.
  unfold pseudo_embedding.
  destruct (map (md5_int c) _) as [|h hs]; [reflexivity|].
  rewrite length_app, length_map, length_seq, repeat_length. reflexivity.
Qed.

(** The query embedding is empty only if the embedding service itself
    answers with an empty vector. *)
Lemma generate_memory_embedding_nonempty (c : client) (text : string) :
  embeddings_create c text <> Some [] -> generate_memory_embedding c text <> [].
Proof.
  unfold generate_memory_embedding. intros Hapi.
  destruct (embeddings_create c text) as [e|].
  - intros ->. now apply Hapi.
  - intros Hnil. pose proof (pseudo_embedding_length c text) as Hlen.
    rewrite Hnil in Hlen. discriminate.
Qed.

(** ** The recall pipeline *)

Lemma filter_stage_total (c : client) (query : string) (memories : list memory) :
  filter_stage c query memories
  = Ok (match chat_search_params c query with
        | Some sp => filter_by_params sp memories
        | None => basic_filter query memories
        end).
Proof. unfold filter_stage. now destruct (chat_search_params c query). Qed.

Lemma ranking_stage_total (c : client) (query : string) (filtered : list memory) :
  ranking_stage c query filtered
  = Ok (match filtered with
        | [] => None
        | _ :: _ =>
            match chat_final_ranking c query (ranking_payload filtered) with
            | Some ranked_ids => Some (rerank ranked_ids filtered)
            | None => None
            end
        end).
Proof.
  unfold ranking_stage. destruct filtered as [|m l]; [reflexivity|].
  now destruct (chat_final_ranking c query _).
Qed.

(** The whole pipeline in one equation: which of the three results is
    returned, and when.  On records of the declared types every raising call
    is met by the handler of its own stage, so the outermost handler is never
    entered. *)
Lemma recall_memories_cases (c : client) (query : string) (memories : list memory) :
  recall_memories c query memories
  = Ok (match filtered_set c query memories with
        | [] => keyword_search query memories
        | _ :: _ =>
            match chat_final_ranking c query
                    (ranking_payload (filtered_set c query memories)) with
            | Some ranked_ids => rerank ranked_ids (filtered_set c query memories)
            | None => filtered_set c query memories
            end
        end).
Proof.
  unfold recall_memories, filtered_set.
  destruct memories as [|m0 ms].
  - unfold basic_filter, filter_by_params, rank_by_embedding.
    destruct (chat_search_params c query) as [sp|].
    + destruct (sp_emotions sp) as [[|? ?]|], (sp_people sp) as [[|? ?]|],
        (sp_locations sp) as [[|? ?]|];
        now destruct (generate_memory_embedding c query).
    + destruct (List.find _ common_emotions);
        now destruct (generate_memory_embedding c query).
  - rewrite filter_stage_total. cbn [mbind result_bind].
    set (filtered := rank_by_embedding _ _).
    rewrite ranking_stage_total. cbn [mbind result_bind try_except].
    destruct filtered as [|f fs]; [reflexivity|].
    now destruct (chat_final_ranking c query _).
Qed.

Lemma last_with_id_cons (i : option Z) (m : memory) (l : list memory) :
  last_with_id i (m :: l)
  = match last_with_id i l with
    | Some x => Some x
    | None => if bool_decide (mem_id m = i) then Some m else None
    end.
Proof.
  unfold last_with_id. cbn [List.filter].
  destruct (bool_decide (mem_id m = i)); [|now destruct (last _)].
  rewrite last_cons. now destruct (last _).
Qed.

Lemma memory_map_from (l : list memory) (acc : gmap (option Z) memory) (i : option Z) :
  foldl (fun acc m => <[mem_id m := m]> acc) acc l !! i
  = match last_with_id i l with
    | Some x => Some x
    | None => acc !! i
    end.
Proof.
  revert acc. induction l as [|m l IH]; intros acc; [reflexivity|].
  cbn [foldl]. rewrite IH, last_with_id_cons.
  destruct (last_with_id i l); [reflexivity|].
  case_bool_decide as Hid.
  - subst i. apply lookup_insert_eq.
  - now apply lookup_insert_ne.
Qed.

(** The dict built from the filtered set maps an id to the last memory that
    carries it. *)
Lemma memory_map_lookup (l : list memory) (i : option Z) :
  memory_map l !! i = last_with_id i l.
Proof.
  unfold memory_map. rewrite memory_map_from, lookup_empty.
  now destruct (last_with_id i l).
Qed.

Lemma rerank_stated (ranked_ids : list (option Z)) (filtered : list memory) :
  rerank ranked_ids filtered
  = omap (fun i => last_with_id i filtered) ranked_ids
    ++ List.filter (fun m => negb (bool_decide (mem_id m ∈ ranked_ids))) filtered.
Proof.
  unfold rerank. f_equal.
  induction ranked_ids as [|i ids IH]; [reflexivity|].
  cbn [omap list_omap]. rewrite memory_map_lookup.
  destruct (last_with_id i filtered); now rewrite IH.
Qed.

(** With distinct ids, the memory an id is mapped to is the one carrying it. *)
Lemma last_with_id_unique (i : option Z) (l : list memory) (m : memory) :
  NoDup (map mem_id l) -> In m l -> mem_id m = i -> last_with_id i l = Some m.
Proof.
  intros Hnd Hin Hid. induction l as [|x l IH]; [destruct Hin|].
  rewrite last_with_id_cons. apply NoDup_cons in Hnd. destruct Hnd as [Hx Hnd].
  destruct Hin as [->|Hin].
  - assert (Hnone : last_with_id i l = None).
    { unfold last_with_id. destruct (last _) as [y|] eqn:Hlast; [|reflexivity].
      apply last_Some_elem_of in Hlast. apply list_elem_of_In in Hlast.
      apply filter_In in Hlast. destruct Hlast as [Hy Hyid].
      apply bool_decide_eq_true in Hyid.
      exfalso. apply Hx. apply list_elem_of_In. apply in_map_iff.
      exists y. split; [congruence|assumption]. }
    rewrite Hnone. now rewrite bool_decide_eq_true_2.
  - now rewrite (IH Hnd Hin).
Qed.

Lemma filtered_set_nil (c : client) (query : string) :
  filtered_set c query [] = [].
Proof.
  unfold filtered_set, basic_filter, filter_by_params, rank_by_embedding.
  destruct (chat_search_params c query) as [sp|].
  - destruct (sp_emotions sp) as [[|? ?]|], (sp_people sp) as [[|? ?]|],
      (sp_locations sp) as [[|? ?]|];
      now destruct (generate_memory_embedding c query).
  - destruct (List.find _ common_emotions);
      now destruct (generate_memory_embedding c query).
Qed.

(** What recall returns when the final ranking call succeeds over a
    non-empty filtered set: for each returned id the last memory of the
    filtered set carrying it, unknown ids dropped, followed by the memories
    of the filtered set whose id was not returned; at most 20 candidates
    were supplied. *)
Lemma recall_memories_ranked_result
  (c : client) (query : string) (memories : list memory)
  (ranked_ids : list (option Z)) :
  filtered_set c query memories <> [] ->
  chat_final_ranking c query (ranking_payload (filtered_set c query memories))
  = Some ranked_ids ->
  recall_memories c query memories
  = Ok (omap (fun i => last_with_id i (filtered_set c query memories)) ranked_ids
        ++ List.filter (fun m => negb (bool_decide (mem_id m ∈ ranked_ids)))
                       (filtered_set c query memories))
  /\ (length (ranking_payload (filtered_set c query memories)) <= 20)%nat.
Proof.
  intros Hne Hrank. split.
  - rewrite recall_memories_cases, Hrank.
    destruct (filtered_set c query memories) as [|f fs] eqn:Hf; [congruence|].
    now rewrite rerank_stated.
  - unfold ranking_payload. rewrite length_map, length_firstn. lia.
Qed.

Example reranked_order :
  match recall_memories online "sea" [sunny_day; rainy_day; capsule] with
  | Ok l => map mem_id l
  | Raise => []
  end = [Some 2; Some 1; Some 3].
Proof. vm_compute. reflexivity. Qed.

(** C5 on the code.  Three captures, the deletion of the first record and one
    more capture leave two records under id 3 in the session.  A search for
    [rain] hands the three records to the final ranking in the order of their
    embedding scores, the memory of the rain first; the ranking names id 3,
    the id of that memory.  Recall answers with the other record stored under
    id 3 and then the record with id 2: the memory the ranking chose is in
    the filtered set, its id is in the returned list, and it is not
    returned. *)
Lemma recall_memories_shared_id_loses_memory :
  let w := run [Capture sunny_day; Capture birthday; Capture rainy_day; Delete 1;
                Capture sunny_day] in
  let filtered_memories := filtered_set picks_mentions "rain" (session w) in
  map (fun m => (mem_id m, mem_text m)) (session w)
  = [(Some 2, Some "Cake for my birthday");
     (Some 3, Some "Missed the bus in the rain");
     (Some 3, Some "Great day by the sea")]
  /\ ranking_payload filtered_memories
     = [ {| cand_id := Some 3; cand_text := Some "Missed the bus in the rain";
            cand_date := Some "2024-06-02T18:30:00"; cand_emotion := Some "Sad";
            cand_people := []; cand_location := Some "Unknown" |};
         {| cand_id := Some 2; cand_text := Some "Cake for my birthday";
            cand_date := Some "2024-06-03T09:00:00"; cand_emotion := Some "Happy";
            cand_people := []; cand_location := Some "Home" |};
         {| cand_id := Some 3; cand_text := Some "Great day by the sea";
            cand_date := Some "2024-06-01T10:00:00"; cand_emotion := Some "Happy";
            cand_people := ["Maria"]; cand_location := Some "Beach" |} ]
  /\ chat_final_ranking picks_mentions "rain" (ranking_payload filtered_memories)
     = Some [Some 3]
  /\ match recall_memories picks_mentions "rain" (session w) with
     | Ok returned => map (fun m => (mem_id m, mem_text m)) returned
     | Raise => []
     end
     = [(Some 3, Some "Great day by the sea");
        (Some 2, Some "Cake for my birthday")]
  /\ In (Some 3, Some "Missed the bus in the rain")
        (map (fun m => (mem_id m, mem_text m)) filtered_memories).
Proof.
  cbv zeta. split; [vm_compute; reflexivity|]. split; [vm_compute; reflexivity|].
  split; [vm_compute; reflexivity|]. split; [vm_compute; reflexivity|].
  vm_compute. left. reflexivity.
Qed.

(** ** The recall pipeline on records as stored *)

Lemma map_raising_map_ok {A B C : Type} (f : A -> B) (g : B -> result C)
    (h : A -> C) (l : list A) :
  (forall x, g (f x) = Ok (h x)) ->
  map_raising g (map f l) = Ok (map h l).
Proof.
  intros Hg. induction l as [|x l IH]; [reflexivity|].
  cbn [map map_raising]. rewrite Hg, IH. reflexivity.
Qed.

Lemma filter_raising_map_ok {A B : Type} (f : A -> B) (cond : B -> result bool)
    (keep : A -> bool) (l : list A) :
  (forall x, cond (f x) = Ok (keep x)) ->
  filter_raising cond (map f l) = Ok (map f (List.filter keep l)).
Proof.
  intros Hc. induction l as [|x l IH]; [reflexivity|].
  cbn [map filter_raising List.filter]. rewrite Hc, IH. cbn [mbind result_bind].
  now destruct (keep x).
Qed.

Lemma filter_map_same {A B : Type} (f : A -> B) (keep' : B -> bool)
    (keep : A -> bool) (l : list A) :
  (forall x, keep' (f x) = keep x) ->
  List.filter keep' (map f l) = map f (List.filter keep l).
Proof.
  intros Hk. induction l as [|x l IH]; [reflexivity|].
  cbn [map List.filter]. rewrite Hk, IH. now destruct (keep x).
Qed.

Lemma insert_desc_map {A B : Type} (f : A -> B) (key' : B -> number)
    (key : A -> number) (x : A) (l : list A) :
  (forall y, key' (f y) = key y) ->
  insert_desc key' (f x) (map f l) = map f (insert_desc key x l).
Proof.
  intros Hk. induction l as [|y l IH]; [reflexivity|].
  cbn [map insert_desc]. rewrite !Hk.
  destruct (number_lt (key x) (key y)); [|reflexivity].
  cbn [map]. now rewrite IH.
Qed.

(** Sorting sees a record only through its key. *)
Lemma sorted_desc_map {A B : Type} (f : A -> B) (key' : B -> number)
    (key : A -> number) (l : list A) :
  (forall y, key' (f y) = key y) ->
  sorted_desc key' (map f l) = map f (sorted_desc key l).
Proof.
  intros Hk. induction l as [|x l IH]; [reflexivity|].
  cbn [map sorted_desc foldr]. fold (sorted_desc key' (map f l)).
  fold (sorted_desc key l). rewrite IH. now apply insert_desc_map.
Qed.

Lemma get_lower_as_stored (field : option string) :
  Stored.get_lower (held_of field) = Ok (Str.lower (default EmptyString field)).
Proof. now destruct field. Qed.

Lemma get_as_stored {A : Type} (field : option A) :
  Stored.get (held_of field) = field.
Proof. now destruct field. Qed.

Lemma set_relevance_score_as_stored (s : number) (m : memory) :
  Stored.set_relevance_score s (as_stored m) = as_stored (set_relevance_score s m).
Proof. reflexivity. Qed.

Lemma keyword_search_as_stored (query : string) (memories : list memory) :
  Stored.keyword_search query (map as_stored memories)
  = Ok (map as_stored (keyword_search query memories)).
Proof.
  unfold Stored.keyword_search, keyword_search.
  rewrite (map_raising_map_ok as_stored _
             (fun m => as_stored
                         (set_relevance_score
                            (Int (keyword_score (Str.split_ws (Str.lower query)) m)) m))).
  - cbn [mbind result_bind].
    rewrite <- (List.map_map
                  (fun m => set_relevance_score
                              (Int (keyword_score (Str.split_ws (Str.lower query)) m)) m)
                  as_stored).
    now rewrite (sorted_desc_map as_stored Stored.relevance_key relevance_key).
  - intros m. unfold Stored.keyword_score. cbn [as_stored st_text st_emotion st_location].
    rewrite !get_lower_as_stored. reflexivity.
Qed.

Lemma filter_by_params_as_stored (sp : search_params) (memories : list memory) :
  Stored.filter_by_params sp (map as_stored memories)
  = Ok (map as_stored (filter_by_params sp memories)).
Proof.
  unfold Stored.filter_by_params, filter_by_params.
  set (by_emotion := match sp_emotions sp with
                     | Some ((_ :: _) as wanted) =>
                         List.filter
                           (fun m => existsb
                                       (fun emotion =>
                                          Str.contains (Str.lower emotion) (emotion_of m))
                                       wanted)
                           memories
                     | _ => memories
                     end).
  assert (H1 : match sp_emotions sp with
               | Some ((_ :: _) as wanted) =>
                   filter_raising
                     (fun m =>
                        memory_emotion ← Stored.get_lower (st_emotion m);
                        Ok (existsb
                              (fun emotion => Str.contains (Str.lower emotion) memory_emotion)
                              wanted))
                     (map as_stored memories)
               | _ => Ok (map as_stored memories)
               end = Ok (map as_stored by_emotion)).
  { unfold by_emotion. destruct (sp_emotions sp) as [[|e es]|]; try reflexivity.
    apply filter_raising_map_ok. intros m. cbn [as_stored st_emotion].
    now rewrite get_lower_as_stored. }
  rewrite H1. cbn [mbind result_bind]. clearbody by_emotion.
  set (by_people := match sp_people sp with
                    | Some ((_ :: _) as wanted) =>
                        List.filter
                          (fun m => existsb
                                      (fun person =>
                                         existsb (String.eqb (Str.lower person))
                                                 (map Str.lower (default [] (mem_people m))))
                                      wanted)
                          by_emotion
                    | _ => by_emotion
                    end).
  assert (H2 : match sp_people sp with
               | Some ((_ :: _) as wanted) =>
                   List.filter
                     (fun m => existsb
                                 (fun person =>
                                    existsb (String.eqb (Str.lower person))
                                            (map Str.lower (default [] (st_people m))))
                                 wanted)
                     (map as_stored by_emotion)
               | _ => map as_stored by_emotion
               end = map as_stored by_people).
  { unfold by_people. destruct (sp_people sp) as [[|p ps]|]; try reflexivity.
    now apply filter_map_same. }
  rewrite H2. clearbody by_people.
  assert (H3 : match sp_locations sp with
               | Some ((_ :: _) as wanted) =>
                   filter_raising
                     (fun m =>
                        memory_location ← Stored.get_lower (st_location m);
                        Ok (existsb
                              (fun location =>
                                 Str.contains (Str.lower location) memory_location)
                              wanted))
                     (map as_stored by_people)
               | _ => Ok (map as_stored by_people)
               end
               = Ok (map as_stored
                       match sp_locations sp with
                       | Some ((_ :: _) as wanted) =>
                           List.filter
                             (fun m => existsb
                                         (fun location =>
                                            Str.contains (Str.lower location)
                                              (Str.lower (default EmptyString (mem_location m))))
                                         wanted)
                             by_people
                       | _ => by_people
                       end)).
  { destruct (sp_locations sp) as [[|p ps]|]; try reflexivity.
    apply filter_raising_map_ok. intros m. cbn [as_stored st_location].
    now rewrite get_lower_as_stored. }
  rewrite H3. reflexivity.
Qed.

Lemma basic_filter_as_stored (query : string) (memories : list memory) :
  Stored.basic_filter query (map as_stored memories)
  = Ok (map as_stored (basic_filter query memories)).
Proof.
  unfold Stored.basic_filter, basic_filter.
  destruct (List.find _ common_emotions) as [emotion|]; [|reflexivity].
  apply filter_raising_map_ok. intros m. cbn [as_stored st_emotion].
  now rewrite get_lower_as_stored.
Qed.

Lemma filter_stage_as_stored (c : client) (query : string) (memories : list memory) :
  Stored.filter_stage c query (map as_stored memories)
  = Ok (map as_stored
          match chat_search_params c query with
          | Some sp => filter_by_params sp memories
          | None => basic_filter query memories
          end).
Proof.
  unfold Stored.filter_stage.
  destruct (chat_search_params c query) as [sp|]; cbn [call mbind result_bind try_except].
  - now rewrite filter_by_params_as_stored.
  - apply basic_filter_as_stored.
Qed.

Lemma products_as_stored (u v : list float) :
  map_raising (fun ab => Stored.times (fst ab) (snd ab)) (combine u (map Some v))
  = Ok (map (fun ab => Double.mul (fst ab) (snd ab)) (combine u v)).
Proof.
  revert v. induction u as [|a u IH]; intros [|b v]; try reflexivity.
  cbn [map combine map_raising fst snd Stored.times]. rewrite IH. reflexivity.
Qed.

Lemma similarity_as_stored (query_embedding embedding : list float) :
  Stored.similarity query_embedding (map Some embedding)
  = Ok (similarity query_embedding embedding).
Proof.
  unfold Stored.similarity, similarity.
  rewrite length_map, firstn_map, products_as_stored. reflexivity.
Qed.

Lemma score_by_embedding_as_stored (query_embedding : list float) (m : memory) :
  Stored.score_by_embedding query_embedding (as_stored m)
  = Ok (as_stored (score_by_embedding query_embedding m)).
Proof.
  unfold Stored.score_by_embedding, score_by_embedding. cbn [as_stored st_embedding].
  destruct (mem_embedding m) as [[|e es]|]; try reflexivity.
  cbn [option_map held_of map].
  change (Some e :: map Some es) with (map Some (e :: es)).
  rewrite similarity_as_stored. reflexivity.
Qed.

Lemma rank_by_embedding_as_stored (query_embedding : list float) (l : list memory) :
  Stored.rank_by_embedding query_embedding (map as_stored l)
  = Ok (map as_stored (rank_by_embedding query_embedding l)).
Proof.
  unfold Stored.rank_by_embedding, rank_by_embedding.
  destruct query_embedding as [|q0 qs]; [now destruct l|].
  destruct l as [|m l]; [reflexivity|].
  change (as_stored m :: map as_stored l) with (map as_stored (m :: l)).
  rewrite (map_raising_map_ok as_stored _
             (fun m => as_stored (score_by_embedding (q0 :: qs) m)))
    by (intros x; apply score_by_embedding_as_stored).
  cbn [mbind result_bind].
  rewrite <- (List.map_map (score_by_embedding (q0 :: qs)) as_stored).
  now rewrite (sorted_desc_map as_stored Stored.relevance_key relevance_key).
Qed.

Lemma ranking_payload_as_stored (l : list memory) :
  Stored.ranking_payload (map as_stored l) = ranking_payload l.
Proof.
  unfold Stored.ranking_payload, ranking_payload.
  rewrite firstn_map, map_map. apply map_ext. intros m.
  unfold Stored.candidate_of, candidate_of. cbn [as_stored st_id st_text st_date
    st_emotion st_people st_location]. now rewrite !get_as_stored.
Qed.

Lemma memory_map_as_stored (l : list memory) (acc : gmap (option Z) memory) :
  foldl (fun acc m => <[st_id m := m]> acc) (as_stored <$> acc) (map as_stored l)
  = as_stored <$> foldl (fun acc m => <[mem_id m := m]> acc) acc l.
Proof.
  revert acc. induction l as [|m l IH]; intros acc; [reflexivity|].
  cbn [map foldl]. rewrite <- IH. f_equal. now rewrite fmap_insert.
Qed.

Lemma rerank_as_stored (ranked_ids : list (option Z)) (l : list memory) :
  Stored.rerank ranked_ids (map as_stored l) = map as_stored (rerank ranked_ids l).
Proof.
  unfold Stored.rerank, rerank. rewrite map_app. f_equal.
  - unfold Stored.memory_map, memory_map.
    rewrite <- (fmap_empty as_stored), memory_map_as_stored.
    induction ranked_ids as [|i ids IH]; [reflexivity|].
    cbn [omap list_omap]. rewrite lookup_fmap.
    destruct (foldl _ ∅ l !! i) as [m|]; cbn [fmap option_fmap option_map map];
      now rewrite IH.
  - now apply filter_map_same.
Qed.

Lemma stored_ranking_stage_total (c : client) (query : string)
    (filtered : list stored_memory) :
  Stored.ranking_stage c query filtered
  = Ok (match filtered with
        | [] => None
        | _ :: _ =>
            match chat_final_ranking c query (Stored.ranking_payload filtered) with
            | Some ranked_ids => Some (Stored.rerank ranked_ids filtered)
            | None => None
            end
        end).
Proof.
  unfold Stored.ranking_stage. destruct filtered as [|m l]; [reflexivity|].
  now destruct (chat_final_ranking c query _).
Qed.

Lemma stored_recall_memories_body (c : client) (query : string)
    (memories : list stored_memory) :
  memories <> [] ->
  Stored.recall_memories c query memories
  = try_except
      (filtered_memories ← Stored.filter_stage c query memories;
       filtered_memories ←
         Stored.rank_by_embedding (generate_memory_embedding c query) filtered_memories;
       returned ← Stored.ranking_stage c query filtered_memories;
       match returned with
       | Some ranked => Ok ranked
       | None =>
           match filtered_memories with
           | _ :: _ => Ok filtered_memories
           | [] => Stored.keyword_search query memories
           end
       end)
      (Stored.keyword_search query memories).
Proof. destruct memories; [congruence|reflexivity]. Qed.

(** On records of the declared types the pipeline on stored records raises
    nothing and returns what [recall_memories] returns. *)
Lemma recall_memories_as_stored (c : client) (query : string) (memories : list memory) :
  match recall_memories c query memories with
  | Ok returned =>
      Stored.recall_memories c query (map as_stored memories)
      = Ok (map as_stored returned)
  | Raise => False
  end.
Proof.
  rewrite recall_memories_cases. unfold Stored.recall_memories, filtered_set.
  destruct memories as [|m0 ms].
  - pose proof (filtered_set_nil c query) as Hnil. unfold filtered_set in Hnil.
    now rewrite Hnil.
  - fold (Stored.recall_memories c query (map as_stored (m0 :: ms))).
    rewrite stored_recall_memories_body by discriminate.
    set (memories := m0 :: ms).
    rewrite filter_stage_as_stored. cbn [mbind result_bind].
    rewrite rank_by_embedding_as_stored. cbn [mbind result_bind].
    set (filtered := rank_by_embedding _ _).
    rewrite stored_ranking_stage_total. cbn [mbind result_bind].
    rewrite ranking_payload_as_stored.
    destruct filtered as [|f fs] eqn:Hf.
    + cbn [map try_except]. rewrite keyword_search_as_stored. reflexivity.
    + cbn [map]. change (as_stored f :: map as_stored fs) with (map as_stored (f :: fs)).
      destruct (chat_final_ranking c query _) as [ranked_ids|]; cbn [try_except].
      * now rewrite rerank_as_stored.
      * reflexivity.
Qed.













(** The outer handler at work: the second component of the embedding of
    [holed_embedding] is [None], the scoring loop raises, and the result is
    the keyword scorer's on both records. *)
Example recall_memories_outer_handler :
  Stored.rank_by_embedding (generate_memory_embedding embeddings_only "sea")
                           [holed_embedding; as_stored rainy_day]
  = Raise
  /\ match Stored.recall_memories embeddings_only "sea"
             [holed_embedding; as_stored rainy_day] with
     | Ok returned => map (fun m => (st_id m, st_relevance_score m)) returned
     | Raise => []
     end = [(Some 1, Some (Int 1)); (Some 2, Some (Int 0))].
Proof. split; vm_compute; reflexivity. Qed.

(** Where the keyword scorer cannot read a record, the outer handler raises
    in its turn and the exception leaves [recall_memories]: with every
    service down, the emotion-word filter for [happy] meets the [None] stored
    as an emotion, and so does the keyword scorer called by the handler.
    Without an emotion word in the query the same collection is returned
    ranked. *)
Example recall_memories_unreadable_record :
  Stored.basic_filter "happy sea" [as_stored sunny_day; null_emotion] = Raise
  /\ Stored.keyword_search "happy sea" [as_stored sunny_day; null_emotion] = Raise
  /\ Stored.recall_memories offline "happy sea" [as_stored sunny_day; null_emotion]
     = Raise
  /\ match Stored.recall_memories offline "sea" [as_stored sunny_day; null_emotion] with
     | Ok returned => map st_id returned
     | Raise => []
     end = [Some 1; Some 2].
Proof. repeat split; vm_compute; reflexivity. Qed.

(** ** The store *)

Lemma at_first_match_absent (memory_id : Z) (change : memory -> list memory)
  (memories : list memory) :
  ~ In (Some memory_id) (map mem_id memories) ->
  at_first_match memory_id change memories = None.
Proof.
  induction memories as [|m l IH]; intros Hnot; [reflexivity|].
  cbn [at_first_match]. unfold has_id.
  rewrite bool_decide_eq_false_2 by (intros Heq; apply Hnot; now left).
  rewrite IH; [reflexivity|]. intros Hin. apply Hnot. now right.
Qed.

(** C10.  For every stored collection and every id not present in it,
    [update_memory] and [delete_memory] return False, leave the pickled
    collection and the session's collection as they were, and perform no
    [pickle.dump]; where the data directory exists, as it does once a
    collection is stored, nothing at all changes. *)
Theorem update_delete_unknown_id
  (memory_id : Z) (updated_data : memory) (w : world) :
  ~ In (Some memory_id) (stored_ids w) ->
  (snd (update_memory memory_id updated_data w) = false
   /\ file (fst (update_memory memory_id updated_data w)) = file w
   /\ session (fst (update_memory memory_id updated_data w)) = session w
   /\ dumps (fst (update_memory memory_id updated_data w)) = dumps w)
  /\ (snd (delete_memory memory_id w) = false
      /\ file (fst (delete_memory memory_id w)) = file w
      /\ session (fst (delete_memory memory_id w)) = session w
      /\ dumps (fst (delete_memory memory_id w)) = dumps w)
  /\ (data_dir w = true ->
      fst (update_memory memory_id updated_data w) = w
      /\ fst (delete_memory memory_id w) = w).
Proof.
  intros Hnot. unfold update_memory, delete_memory, load_memories, stored_ids in *.
  rewrite !at_first_match_absent by assumption.
  cbn [fst snd file session dumps ensure_data_directory].
  repeat split; destruct w as [dir f s d]; cbn in *; subst; reflexivity.
Qed.

Lemma update_delete_unknown_id_witness :
  let w := {| data_dir := true; file := Some [sunny_day; rainy_day];
              session := [sunny_day; rainy_day]; dumps := 2%nat |} in
  (snd (update_memory 7 capsule w) = false
   /\ file (fst (update_memory 7 capsule w)) = file w
   /\ session (fst (update_memory 7 capsule w)) = session w
   /\ dumps (fst (update_memory 7 capsule w)) = dumps w)
  /\ (snd (delete_memory 7 w) = false
      /\ file (fst (delete_memory 7 w)) = file w
      /\ session (fst (delete_memory 7 w)) = session w
      /\ dumps (fst (delete_memory 7 w)) = dumps w)
  /\ (data_dir w = true ->
      fst (update_memory 7 capsule w) = w /\ fst (delete_memory 7 w) = w).
Proof.
  cbv zeta.
  apply (update_delete_unknown_id 7 capsule
           {| data_dir := true; file := Some [sunny_day; rainy_day];
              session := [sunny_day; rainy_day]; dumps := 2%nat |}).
  vm_compute. intros [H|[H|[]]]; discriminate H.
Defined.

Example update_known_id_writes :
  let w := {| data_dir := true; file := Some [sunny_day; rainy_day];
              session := [sunny_day; rainy_day]; dumps := 2%nat |} in
  snd (delete_memory 1 w) = true
  /\ file (fst (delete_memory 1 w)) = Some [rainy_day]
  /\ dumps (fst (delete_memory 1 w)) = 3%nat.
Proof. repeat split. Qed.

(** The only trace an unsuccessful call leaves: the data directory exists. *)
Example unknown_id_creates_directory :
  let w := {| data_dir := false; file := None; session := []; dumps := 0%nat |} in
  fst (delete_memory 1 w)
  = {| data_dir := true; file := None; session := []; dumps := 0%nat |}.
Proof. reflexivity. Qed.

Lemma assign_ids_from (next_id : Z) (l : list memory) :
  map mem_id (assign_ids next_id l)
  = map (fun k => Some (next_id + Z.of_nat k)) (seq 0 (length l)).
Proof.
  revert next_id. induction l as [|m l IH]; intros next_id; [reflexivity|].
  cbn [assign_ids map length seq]. rewrite IH. f_equal.
  - simpl. f_equal. lia.
  - rewrite <- seq_shift, map_map. apply map_ext. intros k. f_equal. lia.
Qed.

Lemma max_default_ge (l : list Z) (x : Z) : In x l -> x <= max_default l.
Proof.
  destruct l as [|y l]; [intros []|]. unfold max_default.
  assert (Hmono : forall l a, a <= fold_left Z.max l a).
  { clear. induction l as [|z l IH]; intros a; simpl; [lia|].
    specialize (IH (Z.max a z)). lia. }
  revert y. induction l as [|z l IH]; intros y [->|Hin]; simpl.
  - lia.
  - destruct Hin.
  - specialize (Hmono l (Z.max x z)). lia.
  - destruct Hin as [->|Hin].
    + specialize (Hmono l (Z.max y x)). lia.
    + apply (IH (Z.max y z)). now right.
Qed.

Lemma assign_ids_preserved (next_id : Z) (source : list memory) :
  Forall2 preserved source (assign_ids next_id (map del_embedding source)).
Proof.
  revert next_id. induction source as [|m l IH]; intros next_id; [constructor|].
  constructor; [now repeat split|apply IH].
Qed.

Lemma numbered_NoDup (next_id : Z) (len a : nat) :
  NoDup (map (fun k => Some (next_id + Z.of_nat k)) (seq a len)).
Proof.
  revert a. induction len as [|len IH]; intros a; [constructor|].
  cbn [seq map]. apply NoDup_cons. split; [|apply IH].
  intros Hin. apply list_elem_of_In, in_map_iff in Hin.
  destruct Hin as [k [Hk Hin]]. apply in_seq in Hin.
  injection Hk as Hk. lia.
Qed.

(** C9.  For every memory collection, exporting it and importing the result
    (into any store) succeeds, leaves the records already in the store as
    they are, and appends one record per exported record, in order, with the
    same text, date, emotion, people and location, without embedding, and
    with an id that no record of the store carried and no other imported
    record carries. *)
Theorem export_import_round_trip (w target : world) :
  let source := default [] (file w) in
  let existing := default [] (file target) in
  let doc := snd (export_memories_json w) in
  let outcome := import_memories_json doc target in
  exists imported : list memory,
    snd outcome = true
    /\ file (fst outcome) = Some (existing ++ imported)
    /\ session (fst outcome) = existing ++ imported
    /\ Forall2 preserved source imported
    /\ NoDup (map mem_id imported)
    /\ (forall m', In m' imported ->
          (exists i : Z, mem_id m' = Some i)
          /\ ~ In (mem_id m') (map mem_id existing)).
Proof.
  cbv zeta. unfold export_memories_json, import_memories_json, load_memories.
  cbn [fst snd file session dump_and_publish ensure_data_directory].
  set (source := default [] (file w)).
  set (existing := default [] (file target)).
  set (next_id := max_default (map (fun m => default 0 (mem_id m)) existing) + 1).
  exists (assign_ids next_id (map del_embedding source)).
  split; [reflexivity|]. split; [reflexivity|]. split; [reflexivity|].
  split; [apply assign_ids_preserved|].
  split; [rewrite assign_ids_from; apply numbered_NoDup|].
  intros m' Hin.
  assert (Hid : In (mem_id m') (map mem_id (assign_ids next_id (map del_embedding source))))
    by (apply in_map_iff; now exists m').
  rewrite assign_ids_from in Hid. apply in_map_iff in Hid.
  destruct Hid as [k [Hk _]]. rewrite <- Hk.
  split; [eexists; reflexivity|].
  intros Hold. apply in_map_iff in Hold. destruct Hold as [m [Hm Hin_m]].
  assert (Hle : next_id + Z.of_nat k <= max_default (map (fun m => default 0 (mem_id m)) existing)).
  { apply max_default_ge. apply in_map_iff. exists m. split; [|assumption].
    now rewrite Hm. }
  subst next_id. lia.
Qed.

Example round_trip_sample :
  let w := {| data_dir := true; file := Some [sunny_day; rainy_day];
              session := [sunny_day; rainy_day]; dumps := 2%nat |} in
  map (fun m => (mem_id m, mem_text m, mem_embedding m))
      (default [] (file (fst (import_memories_json (snd (export_memories_json w)) w))))
  = [ (Some 1, Some "Great day by the sea",
       Some [Double.of_Q (1#2); Double.of_Q (1#4)]);
      (Some 2, Some "Missed the bus in the rain",
       Some [Double.of_Q 1; Double.of_Q 1]);
      (Some 3, Some "Great day by the sea", None);
      (Some 4, Some "Missed the bus in the rain", None) ].
Proof. reflexivity. Qed.

(** ** Time capsules in the tabs *)

Lemma leb_ltb (s t : string) : String.leb s t = negb (String.ltb t s).
Proof.
  unfold String.leb, String.ltb. rewrite (String.compare_antisym s t).
  now destruct (String.compare t s).
Qed.

Lemma unlocked_not_locked (current_date : string) (m : memory) :
  unlocked current_date m = negb (locked current_date m).
Proof.
  unfold unlocked, locked. destruct (mem_unlock_date m) as [u|]; [|reflexivity].
  rewrite leb_ltb. now destruct (String.eqb u EmptyString), (String.ltb current_date u).
Qed.

(** The Mind Map and Summaries tabs leave out exactly the locked memories. *)
Lemma available_memories_iff (current_date : string) (memories : list memory)
  (m : memory) :
  In m (available_memories current_date memories)
  <-> In m memories /\ locked current_date m = false.
Proof.
  unfold available_memories. rewrite filter_In, unlocked_not_locked.
  now rewrite negb_true_iff.
Qed.

Lemma mind_map_input_unlocked (current_date : string) (memories : list memory)
  (m : memory) :
  In m (mind_map_input current_date memories) -> locked current_date m = false.
Proof. intros H. now apply available_memories_iff in H. Qed.

Lemma filter_raising_sublist {A : Type} (cond : A -> result bool)
  (l kept : list A) (x : A) :
  filter_raising cond l = Ok kept -> In x kept -> In x l.
Proof.
  revert kept. induction l as [|y l IH]; intros kept; cbn [filter_raising].
  - intros [= <-] [].
  - destruct (cond y) as [keep|]; [|discriminate]. cbn [mbind result_bind].
    destruct (filter_raising cond l) as [rest|]; [|discriminate].
    cbn [mbind result_bind]. intros [= <-] Hin.
    destruct keep; [destruct Hin as [->|Hin]|]; [now left| |]; right; now apply (IH rest).
Qed.

Lemma summary_input_unlocked (current_date start_date : string)
  (memories kept : list memory) (m : memory) :
  summary_input current_date start_date memories = Ok kept ->
  In m kept -> locked current_date m = false.
Proof.
  unfold summary_input. intros Hk Hin.
  apply (filter_raising_sublist _ _ _ _ Hk) in Hin.
  now apply available_memories_iff in Hin.
Qed.

(** So does the Recall tab as long as no search is run. *)
Lemma recall_tab_browse_unlocked (c : client) (search_query : string)
  (emotion_filter person_filter : option string)
  (date_range : option (string * string)) (current_date : string)
  (memories shown : list memory) (m : memory) :
  recall_tab c search_query false emotion_filter person_filter date_range
             current_date memories = Ok shown ->
  In m shown -> locked current_date m = false.
Proof.
  unfold recall_tab. rewrite andb_false_r. intros Hshown Hin.
  assert (Hbase : In m (List.filter (unlocked current_date) memories)).
  { destruct date_range as [[start_date end_date]|];
      [apply (filter_raising_sublist _ _ _ _ Hshown) in Hin
      |injection Hshown as <-];
      (destruct person_filter; [apply filter_In in Hin; destruct Hin as [Hin _]|]);
      (destruct emotion_filter; [apply filter_In in Hin; destruct Hin as [Hin _]|]);
      exact Hin. }
  apply filter_In in Hbase. destruct Hbase as [_ Hu].
  rewrite unlocked_not_locked in Hu. now apply negb_true_iff.
Qed.

(** C2 on the code.  On 1 December 2024 the capsule, locked until 3 June
    2025, is kept from the mind map, from the summary and from the browsing
    list of the Recall tab, but a search in the Recall tab hands it to
    [recall_memories] and shows it. *)
Lemma recall_search_shows_locked_capsule :
  let current_date := "2024-12-01T08:00:00.000000" in
  let memories := [sunny_day; capsule] in
  locked current_date capsule = true
  /\ ~ In capsule (mind_map_input current_date memories)
  /\ summary_input current_date "1900-01-01" memories = Ok [sunny_day]
  /\ recall_tab embeddings_only EmptyString false None None None current_date memories
     = Ok [sunny_day]
  /\ In capsule (recall_input memories)
  /\ exists shown : list memory,
       recall_tab embeddings_only "birthday" true None None None current_date memories
       = Ok shown
       /\ In (mem_text capsule) (map mem_text shown).
Proof.
  cbv zeta. split; [reflexivity|].
  split; [intros H; apply mind_map_input_unlocked in H; discriminate H|].
  split; [reflexivity|].
  split; [reflexivity|].
  split; [right; left; reflexivity|].
  eexists. split; [vm_compute; reflexivity|].
  right. left. reflexivity.
Qed.

Example capsule_available_after_unlock :
  mind_map_input "2025-06-03T00:00:01.000000" [sunny_day; capsule]
  = [sunny_day; capsule]
  /\ summary_input "2025-06-03T00:00:01.000000" "1900-01-01" [sunny_day; capsule]
     = Ok [sunny_day; capsule].
Proof. split; reflexivity. Qed.

(** ** Identifiers *)

Lemma numbered_succ (n : nat) :
  numbered (S n) = numbered n ++ [Some (Z.of_nat n + 1)].
Proof.
  unfold numbered. rewrite seq_S, map_app. cbn [map]. do 3 f_equal. lia.
Qed.

Lemma map_seq_from {A : Type} (f : nat -> A) (a len : nat) :
  map f (seq a len) = map (fun k => f (a + k)%nat) (seq 0 len).
Proof.
  revert a. induction len as [|len IH]; intros a; [reflexivity|].
  cbn [seq map]. rewrite Nat.add_0_r. f_equal.
  rewrite IH, <- seq_shift, map_map. apply map_ext. intros k. f_equal. lia.
Qed.

Lemma numbered_app (n len : nat) :
  numbered (n + len)
  = numbered n ++ map (fun k => Some (Z.of_nat n + 1 + Z.of_nat k)) (seq 0 len).
Proof.
  unfold numbered. rewrite seq_app, map_app. f_equal.
  rewrite map_seq_from. apply map_ext. intros k. f_equal. lia.
Qed.

Lemma length_assign_ids (next_id : Z) (l : list memory) :
  length (assign_ids next_id l) = length l.
Proof.
  revert next_id. induction l as [|m l IH]; intros next_id; [reflexivity|].
  cbn [assign_ids length]. now rewrite IH.
Qed.

Lemma max_default_in (l : list Z) : l <> [] -> In (max_default l) l.
Proof.
  destruct l as [|x l]; [congruence|]. intros _. unfold max_default.
  revert x. induction l as [|z l IH]; intros x; [now left|].
  cbn [fold_left]. destruct (IH (Z.max x z)) as [Heq|Hin].
  - rewrite <- Heq. destruct (Z.max_spec x z) as [[_ ->]|[_ ->]];
      [right; now left|now left].
  - right. now right.
Qed.

Lemma max_default_numbered (l : list memory) (n : nat) :
  map mem_id l = numbered n ->
  max_default (map (fun m => default 0 (mem_id m)) l) = Z.of_nat n.
Proof.
  intros Hids.
  assert (Hvals : map (fun m => default 0 (mem_id m)) l = map Z.of_nat (seq 1 n)).
  { rewrite <- (map_map mem_id (default 0)), Hids. unfold numbered.
    now rewrite map_map. }
  rewrite Hvals. destruct n as [|n]; [reflexivity|].
  apply Z.le_antisymm.
  - assert (Hin : In (max_default (map Z.of_nat (seq 1 (S n)))) (map Z.of_nat (seq 1 (S n))))
      by (apply max_default_in; discriminate).
    apply in_map_iff in Hin. destruct Hin as [k [<- Hk]]. apply in_seq in Hk. lia.
  - apply max_default_ge. apply in_map_iff. exists (S n). split; [reflexivity|].
    apply in_seq. lia.
Qed.

Lemma update_keeps_ids (memory_id : Z) (updated_data : memory)
  (l l' : list memory) :
  mem_id updated_data = None ->
  at_first_match memory_id (fun m => [dict_update updated_data m]) l = Some l' ->
  map mem_id l' = map mem_id l.
Proof.
  intros Hnone. revert l'. induction l as [|m l IH]; intros l'; [discriminate|].
  cbn [at_first_match]. destruct (has_id memory_id m).
  - intros [= <-]. cbn [app map]. f_equal. unfold dict_update. simpl.
    now rewrite Hnone.
  - destruct (at_first_match _ _ l) as [rest|]; [|discriminate].
    intros [= <-]. cbn [map]. f_equal. now apply IH.
Qed.

Lemma ids_in_sequence_step (a : action) (w : world) :
  keeps_ids a -> ids_in_sequence w -> ids_in_sequence (perform a w).
Proof.
  unfold ids_in_sequence, stored_ids. intros Hsafe [Hsess Hids].
  destruct a as [draft|doc|memory_id updated_data|memory_id]; cbn [perform].
  - unfold capture, save_memory, new_memory, load_memories.
    cbn [file session dump_and_publish ensure_data_directory default from_option id].
    split; [reflexivity|].
    rewrite map_app, length_app, Hids, Hsess. cbn [map length mem_id set_id].
    rewrite Nat.add_1_r, numbered_succ. reflexivity.
  - unfold import_memories_json, load_memories.
    cbn [fst file session dump_and_publish ensure_data_directory default from_option id].
    split; [reflexivity|].
    rewrite map_app, length_app, assign_ids_from.
    rewrite (max_default_numbered _ _ Hids), Hids.
    now rewrite numbered_app, length_assign_ids.
  - simpl in Hsafe. unfold update_memory, load_memories.
    destruct (at_first_match _ _ (default [] (file w))) as [l'|] eqn:Hm;
      cbn [fst file session dump_and_publish ensure_data_directory default from_option id].
    + split; [reflexivity|].
      pose proof (update_keeps_ids _ _ _ _ Hsafe Hm) as Hsame.
      rewrite Hsame, Hids.
      assert (Hlen : length l' = length (default [] (file w))).
      { rewrite <- (length_map mem_id), Hsame. apply length_map. }
      now rewrite Hlen.
    + now split.
  - destruct Hsafe.
Qed.

(** As long as nothing is deleted and no update rewrites an id, the stored
    ids are 1, 2, ..., n: distinct, and a new record gets the largest id
    plus 1, the length and the largest id being the same number. *)
Lemma ids_in_sequence_without_deletion (actions : list action) :
  Forall keeps_ids actions -> ids_in_sequence (run actions).
Proof.
  unfold run.
  assert (Hinit : ids_in_sequence fresh_install) by (split; reflexivity).
  revert Hinit. generalize fresh_install as w.
  induction actions as [|a actions IH]; intros w Hw Hall; [exact Hw|].
  inversion Hall as [|? ? Ha Hrest]; subst. cbn [fold_left].
  apply IH; [|assumption]. now apply ids_in_sequence_step.
Qed.

(** C3 on the code.  Three captures, the deletion of the first record and one
    more capture: the new record gets id 3, the number of stored records plus
    1, which the last stored record already carries; the largest id plus 1
    would be 4. *)
Lemma capture_after_delete_reuses_id :
  let w := run [Capture sunny_day; Capture rainy_day; Capture capsule; Delete 1] in
  stored_ids w = [Some 2; Some 3]
  /\ mem_id (new_memory blank w) = Some 3
  /\ max_default (map (fun m => default 0 (mem_id m)) (default [] (file w))) + 1 = 4
  /\ stored_ids (perform (Capture blank) w) = [Some 2; Some 3; Some 3]
  /\ ~ NoDup (stored_ids (perform (Capture blank) w)).
Proof.
  cbv zeta. split; [reflexivity|]. split; [reflexivity|]. split; [reflexivity|].
  split; [reflexivity|].
  change (stored_ids _) with [Some 2; Some 3; Some 3].
  intros Hnd. apply NoDup_cons in Hnd. destruct Hnd as [_ Hnd].
  apply NoDup_cons in Hnd. destruct Hnd as [Hnot _].
  apply Hnot. left.
Qed.

Example recall_with_no_service :
  match recall_memories offline "happy sea" [sunny_day; rainy_day] with
  | Ok l => map mem_id l
  | Raise => []
  end = [Some 1]
  /\ map mem_id (keyword_search "happy sea" [sunny_day; rainy_day]) = [Some 1; Some 2].
Proof. split; vm_compute; reflexivity. Qed.

Example recall_on_nothing (c : client) (query : string) :
  recall_memories c query [] = Ok [].
Proof. reflexivity. Qed.

(** ** Looking records up, changing and removing them *)

Lemma find_app_first {A : Type} (f : A -> bool) (l1 l2 : list A) :
  List.find f (l1 ++ l2)
  = match List.find f l1 with
    | Some x => Some x
    | None => List.find f l2
    end.
Proof.
  induction l1 as [|x l1 IH]; [reflexivity|]. cbn [app List.find].
  now destruct (f x).
Qed.

Lemma has_id_true (i : Z) (m : memory) : has_id i m = true <-> mem_id m = Some i.
Proof. unfold has_id. apply bool_decide_eq_true. Qed.

Lemma find_has_id_absent (i : Z) (l : list memory) :
  List.find (has_id i) l = None <-> ~ In (Some i) (map mem_id l).
Proof.
  induction l as [|m l IH]; cbn [List.find map In]; [tauto|].
  destruct (has_id i m) eqn:Hm.
  - apply has_id_true in Hm. split; [discriminate|]. intros H. exfalso. apply H. now left.
  - rewrite IH. split.
    + intros Hl [Heq|Hin]; [|now apply Hl].
      apply has_id_true in Heq. congruence.
    + intros H Hin. apply H. now right.
Qed.

(** A list holding the id splits around the first record that carries it. *)
Lemma first_match_split (i : Z) (l : list memory) :
  In (Some i) (map mem_id l) ->
  exists before m after,
    l = before ++ m :: after /\ mem_id m = Some i
    /\ ~ In (Some i) (map mem_id before).
Proof.
  induction l as [|x l IH]; [intros []|]. intros Hin.
  destruct (has_id i x) eqn:Hx.
  - apply has_id_true in Hx. exists [], x, l. repeat split; [assumption|intros []].
  - assert (Hne : mem_id x <> Some i)
      by (intros Heq; apply has_id_true in Heq; congruence).
    destruct Hin as [Heq|Hin]; [congruence|].
    destruct (IH Hin) as [before [m [after [-> [Hm Hb]]]]].
    exists (x :: before), m, after. repeat split; [assumption|].
    intros [Heq|Hin']; [congruence|now apply Hb].
Qed.

Lemma at_first_match_split (i : Z) (change : memory -> list memory)
  (before after : list memory) (m : memory) :
  mem_id m = Some i -> ~ In (Some i) (map mem_id before) ->
  at_first_match i change (before ++ m :: after) = Some (before ++ change m ++ after).
Proof.
  intros Hm. induction before as [|x before IH]; intros Hb.
  - cbn [app at_first_match]. apply has_id_true in Hm. now rewrite Hm.
  - cbn [app at_first_match].
    assert (Hx : has_id i x = false).
    { destruct (has_id i x) eqn:Hx; [|reflexivity].
      apply has_id_true in Hx. exfalso. apply Hb. now left. }
    rewrite Hx, IH; [reflexivity|]. intros Hin. apply Hb. now right.
Qed.

Lemma find_split (j : Z) (before after : list memory) (m : memory) :
  ~ In (Some j) (map mem_id before) ->
  List.find (has_id j) (before ++ m :: after)
  = if has_id j m then Some m else List.find (has_id j) after.
Proof.
  intros Hb. rewrite find_app_first.
  apply find_has_id_absent in Hb. now rewrite Hb.
Qed.

(** Swapping one record for records of the same id changes no lookup but
    possibly the one that finds it. *)
Lemma find_replace (j : Z) (before after : list memory) (m m' : memory) :
  has_id j m = false -> has_id j m' = false ->
  List.find (has_id j) (before ++ m' :: after)
  = List.find (has_id j) (before ++ m :: after).
Proof.
  intros Hm Hm'. rewrite !find_app_first. cbn [List.find]. now rewrite Hm, Hm'.
Qed.

(** X1.  [get_memory_by_id] answers None exactly for the ids no stored record
    carries; otherwise it answers the first stored record that carries the
    id.  It writes nothing. *)
Theorem get_memory_by_id_first (memory_id : Z) (w : world) :
  match snd (get_memory_by_id memory_id w) with
  | Some m =>
      exists before after,
        stored w = before ++ m :: after /\ mem_id m = Some memory_id
        /\ ~ In (Some memory_id) (map mem_id before)
  | None => ~ In (Some memory_id) (stored_ids w)
  end
  /\ file (fst (get_memory_by_id memory_id w)) = file w
  /\ session (fst (get_memory_by_id memory_id w)) = session w
  /\ dumps (fst (get_memory_by_id memory_id w)) = dumps w.
Proof.
  split; [|repeat split].
  unfold get_memory_by_id, load_memories, stored, stored_ids. cbn [snd].
  destruct (List.find _ _) as [m|] eqn:Hf.
  - assert (Hin : In (Some memory_id) (map mem_id (default [] (file w)))).
    { apply find_some in Hf. destruct Hf as [Hin Hid]. apply has_id_true in Hid.
      apply in_map_iff. now exists m. }
    destruct (first_match_split _ _ Hin) as [before [m0 [after [Hl [Hm0 Hb]]]]].
    rewrite Hl in Hf. rewrite (find_split _ _ _ _ Hb) in Hf.
    apply has_id_true in Hm0. rewrite Hm0 in Hf. injection Hf as <-.
    exists before, after. apply has_id_true in Hm0. now repeat split.
  - now apply find_has_id_absent.
Qed.

(** X2.  After [save_memory], looking an id up gives what it gave before if
    that was a record, and the saved record if the id was not stored and is
    the saved record's: a record saved under an id already in the store is
    shadowed by the older one. *)
Theorem save_memory_then_get (memory : memory) (memory_id : Z) (w : world) :
  snd (get_memory_by_id memory_id (save_memory memory w))
  = match snd (get_memory_by_id memory_id w) with
    | Some older => Some older
    | None => if has_id memory_id memory then Some memory else None
    end.
Proof.
  unfold get_memory_by_id, save_memory, load_memories.
  cbn [snd file dump_and_publish ensure_data_directory default from_option id].
  rewrite find_app_first. cbn [List.find].
  now destruct (List.find _ _), (has_id memory_id memory).
Qed.

Lemma dict_update_keeps_id (updated_data m : memory) :
  mem_id updated_data = None -> mem_id (dict_update updated_data m) = mem_id m.
Proof. intros H. unfold dict_update. cbn [mem_id]. now rewrite H. Qed.

Lemma has_id_dict_update (j : Z) (updated_data m : memory) :
  mem_id updated_data = None ->
  has_id j (dict_update updated_data m) = has_id j m.
Proof. intros H. unfold has_id. now rewrite dict_update_keeps_id. Qed.

Lemma get_memory_by_id_found (memory_id : Z) (w : world) :
  In (Some memory_id) (stored_ids w) ->
  exists m, snd (get_memory_by_id memory_id w) = Some m.
Proof.
  intros Hin. unfold get_memory_by_id, load_memories. cbn [snd].
  destruct (List.find _ _) as [m|] eqn:Hf; [now exists m|].
  apply find_has_id_absent in Hf. contradiction.
Qed.

(** What an update of a stored id does to the session and to the lookups. *)
Lemma update_memory_stored_id_aux
  (memory_id : Z) (updated_data : memory) (w : world) :
  In (Some memory_id) (stored_ids w) ->
  mem_id updated_data = None ->
  session (fst (update_memory memory_id updated_data w))
  = stored (fst (update_memory memory_id updated_data w))
  /\ forall j : Z,
       snd (get_memory_by_id j (fst (update_memory memory_id updated_data w)))
       = if j =? memory_id
         then option_map (dict_update updated_data) (snd (get_memory_by_id j w))
         else snd (get_memory_by_id j w).
Proof.
  intros Hin Hnone.
  destruct (first_match_split _ _ Hin) as [before [m [after [Hl [Hm Hb]]]]].
  unfold update_memory, get_memory_by_id, load_memories, stored.
  rewrite Hl, (at_first_match_split _ _ _ _ _ Hm Hb).
  cbn [fst snd file session dumps dump_and_publish ensure_data_directory
       default from_option id app].
  split; [reflexivity|].
  intros j. destruct (Z.eqb_spec j memory_id) as [->|Hne].
  - rewrite !(find_split _ _ _ _ Hb), has_id_dict_update by assumption.
    apply has_id_true in Hm. now rewrite Hm.
  - assert (Hj : has_id j m = false).
    { destruct (has_id j m) eqn:Hj; [|reflexivity].
      apply has_id_true in Hj. congruence. }
    apply find_replace; [assumption|]. now rewrite has_id_dict_update.
Qed.

(** X3.  [update_memory] on a stored id, with data that does not write the
    [id] key: it returns True after exactly one [pickle.dump], the session
    shows the new file contents, the number of records is unchanged, the
    lookup of that id now gives the record it gave before overlaid with the
    data, and the lookup of every other id is unchanged. *)
Theorem update_memory_stored_id
  (memory_id : Z) (updated_data : memory) (w : world) :
  In (Some memory_id) (stored_ids w) ->
  mem_id updated_data = None ->
  let w' := fst (update_memory memory_id updated_data w) in
  snd (update_memory memory_id updated_data w) = true
  /\ dumps w' = S (dumps w)
  /\ session w' = stored w'
  /\ length (stored w') = length (stored w)
  /\ forall j : Z,
       snd (get_memory_by_id j w')
       = if j =? memory_id
         then option_map (dict_update updated_data) (snd (get_memory_by_id j w))
         else snd (get_memory_by_id j w).
Proof.
  intros Hin Hnone. cbv zeta.
  destruct (update_memory_stored_id_aux memory_id updated_data w Hin Hnone)
    as [Hsess Hget].
  destruct (first_match_split _ _ Hin) as [before [m [after [Hl [Hm Hb]]]]].
  split; [|split; [|split; [exact Hsess|split; [|exact Hget]]]];
    unfold update_memory, load_memories, stored;
    rewrite Hl, (at_first_match_split _ _ _ _ _ Hm Hb);
    cbn [fst snd file dumps dump_and_publish default from_option id app];
    [reflexivity|reflexivity|now rewrite !length_app].
Qed.

Lemma update_memory_stored_id_witness :
  let w := {| data_dir := true; file := Some [sunny_day; rainy_day];
              session := [sunny_day; rainy_day]; dumps := 2%nat |} in
  let w' := fst (update_memory 2 (unlock_date_only "2030-01-01") w) in
  snd (update_memory 2 (unlock_date_only "2030-01-01") w) = true
  /\ dumps w' = S (dumps w)
  /\ session w' = stored w'
  /\ length (stored w') = length (stored w)
  /\ forall j : Z,
       snd (get_memory_by_id j w')
       = if j =? 2
         then option_map (dict_update (unlock_date_only "2030-01-01"))
                         (snd (get_memory_by_id j w))
         else snd (get_memory_by_id j w).
Proof.
  cbv zeta.
  apply (update_memory_stored_id 2 (unlock_date_only "2030-01-01")
           {| data_dir := true; file := Some [sunny_day; rainy_day];
              session := [sunny_day; rainy_day]; dumps := 2%nat |}).
  - right. left. reflexivity.
  - reflexivity.
Defined.

(** X4.  [delete_memory] on a stored id: it returns True after exactly one
    [pickle.dump], the session shows the new file contents, one record fewer
    is stored, the lookup of every other id is unchanged, and the lookup of
    the deleted id now gives the next record that carried the same id, if
    there was one. *)
Theorem delete_memory_stored_id (memory_id : Z) (w : world) :
  In (Some memory_id) (stored_ids w) ->
  let w' := fst (delete_memory memory_id w) in
  snd (delete_memory memory_id w) = true
  /\ dumps w' = S (dumps w)
  /\ session w' = stored w'
  /\ S (length (stored w')) = length (stored w)
  /\ forall j : Z,
       snd (get_memory_by_id j w')
       = if j =? memory_id
         then nth_error (List.filter (has_id memory_id) (stored w)) 1
         else snd (get_memory_by_id j w).
Proof.
  intros Hin. cbv zeta.
  destruct (first_match_split _ _ Hin) as [before [m [after [Hl [Hm Hb]]]]].
  unfold delete_memory, get_memory_by_id, load_memories, stored.
  rewrite Hl, (at_first_match_split _ _ _ _ _ Hm Hb).
  cbn [fst snd file session dumps dump_and_publish ensure_data_directory
       default from_option id app].
  split; [reflexivity|]. split; [reflexivity|]. split; [reflexivity|].
  split; [rewrite !length_app; cbn [length]; lia|].
  intros j. destruct (Z.eqb_spec j memory_id) as [->|Hne].
  - rewrite find_app_first.
    pose proof Hb as Hnone. apply find_has_id_absent in Hnone. rewrite Hnone.
    rewrite List.filter_app. cbn [List.filter].
    apply has_id_true in Hm. rewrite Hm.
    assert (Hfb : List.filter (has_id memory_id) before = []).
    { clear -Hb. induction before as [|x before IH]; [reflexivity|].
      cbn [List.filter]. destruct (has_id memory_id x) eqn:Hx.
      - apply has_id_true in Hx. exfalso. apply Hb. now left.
      - apply IH. intros H. apply Hb. now right. }
    rewrite Hfb. cbn [app nth_error]. clear.
    induction after as [|x after IH]; [reflexivity|].
    cbn [List.find List.filter]. now destruct (has_id memory_id x).
  - assert (Hj : has_id j m = false).
    { destruct (has_id j m) eqn:Hj; [|reflexivity].
      apply has_id_true in Hj. congruence. }
    rewrite !find_app_first. cbn [List.find]. now rewrite Hj.
Qed.

Lemma delete_memory_stored_id_witness :
  let w := {| data_dir := true; file := Some [sunny_day; rainy_day; set_id 1 capsule];
              session := [sunny_day; rainy_day; set_id 1 capsule]; dumps := 3%nat |} in
  let w' := fst (delete_memory 1 w) in
  snd (delete_memory 1 w) = true
  /\ dumps w' = S (dumps w)
  /\ session w' = stored w'
  /\ S (length (stored w')) = length (stored w)
  /\ forall j : Z,
       snd (get_memory_by_id j w')
       = if j =? 1
         then nth_error (List.filter (has_id 1) (stored w)) 1
         else snd (get_memory_by_id j w).
Proof.
  cbv zeta.
  apply (delete_memory_stored_id 1
           {| data_dir := true; file := Some [sunny_day; rainy_day; set_id 1 capsule];
              session := [sunny_day; rainy_day; set_id 1 capsule]; dumps := 3%nat |}).
  left. reflexivity.
Defined.

Example deleted_id_still_found :
  let w := {| data_dir := true; file := Some [sunny_day; rainy_day; set_id 1 capsule];
              session := [sunny_day; rainy_day; set_id 1 capsule]; dumps := 3%nat |} in
  snd (get_memory_by_id 1 (fst (delete_memory 1 w))) = Some (set_id 1 capsule).
Proof. reflexivity. Qed.

(** Every action leaves the session equal to the file's records. *)
Lemma perform_mirrors (a : action) (w : world) :
  session w = stored w -> session (perform a w) = stored (perform a w).
Proof.
  unfold stored. intros Hs.
  destruct a as [draft|doc|memory_id updated_data|memory_id]; cbn [perform].
  - reflexivity.
  - reflexivity.
  - unfold update_memory, load_memories.
    now destruct (at_first_match _ _ _).
  - unfold delete_memory, load_memories.
    now destruct (at_first_match _ _ _).
Qed.

Lemma perform_dumps (a : action) (w : world) :
  (dumps (perform a w) <= S (dumps w))%nat.
Proof.
  destruct a as [draft|doc|memory_id updated_data|memory_id]; cbn [perform].
  - unfold capture, save_memory, load_memories. cbn. lia.
  - unfold import_memories_json, load_memories. cbn. lia.
  - unfold update_memory, load_memories.
    destruct (at_first_match _ _ _); cbn; lia.
  - unfold delete_memory, load_memories.
    destruct (at_first_match _ _ _); cbn; lia.
Qed.

Lemma run_mirrors_and_dumps (actions : list action) (w : world) :
  session w = stored w ->
  session (fold_left (fun w a => perform a w) actions w)
  = stored (fold_left (fun w a => perform a w) actions w)
  /\ (dumps (fold_left (fun w a => perform a w) actions w)
      <= dumps w + length actions)%nat.
Proof.
  revert w. induction actions as [|a l IH]; intros w Hs; cbn [fold_left length].
  - split; [assumption|lia].
  - destruct (IH (perform a w) (perform_mirrors a w Hs)) as [Hs' Hd'].
    split; [assumption|]. pose proof (perform_dumps a w). lia.
Qed.

Lemma run_session_stored (actions : list action) :
  session (run actions) = stored (run actions).
Proof. apply (run_mirrors_and_dumps actions fresh_install). reflexivity. Qed.

(** X5.  Whatever captures, imports, updates and deletions are run on a
    fresh installation, found or not, the session's list of memories is the
    list in the file, and [pickle.dump] has run at most once per action. *)
Theorem session_mirrors_file (actions : list action) :
  session (run actions) = stored (run actions)
  /\ (dumps (run actions) <= length actions)%nat.
Proof.
  apply (run_mirrors_and_dumps actions fresh_install). reflexivity.
Qed.

(** X6.  [update_memory_unlock_date] on a stored id replaces the unlock date
    of the record found under that id and nothing else of it; the rescheduled
    record is then offered to the mind map exactly when the new date is empty
    or not after the current date. *)
Theorem update_memory_unlock_date_reschedules
  (memory_id : Z) (new_unlock_date current_date : string) (w : world) :
  In (Some memory_id) (stored_ids w) ->
  let w' := fst (update_memory_unlock_date memory_id new_unlock_date w) in
  exists old rescheduled : memory,
    snd (get_memory_by_id memory_id w) = Some old
    /\ snd (get_memory_by_id memory_id w') = Some rescheduled
    /\ mem_unlock_date rescheduled = Some new_unlock_date
    /\ (mem_id rescheduled, mem_text rescheduled, mem_date rescheduled,
        mem_emotion rescheduled, mem_people rescheduled, mem_location rescheduled,
        mem_topics rescheduled, mem_context rescheduled, mem_embedding rescheduled,
        mem_is_time_capsule rescheduled, mem_relevance_score rescheduled)
       = (mem_id old, mem_text old, mem_date old, mem_emotion old, mem_people old,
          mem_location old, mem_topics old, mem_context old, mem_embedding old,
          mem_is_time_capsule old, mem_relevance_score old)
    /\ (In rescheduled (mind_map_input current_date (session w'))
        <-> new_unlock_date = EmptyString
            \/ String.leb new_unlock_date current_date = true).
Proof.
  intros Hin. cbv zeta. unfold update_memory_unlock_date.
  destruct (update_memory_stored_id_aux memory_id (unlock_date_only new_unlock_date) w
              Hin eq_refl) as [Hsess Hget].
  pose proof (get_memory_by_id_found memory_id w Hin) as [old Hold].
  exists old, (dict_update (unlock_date_only new_unlock_date) old).
  split; [assumption|].
  assert (Hnew : snd (get_memory_by_id memory_id
                        (fst (update_memory memory_id (unlock_date_only new_unlock_date) w)))
                 = Some (dict_update (unlock_date_only new_unlock_date) old)).
  { rewrite Hget, Z.eqb_refl, Hold. reflexivity. }
  split; [assumption|]. split; [reflexivity|]. split; [reflexivity|].
  unfold mind_map_input. rewrite available_memories_iff.
  assert (Hmem : In (dict_update (unlock_date_only new_unlock_date) old)
                    (session (fst (update_memory memory_id
                                     (unlock_date_only new_unlock_date) w)))).
  { rewrite Hsess. unfold get_memory_by_id, load_memories in Hnew. cbn [snd] in Hnew.
    apply find_some in Hnew. unfold stored. tauto. }
  unfold locked, dict_update, unlock_date_only. cbn [mem_unlock_date from_option].
  rewrite leb_ltb.
  destruct (String.eqb_spec new_unlock_date EmptyString) as [->|Hne];
    destruct (String.ltb current_date _); cbn; split; intros H; try tauto;
    try (destruct H as [_ H]; discriminate H); try (destruct H as [H|H]; [congruence|discriminate H]).
Qed.

Lemma update_memory_unlock_date_reschedules_witness :
  let w := {| data_dir := true; file := Some [sunny_day; capsule];
              session := [sunny_day; capsule]; dumps := 2%nat |} in
  let w' := fst (update_memory_unlock_date 3 "2024-07-01" w) in
  exists old rescheduled : memory,
    snd (get_memory_by_id 3 w) = Some old
    /\ snd (get_memory_by_id 3 w') = Some rescheduled
    /\ mem_unlock_date rescheduled = Some "2024-07-01"
    /\ (mem_id rescheduled, mem_text rescheduled, mem_date rescheduled,
        mem_emotion rescheduled, mem_people rescheduled, mem_location rescheduled,
        mem_topics rescheduled, mem_context rescheduled, mem_embedding rescheduled,
        mem_is_time_capsule rescheduled, mem_relevance_score rescheduled)
       = (mem_id old, mem_text old, mem_date old, mem_emotion old, mem_people old,
          mem_location old, mem_topics old, mem_context old, mem_embedding old,
          mem_is_time_capsule old, mem_relevance_score old)
    /\ (In rescheduled (mind_map_input "2024-12-01T08:00:00.000000" (session w'))
        <-> "2024-07-01" = EmptyString
            \/ String.leb "2024-07-01" "2024-12-01T08:00:00.000000" = true).
Proof.
  cbv zeta.
  apply (update_memory_unlock_date_reschedules 3 "2024-07-01"
           "2024-12-01T08:00:00.000000"
           {| data_dir := true; file := Some [sunny_day; capsule];
              session := [sunny_day; capsule]; dumps := 2%nat |}).
  right. left. reflexivity.
Defined.

(** ** [truncate_text] *)

Lemma length_take (n : nat) (s : string) :
  String.length (take n s) = Nat.min n (String.length s).
Proof.
  revert s. induction n as [|n IH]; intros s; [reflexivity|].
  destruct s as [|c s]; [reflexivity|]. cbn [take String.length Nat.min].
  now rewrite IH.
Qed.

Lemma length_append (s t : string) :
  String.length (s +:+ t) = (String.length s + String.length t)%nat.
Proof.
  induction s as [|c s IH]; [reflexivity|].
  rewrite append_cons. cbn [String.length]. now rewrite IH.
Qed.

Lemma take_append_exact (n : nat) (s t : string) :
  (n <= String.length s)%nat -> take n (take n s +:+ t) = take n s.
Proof.
  revert s. induction n as [|n IH]; intros s Hn; [reflexivity|].
  destruct s as [|c s]; [simpl in Hn; lia|].
  cbn [take]. rewrite append_cons. cbn [take]. f_equal. apply IH.
  simpl in Hn. lia.
Qed.

Lemma truncate_text_nonneg (text : string) (max_length : Z) :
  0 <= max_length ->
  truncate_text text max_length
  = if (Z.to_nat max_length <? String.length text)%nat
    then take (Z.to_nat max_length) text +:+ "..."
    else text.
Proof.
  intros Hmax. unfold truncate_text, slice_to.
  assert (Hpos : (0 <=? max_length) = true) by (apply Z.leb_le; lia).
  rewrite Hpos.
  destruct (Z.ltb_spec max_length (Z.of_nat (String.length text))),
    (Nat.ltb_spec (Z.to_nat max_length) (String.length text)); try reflexivity; lia.
Qed.

(** X7.  [truncate_text] with a non-negative limit returns a text within
    the limit unchanged, and otherwise the first [max_length] characters
    followed by three dots, so that the result has [max_length + 3]
    characters (more than a text one or two characters over the limit had);
    truncating the result again changes nothing. *)
Theorem truncate_text_limit (text : string) (max_length : Z) :
  0 <= max_length ->
  let cut := Z.to_nat max_length in
  let short := truncate_text text max_length in
  String.length short
  = (if (cut <? String.length text)%nat then cut + 3 else String.length text)%nat
  /\ take cut short = take cut text
  /\ (if (cut <? String.length text)%nat then short = take cut text +:+ "..."
      else short = text)
  /\ truncate_text short max_length = short.
Proof.
  intros Hmax. cbv zeta. rewrite (truncate_text_nonneg text) by assumption.
  destruct (Nat.ltb_spec (Z.to_nat max_length) (String.length text)) as [Hlong|Hshort].
  - assert (Hlen : String.length (take (Z.to_nat max_length) text +:+ "...")
                   = (Z.to_nat max_length + 3)%nat).
    { rewrite length_append, length_take. simpl. lia. }
    split; [assumption|].
    split; [apply take_append_exact; lia|]. split; [reflexivity|].
    rewrite truncate_text_nonneg by assumption. rewrite Hlen.
    assert (Hagain : (Z.to_nat max_length <? Z.to_nat max_length + 3)%nat = true)
      by (apply Nat.ltb_lt; lia).
    rewrite Hagain, take_append_exact by lia. reflexivity.
  - split; [reflexivity|]. split; [reflexivity|]. split; [reflexivity|].
    rewrite truncate_text_nonneg by assumption.
    assert (Hagain : (Z.to_nat max_length <? String.length text)%nat = false)
      by (apply Nat.ltb_ge; lia).
    now rewrite Hagain.
Qed.

Lemma truncate_text_limit_witness :
  let cut := Z.to_nat 5 in
  let short := truncate_text "memory vault" 5 in
  String.length short
  = (if (cut <? String.length "memory vault")%nat then cut + 3
     else String.length "memory vault")%nat
  /\ take cut short = take cut "memory vault"
  /\ (if (cut <? String.length "memory vault")%nat
      then short = take cut "memory vault" +:+ "..."
      else short = "memory vault")
  /\ truncate_text short 5 = short.
Proof.
  cbv zeta. apply (truncate_text_limit "memory vault" 5). lia.
Defined.

Example truncate_text_samples :
  truncate_text "memory vault" 5 = "memor..."
  /\ truncate_text "memory" 5 = "memor..."
  /\ truncate_text "vault" 5 = "vault"
  /\ truncate_text "memory vault" (-6) = "memory...".
Proof. repeat split. Qed.

(** ** The two keyword classifiers and the offline extractor *)

Lemma count_keywords_nonneg (txt : string) (keywords : list string) :
  0 <= count_keywords txt keywords.
Proof. rewrite count_keywords_presence. apply presence_total_nonneg. Qed.

Lemma count_keywords_zero (txt : string) (keywords : list string) :
  count_keywords txt keywords = 0
  <-> existsb (fun keyword => Str.contains keyword txt) keywords = false.
Proof. rewrite count_keywords_presence. apply presence_total_zero. Qed.

Lemma max_ge_elem (l : list Z) (a x : Z) : In x l -> x <= fold_right Z.max a l.
Proof.
  induction l as [|y l IH]; [intros []|]. cbn [fold_right].
  intros [->|Hin]; [lia|]. specialize (IH Hin). lia.
Qed.

(** Either no keyword of the table occurs and the answer is Neutral, or the
    answer is the label of a category one of whose keywords occurs. *)
Lemma dominant_label_cases (table : list (string * list string)) (txt : string) :
  (no_keyword table txt = true /\ dominant_label table txt = "Neutral")
  \/ (exists item, In item table
        /\ existsb (fun keyword => Str.contains keyword txt) (snd item) = true
        /\ dominant_label table txt = fst item).
Proof.
  unfold dominant_label.
  set (score := fun item : string * list string =>
                  let '(emotion, keywords) := item in
                  (emotion, count_keywords txt keywords)).
  destruct (existsb _ (map score table)) eqn:Hany.
  - right. apply existsb_exists in Hany. destruct Hany as [hit [Hhit Hnz]].
    apply negb_true_iff, Z.eqb_neq in Hnz.
    destruct (map score table) as [|first others] eqn:Hscores; [destruct Hhit|].
    pose proof (max_by_first snd others first) as Hfind.
    apply find_some in Hfind. destruct Hfind as [Hin Hmax]. apply Z.eqb_eq in Hmax.
    rewrite <- Hscores in Hin, Hhit. apply in_map_iff in Hin, Hhit.
    destruct Hin as [[label keywords] [Hbest Hin]].
    destruct Hhit as [[label' keywords'] [Hhit Hin']].
    exists (label, keywords). split; [assumption|]. cbn [fst snd].
    split; [|now rewrite <- Hbest].
    assert (Hpos : 0 < snd hit).
    { rewrite <- Hhit in *. cbn [score snd] in *.
      pose proof (count_keywords_nonneg txt keywords'). lia. }
    assert (Hle : snd hit <= fold_right Z.max (snd first) (map snd others)).
    { assert (Hmem : In hit (first :: others))
        by (rewrite <- Hscores; apply in_map_iff; now exists (label', keywords')).
      destruct Hmem as [<-|Hmem]; [apply max_ge_init|].
      apply max_ge_elem. apply in_map_iff. now exists hit. }
    rewrite <- Hbest in Hmax. cbn [score snd] in Hmax.
    destruct (existsb _ keywords) eqn:Hex; [reflexivity|].
    apply count_keywords_zero in Hex. lia.
  - left. split; [|reflexivity]. unfold no_keyword. apply forallb_forall.
    intros [label keywords] Hin. cbn [snd]. apply negb_true_iff.
    apply count_keywords_zero.
    destruct (Z.eq_dec (count_keywords txt keywords) 0) as [Hz|Hnz]; [assumption|].
    assert (Ht : existsb (fun item => negb (snd item =? 0)) (map score table) = true);
      [|congruence].
    apply existsb_exists. exists (label, count_keywords txt keywords).
    split; [apply in_map_iff; now exists (label, keywords)|].
    cbn [snd]. now apply negb_true_iff, Z.eqb_neq.
Qed.

Lemma dominant_label_neutral_iff (table : list (string * list string)) (txt : string) :
  (forall item, In item table -> fst item = "Neutral" -> snd item = []) ->
  dominant_label table txt = "Neutral" <-> no_keyword table txt = true.
Proof.
  intros Htable.
  destruct (dominant_label_cases table txt) as [[Hno ->]|[item [Hin [Hex Heq]]]];
    [tauto|].
  assert (Hsome : no_keyword table txt = false).
  { destruct (no_keyword table txt) eqn:Hno; [|reflexivity].
    unfold no_keyword in Hno. rewrite forallb_forall in Hno.
    specialize (Hno item Hin). rewrite Hex in Hno. discriminate. }
  rewrite Heq, Hsome. split; [|discriminate].
  intros Hlabel. rewrite (Htable item Hin Hlabel) in Hex. discriminate.
Qed.

(** X8.  Without the service, [analyze_emotion] always answers one of the
    fourteen labels of its table, and answers Neutral exactly when no keyword
    of any category occurs in the lowercased text. *)
Theorem analyze_emotion_offline (text : string) :
  In (analyze_emotion None text) (map fst analysis_emotions)
  /\ (analyze_emotion None text = "Neutral"
      <-> no_keyword analysis_emotions (Str.lower text) = true).
Proof.
  change (analyze_emotion None text)
    with (dominant_label analysis_emotions (Str.lower text)).
  split.
  - destruct (dominant_label_cases analysis_emotions (Str.lower text))
      as [[_ ->]|[item [Hin [_ ->]]]].
    + do 13 right. left. reflexivity.
    + apply in_map_iff. now exists item.
  - apply dominant_label_neutral_iff. intros item Hin Hlabel.
    repeat (destruct Hin as [<-|Hin]; [first [reflexivity|discriminate Hlabel]|]).
    destruct Hin.
Qed.

Lemma firstn_In {A : Type} (n : nat) (l : list A) (x : A) :
  In x (firstn n l) -> In x l.
Proof.
  revert l. induction n as [|n IH]; intros l; [intros []|].
  destruct l as [|y l]; [intros []|]. cbn [firstn].
  intros [->|Hin]; [now left|right; now apply IH].
Qed.

Lemma location_loop_short (text : string) (keywords : list string) :
  (String.length (location_loop text keywords) < 30)%nat.
Proof.
  induction keywords as [|keyword rest IH]; [simpl; lia|].
  cbn [location_loop].
  destruct (Str.contains _ _); [|assumption].
  destruct (1 <? length _)%nat; [|assumption].
  destruct (Nat.ltb_spec
              (String.length
                 (hd EmptyString
                    (Str.split ","
                       (hd EmptyString
                          (Str.split "."
                             (nth 1 (Str.split (" " +:+ keyword +:+ " ") text)
                                  EmptyString)))))) 30); assumption.
Qed.

(** X9.  Without the service, [process_memory] names no people, answers an
    emotion among the seven labels and Neutral (Neutral exactly when no
    emotion keyword occurs in the lowercased text), at most three topics,
    each the capitalised form of one of the twelve topic words, a location
    shorter than 30 characters, and a context that is empty exactly when no
    topic was found. *)
Theorem process_memory_offline (text : string) :
  let found := process_memory None text in
  pm_people_mentioned found = []
  /\ In (pm_emotion found) ("Neutral" :: map fst emotions)
  /\ (pm_emotion found = "Neutral" <-> no_keyword emotions (Str.lower text) = true)
  /\ (length (pm_topics found) <= 3)%nat
  /\ incl (pm_topics found) (map capitalize common_topics)
  /\ (String.length (pm_location found) < 30)%nat
  /\ (pm_context found = EmptyString <-> pm_topics found = []).
Proof.
  cbv zeta. cbn [process_memory pm_people_mentioned pm_emotion pm_topics
                 pm_location pm_context].
  change (basic_emotion_analysis text) with (dominant_label emotions (Str.lower text)).
  split; [reflexivity|]. split; [|split; [|split; [|split; [|split]]]].
  - destruct (dominant_label_cases emotions (Str.lower text))
      as [[_ ->]|[item [Hin [_ ->]]]]; [now left|].
    right. apply in_map_iff. now exists item.
  - apply dominant_label_neutral_iff. intros item Hin Hlabel.
    repeat (destruct Hin as [<-|Hin]; [discriminate Hlabel|]). destruct Hin.
  - unfold basic_topic_extraction. rewrite length_firstn. lia.
  - unfold basic_topic_extraction. intros topic Hin.
    apply firstn_In in Hin. apply in_map_iff in Hin.
    destruct Hin as [word [<- Hin]]. apply filter_In in Hin.
    apply in_map_iff. exists word. tauto.
  - apply location_loop_short.
  - destruct (basic_topic_extraction text); [tauto|]. split; discriminate.
Qed.

Example process_memory_beach :
  process_memory None "I was so happy at the beach with Maria"
  = {| pm_emotion := "Happy"; pm_topics := []; pm_context := EmptyString;
       pm_people_mentioned := []; pm_location := "the beach with Maria" |}.
Proof. reflexivity. Qed.

Example process_memory_topics :
  pm_topics (process_memory None "Family trip: travel, food, WORK and school")
  = ["Family"; "Work"; "School"].
Proof. reflexivity. Qed.

(** ** More on the keyword scorer and the sort *)

Lemma is_space_lower_char (c : ascii) :
  Str.is_space (Str.lower_char c) = Str.is_space c.
Proof. destruct c as [[] [] [] [] [] [] [] []]; reflexivity. Qed.

Lemma lower_blank (s : string) :
  forallb Str.is_space (list_ascii_of_string s) = true ->
  forallb Str.is_space (list_ascii_of_string (Str.lower s)) = true.
Proof.
  induction s as [|c s IH]; [reflexivity|].
  cbn [list_ascii_of_string Str.lower forallb]. rewrite is_space_lower_char.
  intros H. apply andb_true_iff in H. destruct H as [-> H]. now apply IH.
Qed.

Lemma split_ws_blank (s : string) :
  forallb Str.is_space (list_ascii_of_string s) = true -> Str.split_ws s = [].
Proof.
  unfold Str.split_ws. induction s as [|c s IH]; [reflexivity|].
  cbn [list_ascii_of_string forallb Str.split_ws_go].
  intros H. apply andb_true_iff in H. destruct H as [-> H]. now apply IH.
Qed.

(** X10.  A query without a word (empty, or white space only) makes
    [keyword_search] give every memory the score 0 and return the memories
    in the order it received them. *)
Theorem keyword_search_blank_query (query : string) (memories : list memory) :
  forallb Str.is_space (list_ascii_of_string query) = true ->
  keyword_search query memories = map (set_relevance_score (Int 0)) memories.
Proof.
  intros Hblank. unfold keyword_search.
  rewrite (split_ws_blank _ (lower_blank _ Hblank)).
  change (fun memory : memory =>
            set_relevance_score (Int (keyword_score [] memory)) memory)
    with (set_relevance_score (Int 0)).
  apply sorted_desc_fixes_descending. unfold descending.
  induction memories as [|m l IH]; cbn [map]; constructor; [assumption|].
  apply List.Forall_forall. intros m' Hin. apply in_map_iff in Hin.
  destruct Hin as [m0 [<- _]]. reflexivity.
Qed.

Lemma keyword_search_blank_query_witness :
  keyword_search "  " [rainy_day; sunny_day]
  = map (set_relevance_score (Int 0)) [rainy_day; sunny_day].
Proof.
  apply (keyword_search_blank_query "  " [rainy_day; sunny_day]). reflexivity.
Defined.

(** ** The hash-based embedding *)

Lemma sum_permuted (l1 l2 : list Z) (f : Z -> Z) :
  Permutation l1 l2 -> total (map f l1) = total (map f l2).
Proof. induction 1; cbn [map total]; lia. Qed.

Lemma pseudo_component_permuted (h1 h2 : list Z) (i : Z) :
  Permutation h1 h2 -> pseudo_component h1 i = pseudo_component h2 i.
Proof.
  intros Hp. unfold pseudo_component.
  rewrite !py_sum_total, !length_map.
  now rewrite (sum_permuted h1 h2 _ Hp), (Permutation_length Hp).
Qed.

Lemma filter_permuted {A : Type} (f : A -> bool) (l1 l2 : list A) :
  Permutation l1 l2 -> Permutation (List.filter f l1) (List.filter f l2).
Proof.
  induction 1 as [|x l1 l2 _ IH|x y l|l1 l2 l3 _ IH1 _ IH2]; cbn [List.filter].
  - constructor.
  - destruct (f x); [now constructor|assumption].
  - destruct (f x), (f y); try reflexivity. apply perm_swap.
  - now transitivity (List.filter f l2).
Qed.

(** The arithmetic of one component on a single word: the hash 109 modulo
    110 gives 1.1800000000000002, a component above 1. *)
Example pseudo_component_above_one :
  pseudo_component [109] 1 = S754_finite false 5314247560297186 (-52)
  /\ number_lt (Float (Double.of_Q (118 # 100))) (Float (pseudo_component [109] 1))
     = true
  /\ pseudo_component [7; 12; 30] 0 = S754_finite true 6064847498192268 (-53)
  /\ Double.of_Q (-6733333333333333 # 10000000000000000)
     = S754_finite true 6064847498192268 (-53).
Proof. repeat split. Qed.

(** X11.  When the embedding service raises, [generate_memory_embedding]
    answers with a vector of exactly ten components, whatever the text. *)
Theorem generate_memory_embedding_fallback_length (c : client) (text : string) :
  embeddings_create c text = None ->
  length (generate_memory_embedding c text) = 10%nat.
Proof.
  intros Hraise. unfold generate_memory_embedding. rewrite Hraise.
  apply pseudo_embedding_length.
Qed.

Lemma generate_memory_embedding_fallback_length_witness :
  length (generate_memory_embedding offline "Dog bites man") = 10%nat.
Proof.
  apply (generate_memory_embedding_fallback_length offline "Dog bites man").
  reflexivity.
Defined.

(** X12.  The hash-based embedding sees a text as a bag of lowercased words:
    two texts whose words are the same up to order, case and white space get
    the same vector, and a text without a word gets ten zeros. *)
Theorem pseudo_embedding_bag_of_words (c : client) (text1 text2 : string) :
  Permutation (Str.split_ws (Str.lower text1)) (Str.split_ws (Str.lower text2)) ->
  pseudo_embedding c text1 = pseudo_embedding c text2
  /\ (Str.split_ws (Str.lower text1) = [] ->
      pseudo_embedding c text1 = repeat Double.zero 10).
Proof.
  intros Hp. split; [|intros Hnil; unfold pseudo_embedding; now rewrite Hnil].
  unfold pseudo_embedding.
  assert (Hh : Permutation
                 (map (md5_int c)
                      (List.filter (fun word => negb (String.eqb word EmptyString))
                                   (Str.split_ws (Str.lower text1))))
                 (map (md5_int c)
                      (List.filter (fun word => negb (String.eqb word EmptyString))
                                   (Str.split_ws (Str.lower text2)))))
    by (apply Permutation_map, filter_permuted, Hp).
  destruct (map (md5_int c) _) as [|a1 h1] eqn:H1 in Hh |- *;
    destruct (map (md5_int c) _) as [|a2 h2] eqn:H2 in Hh |- *.
  - reflexivity.
  - apply Permutation_nil in Hh. discriminate.
  - symmetry in Hh. apply Permutation_nil in Hh. discriminate.
  - rewrite !length_map. f_equal.
    apply map_ext. intros i. now apply pseudo_component_permuted.
Qed.

Lemma pseudo_embedding_bag_of_words_witness :
  pseudo_embedding offline "Dog bites  man" = pseudo_embedding offline "man BITES dog"
  /\ pseudo_embedding offline " " = repeat Double.zero 10.
Proof.
  split.
  - apply (proj1 (pseudo_embedding_bag_of_words offline
                    "Dog bites  man" "man BITES dog"
                    ltac:(vm_compute; apply perm_skip || idtac;
                          apply (Permutation_rev ["dog"; "bites"; "man"])))).
  - apply (proj2 (pseudo_embedding_bag_of_words offline " " " "
                    (Permutation_refl _))).
    reflexivity.
Defined.

(** ** More on similarity and on what recall returns *)

Lemma double_mul_comm (x y : float) : Double.mul x y = Double.mul y x.
Proof.
  unfold Double.mul, SFmul.
  destruct x as [sx|sx| |sx mx ex], y as [sy|sy| |sy my ey];
    try reflexivity; try (now rewrite xorb_comm).
  now rewrite xorb_comm, Pos.mul_comm, Z.add_comm.
Qed.

Lemma products_comm (u v : list float) :
  map (fun ab => Double.mul (fst ab) (snd ab)) (combine u v)
  = map (fun ab => Double.mul (fst ab) (snd ab)) (combine v u).
Proof.
  revert v. induction u as [|a u IH]; intros [|b v]; try reflexivity.
  cbn [combine map fst snd]. now rewrite IH, double_mul_comm.
Qed.

(** X13.  The similarity ignores the components of the longer vector beyond
    the length of the shorter one, whichever of the two is longer, and does
    not depend on the order of its two arguments. *)
Theorem similarity_truncates (u v extra : list float) :
  (length u <= length v)%nat ->
  similarity u (v ++ extra) = similarity u v
  /\ similarity (v ++ extra) u = similarity v u
  /\ similarity u v = similarity v u.
Proof.
  intros Hlen. unfold similarity.
  rewrite !length_app.
  replace (Nat.min (length u) (length v + length extra)) with (length u) by lia.
  replace (Nat.min (length v + length extra) (length u)) with (length u) by lia.
  replace (Nat.min (length u) (length v)) with (length u) by lia.
  replace (Nat.min (length v) (length u)) with (length u) by lia.
  rewrite !firstn_app.
  replace (length u - length v)%nat with 0%nat by lia.
  cbn [firstn]. rewrite !app_nil_r.
  split; [reflexivity|]. split; [reflexivity|].
  now rewrite products_comm.
Qed.

Lemma similarity_truncates_witness :
  similarity [Double.of_Q (1 # 10); Double.of_Q 2]
             ([Double.of_Q 3; Double.of_Q (4 # 10)] ++ [Double.of_Q 5])
  = similarity [Double.of_Q (1 # 10); Double.of_Q 2]
               [Double.of_Q 3; Double.of_Q (4 # 10)]
  /\ similarity ([Double.of_Q 3; Double.of_Q (4 # 10)] ++ [Double.of_Q 5])
                [Double.of_Q (1 # 10); Double.of_Q 2]
     = similarity [Double.of_Q 3; Double.of_Q (4 # 10)]
                  [Double.of_Q (1 # 10); Double.of_Q 2]
  /\ similarity [Double.of_Q (1 # 10); Double.of_Q 2]
                [Double.of_Q 3; Double.of_Q (4 # 10)]
     = similarity [Double.of_Q 3; Double.of_Q (4 # 10)]
                  [Double.of_Q (1 # 10); Double.of_Q 2].
Proof.
  apply (similarity_truncates [Double.of_Q (1 # 10); Double.of_Q 2]
           [Double.of_Q 3; Double.of_Q (4 # 10)] [Double.of_Q 5]).
  simpl. lia.
Defined.

Lemma forget_set_relevance_score (s : number) (m : memory) :
  forget_score (set_relevance_score s m) = forget_score m.
Proof. reflexivity. Qed.

Lemma last_with_id_found (i : option Z) (l : list memory) (m : memory) :
  last_with_id i l = Some m -> In m l /\ mem_id m = i.
Proof.
  unfold last_with_id. intros Hlast.
  apply last_Some_elem_of, list_elem_of_In, filter_In in Hlast.
  destruct Hlast as [Hin Hid]. now apply bool_decide_eq_true in Hid.
Qed.

Lemma rank_by_embedding_from (query_embedding : list float) (l : list memory)
  (m : memory) :
  In m (rank_by_embedding query_embedding l) ->
  In (forget_score m) (map forget_score l).
Proof.
  unfold rank_by_embedding.
  destruct query_embedding as [|q0 qs]; [apply in_map|].
  destruct l as [|m0 l0]; [apply in_map|].
  intros Hin.
  apply (Permutation_in _ (sorted_desc_perm relevance_key _)) in Hin.
  apply in_map_iff in Hin. destruct Hin as [x [<- Hx]].
  unfold score_by_embedding.
  destruct (mem_embedding x) as [[|e es]|]; rewrite forget_set_relevance_score;
    now apply in_map.
Qed.

Lemma filter_by_params_incl (sp : search_params) (memories : list memory) :
  incl (filter_by_params sp memories) memories.
Proof.
  unfold filter_by_params. intros m Hin.
  destruct (sp_locations sp) as [[|? ?]|];
    try (apply filter_In in Hin; destruct Hin as [Hin _]);
    destruct (sp_people sp) as [[|? ?]|];
    try (apply filter_In in Hin; destruct Hin as [Hin _]);
    destruct (sp_emotions sp) as [[|? ?]|];
    try (apply filter_In in Hin; destruct Hin as [Hin _]);
    exact Hin.
Qed.

Lemma basic_filter_incl (query : string) (memories : list memory) :
  incl (basic_filter query memories) memories.
Proof.
  unfold basic_filter. intros m Hin.
  destruct (List.find _ common_emotions); [|exact Hin].
  apply filter_In in Hin. tauto.
Qed.

Lemma filtered_set_from (c : client) (query : string) (memories : list memory)
  (m : memory) :
  In m (filtered_set c query memories) ->
  In (forget_score m) (map forget_score memories).
Proof.
  unfold filtered_set. intros Hin. apply rank_by_embedding_from in Hin.
  apply in_map_iff in Hin. destruct Hin as [x [<- Hx]]. apply in_map.
  destruct (chat_search_params c query);
    [now apply filter_by_params_incl in Hx|now apply basic_filter_incl in Hx].
Qed.

Lemma rerank_from (ranked_ids : list (option Z)) (l : list memory) (m : memory) :
  In m (rerank ranked_ids l) -> In m l.
Proof.
  rewrite rerank_stated. intros Hin. apply in_app_or in Hin.
  destruct Hin as [Hin|Hin].
  - apply list_elem_of_In, list_elem_of_omap in Hin.
    destruct Hin as [i [_ Hlast]]. now apply last_with_id_found in Hlast.
  - apply filter_In in Hin. tauto.
Qed.

(** X14.  [recall_memories] never returns a memory it was not given: apart
    from the relevance score, every memory of the result is one of the
    collection passed in. *)
Theorem recall_memories_returns_given_memories
  (c : client) (query : string) (memories : list memory) :
  match recall_memories c query memories with
  | Ok found => incl (map forget_score found) (map forget_score memories)
  | Raise => False
  end.
Proof.
  rewrite recall_memories_cases. intros x Hin.
  apply in_map_iff in Hin. destruct Hin as [m [<- Hin]].
  destruct (filtered_set c query memories) as [|f fs] eqn:Hf.
  - rewrite keyword_search_unfold in Hin.
    apply (Permutation_in _ (sorted_desc_perm relevance_key _)) in Hin.
    apply in_map_iff in Hin. destruct Hin as [m0 [<- Hm0]].
    unfold annotate. rewrite forget_set_relevance_score. now apply in_map.
  - rewrite <- Hf in *.
    destruct (chat_final_ranking c query _) as [ranked_ids|].
    + apply rerank_from in Hin. now apply (filtered_set_from c query).
    + now apply (filtered_set_from c query).
Qed.






Lemma partition_permutation {A : Type} (f : A -> bool) (l : list A) :
  Permutation (List.filter f l ++ List.filter (fun x => negb (f x)) l) l.
Proof.
  induction l as [|x l IH]; [constructor|]. cbn [List.filter].
  destruct (f x); cbn [negb app].
  - now constructor.
  - rewrite <- Permutation_middle. now constructor.
Qed.

Lemma ranked_part_NoDup (ids : list (option Z)) (l : list memory) :
  NoDup ids -> NoDup (omap (fun i => last_with_id i l) ids).
Proof.
  induction ids as [|i ids IH]; intros Hnd; [constructor|].
  apply NoDup_cons in Hnd. destruct Hnd as [Hi Hnd].
  cbn [omap list_omap]. destruct (last_with_id i l) as [m|] eqn:Hm; [|now apply IH].
  apply NoDup_cons. split; [|now apply IH].
  intros Hin. apply list_elem_of_omap in Hin. destruct Hin as [j [Hj Hlast]].
  apply last_with_id_found in Hm, Hlast. apply Hi.
  destruct Hm as [_ <-], Hlast as [_ Heq]. now rewrite Heq.
Qed.

Lemma filter_NoDup {A : Type} (f : A -> bool) (l : list A) :
  NoDup l -> NoDup (List.filter f l).
Proof.
  induction l as [|x l IH]; intros Hnd; [constructor|].
  apply NoDup_cons in Hnd. destruct Hnd as [Hx Hnd]. cbn [List.filter].
  destruct (f x); [|now apply IH].
  apply NoDup_cons. split; [|now apply IH].
  intros Hin. apply Hx. apply list_elem_of_In. apply list_elem_of_In in Hin.
  apply filter_In in Hin. tauto.
Qed.

(** With distinct ids on both sides, the re-ranking only reorders. *)
Lemma rerank_permutation (ranked_ids : list (option Z)) (l : list memory) :
  NoDup (map mem_id l) -> NoDup ranked_ids -> Permutation (rerank ranked_ids l) l.
Proof.
  intros Hl Hids. rewrite rerank_stated.
  etransitivity;
    [|apply (partition_permutation (fun m => bool_decide (mem_id m ∈ ranked_ids)) l)].
  apply Permutation_app; [|reflexivity].
  assert (Hlnd : NoDup l) by (now apply NoDup_fmap_1 in Hl).
  apply NoDup_Permutation.
  - now apply ranked_part_NoDup.
  - now apply filter_NoDup.
  - intros m. rewrite list_elem_of_omap. split.
    + intros [i [Hi Hlast]]. apply last_with_id_found in Hlast.
      destruct Hlast as [Hin <-]. apply list_elem_of_In, filter_In.
      split; [assumption|now apply bool_decide_eq_true].
    + intros Hin. apply list_elem_of_In, filter_In in Hin.
      destruct Hin as [Hin Hid]. apply bool_decide_eq_true in Hid.
      exists (mem_id m). split; [assumption|].
      now apply last_with_id_unique.
Qed.

(** X16.  When the ranking call succeeds with a list of ids without repeats
    over a filtered set whose ids are pairwise distinct, [recall_memories]
    returns a rearrangement of the filtered set: no memory is lost and none
    is returned twice. *)
Theorem recall_memories_reranking_rearranges
  (c : client) (query : string) (memories : list memory)
  (ranked_ids : list (option Z)) :
  filtered_set c query memories <> [] ->
  chat_final_ranking c query (ranking_payload (filtered_set c query memories))
  = Some ranked_ids ->
  NoDup ranked_ids ->
  NoDup (map mem_id (filtered_set c query memories)) ->
  exists found,
    recall_memories c query memories = Ok found
    /\ Permutation found (filtered_set c query memories).
Proof.
  intros Hne Hrank Hids Hl. rewrite recall_memories_cases, Hrank.
  destruct (filtered_set c query memories) as [|f fs] eqn:Hf; [congruence|].
  eexists. split; [reflexivity|]. now apply rerank_permutation.
Qed.

Lemma recall_memories_reranking_rearranges_witness :
  exists found,
    recall_memories online "sea" [sunny_day; rainy_day; capsule] = Ok found
    /\ Permutation found (filtered_set online "sea" [sunny_day; rainy_day; capsule]).
Proof.
  apply (recall_memories_reranking_rearranges online "sea"
           [sunny_day; rainy_day; capsule] [Some 2; Some 9; Some 1]).
  - vm_compute. discriminate.
  - reflexivity.
  - repeat (apply NoDup_cons; split;
            [intros H; repeat (apply elem_of_cons in H; destruct H as [H|H];
                               [discriminate H|]);
             now apply not_elem_of_nil in H|]).
    constructor.
  - vm_compute.
    repeat (apply NoDup_cons; split;
            [intros H; repeat (apply elem_of_cons in H; destruct H as [H|H];
                               [discriminate H|]);
             now apply not_elem_of_nil in H|]).
    constructor.
Defined.

(** A repeated id in the ranking returns its memory twice. *)
Example repeated_id_repeats_memory :
  map mem_id (rerank [Some 1; Some 1] [sunny_day; rainy_day])
  = [Some 1; Some 1; Some 2].
Proof. vm_compute. reflexivity. Qed.

(** Two memories under one id: the earlier one is dropped by the ranking. *)
Example shared_id_loses_memory :
  map mem_text (rerank [Some 1] [sunny_day; set_id 1 rainy_day])
  = [Some "Missed the bus in the rain"].
Proof. vm_compute. reflexivity. Qed.

(** ** The Time Capsule tab and the sidebar *)

Lemma ascii_compare_trans_le (a b c : ascii) :
  Ascii.compare a b <> Gt -> Ascii.compare b c <> Gt -> Ascii.compare a c <> Gt.
Proof.
  unfold Ascii.compare. intros H1 H2.
  apply N.compare_le_iff. apply N.compare_le_iff in H1, H2.
  now apply N.le_trans with (N_of_ascii b).
Qed.

Lemma ascii_compare_lt_le (a b c : ascii) :
  Ascii.compare a b = Lt -> Ascii.compare b c <> Gt -> Ascii.compare a c = Lt.
Proof.
  unfold Ascii.compare. intros H1 H2.
  apply N.compare_lt_iff. apply N.compare_lt_iff in H1. apply N.compare_le_iff in H2.
  now apply N.lt_le_trans with (N_of_ascii b).
Qed.

Lemma string_compare_trans_le (s t u : string) :
  String.compare s t <> Gt -> String.compare t u <> Gt -> String.compare s u <> Gt.
Proof.
  revert t u. induction s as [|a s IH]; intros [|b t] [|c u]; cbn [String.compare];
    try congruence.
  destruct (Ascii.compare a b) eqn:Hab; [|destruct (Ascii.compare b c) eqn:Hbc|congruence].
  - apply Ascii.compare_eq_iff in Hab. subst b.
    destruct (Ascii.compare a c); [apply IH|congruence|congruence].
  - apply Ascii.compare_eq_iff in Hbc. subst c. rewrite Hab. congruence.
  - intros _ _.
    rewrite (ascii_compare_lt_le a b c Hab) by (rewrite Hbc; discriminate).
    discriminate.
  - congruence.
Qed.

Lemma leb_trans (s t u : string) :
  String.leb s t = true -> String.leb t u = true -> String.leb s u = true.
Proof.
  unfold String.leb. intros Hst Htu.
  pose proof (string_compare_trans_le s t u) as Htrans.
  destruct (String.compare s t), (String.compare t u), (String.compare s u);
    try reflexivity; try discriminate Hst; try discriminate Htu;
    exfalso; apply Htrans; congruence.
Qed.

Section SortingAscendingFacts.
Context {A : Type} (key : A -> string).

Lemma insert_asc_perm (x : A) (l : list A) :
  Permutation (insert_asc key x l) (x :: l).
Proof.
  induction l as [|y l IH]; cbn [insert_asc]; [reflexivity|].
  destruct (String.ltb (key y) (key x)); [|reflexivity].
  rewrite IH. apply perm_swap.
Qed.

Lemma sorted_asc_perm (l : list A) : Permutation (sorted_asc key l) l.
Proof.
  induction l as [|x l IH]; cbn [sorted_asc foldr]; [reflexivity|].
  rewrite insert_asc_perm. now constructor.
Qed.

Lemma insert_asc_sorted (x : A) (l : list A) :
  StronglySorted (fun a b => String.leb (key a) (key b) = true) l ->
  StronglySorted (fun a b => String.leb (key a) (key b) = true) (insert_asc key x l).
Proof.
  induction l as [|y l IH]; intros Hs; cbn [insert_asc].
  - constructor; constructor.
  - inversion Hs as [|? ? Hl Hall]; subst.
    destruct (String.ltb (key y) (key x)) eqn:Hyx.
    + constructor; [now apply IH|].
      eapply Permutation_Forall; [symmetry; apply insert_asc_perm|].
      constructor; [|assumption].
      rewrite leb_ltb. destruct (String.ltb (key x) (key y)) eqn:Hxy; [|reflexivity].
      unfold String.ltb in Hyx, Hxy. rewrite String.compare_antisym in Hxy.
      destruct (String.compare (key y) (key x)); discriminate.
    + assert (Hxy : String.leb (key x) (key y) = true) by now rewrite leb_ltb, Hyx.
      constructor; [assumption|]. constructor; [assumption|].
      eapply List.Forall_impl; [|exact Hall].
      intros b Hb. simpl in Hb. now apply leb_trans with (key y).
Qed.

Lemma sorted_asc_sorted (l : list A) :
  StronglySorted (fun a b => String.leb (key a) (key b) = true) (sorted_asc key l).
Proof.
  induction l as [|x l IH]; cbn [sorted_asc foldr]; [constructor|].
  now apply insert_asc_sorted.
Qed.

Lemma filter_sorted (f : A -> bool) (l : list A) :
  StronglySorted (fun a b => String.leb (key a) (key b) = true) l ->
  StronglySorted (fun a b => String.leb (key a) (key b) = true) (List.filter f l).
Proof.
  induction l as [|x l IH]; intros Hs; [constructor|].
  inversion Hs as [|? ? Hl Hall]; subst. cbn [List.filter].
  destruct (f x); [|now apply IH].
  constructor; [now apply IH|].
  apply List.Forall_forall. intros y Hy. apply filter_In in Hy.
  rewrite List.Forall_forall in Hall. now apply Hall.
Qed.

End SortingAscendingFacts.

Lemma filter_filter_and {A : Type} (f g : A -> bool) (l : list A) :
  List.filter f (List.filter g l) = List.filter (fun x => g x && f x) l.
Proof.
  induction l as [|x l IH]; [reflexivity|]. cbn [List.filter].
  destruct (g x); cbn [List.filter andb]; now rewrite IH.
Qed.

(** X17.  In the Time Capsule tab every capsule is listed in exactly one of
    the two groups, locked or unlocked, each group in ascending order of
    unlock date; the locked group holds the memories the sidebar counts as
    time capsules, and every capsule of the unlocked group is offered to the
    mind map. *)
Theorem time_capsule_tab_groups (current_date : string) (memories : list memory) :
  Permutation (locked_capsules current_date memories
               ++ unlocked_capsules current_date memories)
              (List.filter has_unlock_date memories)
  /\ StronglySorted (fun a b => String.leb (unlock_key a) (unlock_key b) = true)
                    (locked_capsules current_date memories)
  /\ StronglySorted (fun a b => String.leb (unlock_key a) (unlock_key b) = true)
                    (unlocked_capsules current_date memories)
  /\ Permutation (locked_capsules current_date memories)
                 (locked_memories current_date memories)
  /\ incl (unlocked_capsules current_date memories)
          (mind_map_input current_date memories).
Proof.
  unfold locked_capsules, unlocked_capsules, time_capsules.
  split; [|split; [|split; [|split]]].
  - rewrite <- (sorted_asc_perm unlock_key (List.filter has_unlock_date memories)) at 3.
    rewrite (filter_ext (fun tc => String.leb (unlock_key tc) current_date)
                        (fun tc => negb (String.ltb current_date (unlock_key tc))))
      by (intros tc; apply leb_ltb).
    apply partition_permutation.
  - apply filter_sorted, sorted_asc_sorted.
  - apply filter_sorted, sorted_asc_sorted.
  - rewrite (filter_permuted _ _ _ (sorted_asc_perm unlock_key _)).
    rewrite filter_filter_and. unfold locked_memories.
    erewrite filter_ext; [reflexivity|].
    intros m. unfold has_unlock_date, locked, unlock_key.
    now destruct (mem_unlock_date m).
  - intros m Hin. apply filter_In in Hin. destruct Hin as [Hin Hle].
    apply (Permutation_in _ (sorted_asc_perm unlock_key _)) in Hin.
    apply filter_In in Hin. destruct Hin as [Hin Hcap].
    unfold mind_map_input. apply available_memories_iff. split; [assumption|].
    unfold locked, unlock_key in *. destruct (mem_unlock_date m) as [d|]; [|reflexivity].
    rewrite leb_ltb in Hle. apply negb_true_iff in Hle. cbn in Hle.
    rewrite Hle. apply andb_false_r.
Qed.

(** X18.  Every memory is either offered to the mind map and the summaries
    or counted by the sidebar as a locked time capsule, never both: the two
    lists together are a rearrangement of the collection. *)
Theorem available_and_locked_partition (current_date : string)
  (memories : list memory) :
  Permutation (available_memories current_date memories
               ++ locked_memories current_date memories)
              memories
  /\ (length (mind_map_input current_date memories)
      + length (locked_memories current_date memories))%nat
     = length memories
  /\ forall m, In m (mind_map_input current_date memories) ->
               ~ In m (locked_memories current_date memories).
Proof.
  assert (Hp : Permutation (available_memories current_date memories
                            ++ locked_memories current_date memories) memories).
  { unfold available_memories, locked_memories.
    rewrite (filter_ext (locked current_date)
                        (fun m => negb (unlocked current_date m)))
      by (intros m; rewrite unlocked_not_locked; now destruct (locked current_date m)).
    apply partition_permutation. }
  split; [assumption|]. split.
  - unfold mind_map_input. rewrite <- length_app. now apply Permutation_length.
  - intros m Hin Hlocked. apply available_memories_iff in Hin.
    apply filter_In in Hlocked. destruct Hin as [_ Hf], Hlocked as [_ Ht]. congruence.
Qed.

(** ** Saving from the tabs *)

Lemma unlocked_set_id (current_date : string) (i : Z) (m : memory) :
  unlocked current_date (set_id i m) = unlocked current_date m.
Proof. reflexivity. Qed.

(** What a capture adds to the mind map's input. *)
Lemma capture_mind_map (draft : memory) (current_date : string) (w : world) :
  session w = stored w ->
  mind_map_input current_date (session (capture draft w))
  = mind_map_input current_date (session w)
    ++ (if unlocked current_date draft then [new_memory draft w] else []).
Proof.
  intros Hs. unfold capture, save_memory, load_memories, mind_map_input,
    available_memories.
  cbn [session file dump_and_publish ensure_data_directory default from_option id].
  rewrite List.filter_app, Hs. unfold stored. reflexivity.
Qed.

Lemma capture_locked (draft : memory) (current_date : string) (w : world) :
  session w = stored w ->
  locked_memories current_date (session (capture draft w))
  = locked_memories current_date (session w)
    ++ (if locked current_date draft then [new_memory draft w] else []).
Proof.
  intros Hs. unfold capture, save_memory, load_memories, locked_memories.
  cbn [session file dump_and_publish ensure_data_directory default from_option id].
  rewrite List.filter_app, Hs. unfold stored. reflexivity.
Qed.

(** X19.  A time capsule created in any state the application can reach
    leaves the mind map's input of the day as it was and is added to the
    locked memories; from the unlock date on, it is the last memory of the
    mind map's input.  It carries the text and the date given, and the
    location Time Capsule. *)
Theorem create_time_capsule_hidden_until_unlock
  (c : client) (reply : option extraction_reply)
  (time_capsule_text capsule_emotion capsule_unlock_date current_date later : string)
  (actions : list action) :
  time_capsule_text <> EmptyString ->
  capsule_unlock_date <> EmptyString ->
  String.ltb current_date capsule_unlock_date = true ->
  String.leb capsule_unlock_date later = true ->
  let w := run actions in
  let pressed := create_time_capsule_button c reply time_capsule_text capsule_emotion
                   capsule_unlock_date current_date w in
  snd pressed = true
  /\ mind_map_input current_date (session (fst pressed))
     = mind_map_input current_date (session w)
  /\ exists capsule_memory : memory,
       locked_memories current_date (session (fst pressed))
       = locked_memories current_date (session w) ++ [capsule_memory]
       /\ mind_map_input later (session (fst pressed))
          = mind_map_input later (session w) ++ [capsule_memory]
       /\ mem_text capsule_memory = Some time_capsule_text
       /\ mem_unlock_date capsule_memory = Some capsule_unlock_date
       /\ mem_location capsule_memory = Some "Time Capsule".
Proof.
  intros Htext Hdate Hnow Hlater. cbv zeta.
  pose proof (run_session_stored actions) as Hs.
  unfold create_time_capsule_button.
  destruct time_capsule_text as [|t0 ts] eqn:Ht; [congruence|]. rewrite <- Ht.
  cbn [fst snd].
  set (draft := {| mem_id := None; mem_text := Some time_capsule_text;
                   mem_unlock_date := Some capsule_unlock_date |}).
  assert (Heq : String.eqb capsule_unlock_date EmptyString = false)
    by now apply String.eqb_neq.
  assert (Hlocked : locked current_date draft = true).
  { unfold locked, draft. cbn [mem_unlock_date]. now rewrite Heq, Hnow. }
  assert (Hhidden : unlocked current_date draft = false)
    by (rewrite unlocked_not_locked, Hlocked; reflexivity).
  assert (Hshown : unlocked later draft = true).
  { unfold unlocked, draft. cbn [mem_unlock_date]. now rewrite Heq, Hlater. }
  split; [reflexivity|].
  split; [rewrite (capture_mind_map _ _ _ Hs), Hhidden; apply app_nil_r|].
  exists (new_memory draft (run actions)).
  split; [now rewrite (capture_locked _ _ _ Hs), Hlocked|].
  split; [now rewrite (capture_mind_map _ _ _ Hs), Hshown|].
  repeat split.
Qed.

Lemma create_time_capsule_hidden_until_unlock_witness :
  let w := run [Capture sunny_day] in
  let pressed := create_time_capsule_button offline None "See you in a year" "Hopeful"
                   "2025-06-03" "2024-06-03T09:00:00.000000" w in
  snd pressed = true
  /\ mind_map_input "2024-06-03T09:00:00.000000" (session (fst pressed))
     = mind_map_input "2024-06-03T09:00:00.000000" (session w)
  /\ exists capsule_memory : memory,
       locked_memories "2024-06-03T09:00:00.000000" (session (fst pressed))
       = locked_memories "2024-06-03T09:00:00.000000" (session w) ++ [capsule_memory]
       /\ mind_map_input "2025-06-03T00:00:00.000001" (session (fst pressed))
          = mind_map_input "2025-06-03T00:00:00.000001" (session w) ++ [capsule_memory]
       /\ mem_text capsule_memory = Some "See you in a year"
       /\ mem_unlock_date capsule_memory = Some "2025-06-03"
       /\ mem_location capsule_memory = Some "Time Capsule".
Proof.
  cbv zeta.
  apply (create_time_capsule_hidden_until_unlock offline None "See you in a year"
           "Hopeful" "2025-06-03" "2024-06-03T09:00:00.000000"
           "2025-06-03T00:00:00.000001" [Capture sunny_day]);
    first [discriminate|reflexivity].
Defined.

(** ** Names typed into the Capture tab *)

Lemma lstrip_no_leading_space (s : string) : no_leading_space (lstrip s).
Proof.
  induction s as [|c s IH]; [exact I|]. cbn [lstrip].
  destruct (Str.is_space c) eqn:Hc; [assumption|exact Hc].
Qed.

Lemma lstrip_fixed (s : string) : no_leading_space s -> lstrip s = s.
Proof. destruct s as [|c s]; [reflexivity|]. cbn. now intros ->. Qed.

Lemma rstrip_no_leading_space (s : string) :
  no_leading_space s -> no_leading_space (rstrip s).
Proof.
  destruct s as [|c s]; [exact id|]. cbn [no_leading_space rstrip].
  intros Hc. destruct (rstrip s); [now rewrite Hc|exact Hc].
Qed.

Lemma rstrip_fixed (s : string) : rstrip (rstrip s) = rstrip s.
Proof.
  induction s as [|c s IH]; [reflexivity|]. cbn [rstrip].
  destruct (rstrip s) as [|d r] eqn:Hr.
  - destruct (Str.is_space c) eqn:Hc; [reflexivity|]. cbn [rstrip]. now rewrite Hc.
  - change (rstrip (String c (String d r)))
      with (match rstrip (String d r) with
            | EmptyString =>
                if Str.is_space c then EmptyString else String c EmptyString
            | String d' r' => String c (String d' r')
            end).
    now rewrite IH.
Qed.

Lemma strip_fixed (s : string) : strip (strip s) = strip s.
Proof.
  unfold strip.
  rewrite (lstrip_fixed (rstrip (lstrip s)))
    by apply rstrip_no_leading_space, lstrip_no_leading_space.
  apply rstrip_fixed.
Qed.

Lemma commas_append (s t : string) : commas (s +:+ t) = (commas s + commas t)%nat.
Proof.
  induction s as [|c s IH]; [reflexivity|]. rewrite append_cons. cbn [commas].
  rewrite IH. lia.
Qed.

Lemma commas_lstrip (s : string) : (commas (lstrip s) <= commas s)%nat.
Proof.
  induction s as [|c s IH]; [reflexivity|]. cbn [lstrip].
  destruct (Str.is_space c); [cbn [commas]; lia|reflexivity].
Qed.

Lemma commas_rstrip (s : string) : (commas (rstrip s) <= commas s)%nat.
Proof.
  induction s as [|c s IH]; [reflexivity|]. cbn [rstrip].
  destruct (rstrip s) as [|d r].
  - destruct (Str.is_space c); cbn [commas] in *; lia.
  - cbn [commas] in *. lia.
Qed.

Lemma split_comma_pieces (s cur : string) :
  commas cur = 0%nat ->
  length (Str.split_go "," 0 cur s) = S (commas s)
  /\ Forall (fun piece => commas piece = 0%nat) (Str.split_go "," 0 cur s).
Proof.
  revert cur. induction s as [|c s IH]; intros cur Hcur.
  - cbn. split; [reflexivity|]. now constructor.
  - cbn [Str.split_go Str.starts_with String.length Nat.sub commas].
    rewrite andb_true_r.
    destruct (Ascii.eqb "," c) eqn:Hc.
    + destruct (IH EmptyString eq_refl) as [Hlen Hall].
      cbn [length]. split; [now rewrite Hlen|]. now constructor.
    + apply IH. rewrite commas_append. cbn [commas]. rewrite Hc. lia.
Qed.

(** X20.  The people field of the Capture tab, when not empty, yields one
    name more than it has commas (an empty name for every missing one), and
    every name comes out without a comma and without white space at either
    end. *)
Theorem parse_people_names (people_involved : string) :
  people_involved <> EmptyString ->
  length (parse_people people_involved) = S (commas people_involved)
  /\ Forall (fun name => commas name = 0%nat /\ strip name = name)
            (parse_people people_involved).
Proof.
  intros Hne. unfold parse_people.
  destruct people_involved as [|c s] eqn:Hp; [congruence|]. rewrite <- Hp.
  destruct (split_comma_pieces people_involved EmptyString eq_refl) as [Hlen Hall].
  fold (Str.split "," people_involved) in Hlen, Hall.
  split; [now rewrite length_map|].
  apply List.Forall_forall. intros name Hin. apply in_map_iff in Hin.
  destruct Hin as [piece [<- Hin]].
  rewrite List.Forall_forall in Hall. specialize (Hall piece Hin).
  split; [|apply strip_fixed].
  unfold strip. pose proof (commas_rstrip (lstrip piece)).
  pose proof (commas_lstrip piece). lia.
Qed.

Lemma parse_people_names_witness :
  length (parse_people " John,Lisa , ,Mom,") = S (commas " John,Lisa , ,Mom,")
  /\ Forall (fun name => commas name = 0%nat /\ strip name = name)
            (parse_people " John,Lisa , ,Mom,").
Proof.
  apply (parse_people_names " John,Lisa , ,Mom,"). discriminate.
Defined.

Example parse_people_sample :
  parse_people " John,Lisa , ,Mom,"
  = ["John"; "Lisa"; EmptyString; "Mom"; EmptyString]
  /\ parse_people EmptyString = [].
Proof. split; reflexivity. Qed.

(** ** The values of the template summary *)

Lemma counted_bump (key k : string) (counts : list (string * Z)) :
  counted (bump key counts) k
  = counted counts k + (if String.eqb key k then 1 else 0).
Proof.
  unfold counted. induction counts as [|[k0 n] rest IH]; cbn [bump List.find fst snd].
  - destruct (String.eqb key k); reflexivity.
  - destruct (String.eqb_spec k0 key) as [->|Hne]; cbn [List.find fst snd].
    + destruct (String.eqb key k); [reflexivity|lia].
    + destruct (String.eqb_spec k0 k) as [->|Hk]; [|exact IH].
      destruct (String.eqb_spec key k); [congruence|lia].
Qed.

Lemma counted_tally_from (keys : list string) (acc : list (string * Z)) (k : string) :
  counted (fold_left (fun counts key => bump key counts) keys acc) k
  = counted acc k + occurrences_of k keys.
Proof.
  revert acc. induction keys as [|key keys IH]; intros acc; cbn [fold_left occurrences_of].
  - lia.
  - rewrite IH, counted_bump. lia.
Qed.

(** The dict built by a counting loop holds, for every key, the number of
    times the loop met it. *)
Lemma counted_tally (keys : list string) (k : string) :
  counted (tally keys) k = occurrences_of k keys.
Proof. unfold tally. rewrite counted_tally_from. reflexivity. Qed.

Lemma bump_keys (key : string) (counts : list (string * Z)) :
  map fst (bump key counts)
  = if existsb (String.eqb key) (map fst counts) then map fst counts
    else map fst counts ++ [key].
Proof.
  induction counts as [|[k0 n] rest IH]; [reflexivity|].
  cbn [bump map fst existsb].
  rewrite (String.eqb_sym key k0).
  destruct (String.eqb k0 key); cbn [map fst orb]; [reflexivity|].
  rewrite IH. now destruct (existsb _ _).
Qed.

Lemma bump_keys_NoDup (key : string) (counts : list (string * Z)) :
  NoDup (map fst counts) -> NoDup (map fst (bump key counts)).
Proof.
  intros Hnd. rewrite bump_keys.
  destruct (existsb _ _) eqn:Hex; [assumption|].
  apply NoDup_app. split; [assumption|]. split; [|apply NoDup_singleton].
  intros x Hx Hkey. apply list_elem_of_singleton in Hkey. subst x.
  assert (Ht : existsb (String.eqb key) (map fst counts) = true); [|congruence].
  apply existsb_exists. exists key. split; [now apply list_elem_of_In|].
  apply String.eqb_refl.
Qed.

Lemma tally_keys_NoDup (keys : list string) : NoDup (map fst (tally keys)).
Proof.
  unfold tally.
  assert (Hgen : forall acc, NoDup (map fst acc) ->
             NoDup (map fst (fold_left (fun counts key => bump key counts) keys acc))).
  { induction keys as [|key keys IH]; intros acc Hacc; [assumption|].
    cbn [fold_left]. apply IH. now apply bump_keys_NoDup. }
  apply Hgen. constructor.
Qed.

Lemma counted_item (counts : list (string * Z)) (item : string * Z) :
  NoDup (map fst counts) -> In item counts -> counted counts (fst item) = snd item.
Proof.
  unfold counted. induction counts as [|x rest IH]; intros Hnd Hin; [destruct Hin|].
  cbn [map] in Hnd. apply NoDup_cons in Hnd. destruct Hnd as [Hx Hnd].
  cbn [List.find]. destruct (String.eqb_spec (fst x) (fst item)) as [Heq|Hne].
  - destruct Hin as [->|Hin]; [reflexivity|].
    exfalso. apply Hx. rewrite Heq. apply list_elem_of_In. now apply in_map.
  - destruct Hin as [->|Hin]; [congruence|]. now apply IH.
Qed.

Lemma counted_bound (counts : list (string * Z)) (k : string) (M : Z) :
  0 <= M -> (forall item, In item counts -> snd item <= M) -> counted counts k <= M.
Proof.
  intros HM Hall. unfold counted.
  destruct (List.find _ counts) as [item|] eqn:Hf; [|assumption].
  apply find_some in Hf. now apply Hall.
Qed.

Lemma occurrences_of_nonneg (k : string) (keys : list string) :
  0 <= occurrences_of k keys.
Proof.
  induction keys as [|x keys IH]; cbn [occurrences_of]; [lia|].
  destruct (String.eqb x k); lia.
Qed.

Lemma occurrences_of_positive (k : string) (keys : list string) :
  0 < occurrences_of k keys -> In k keys.
Proof.
  induction keys as [|x keys IH]; cbn [occurrences_of]; [lia|].
  destruct (String.eqb_spec x k) as [->|Hne]; [now left|].
  intros H. right. apply IH. lia.
Qed.

(** The item [max] picks carries the largest count of the dict. *)
Lemma max_by_largest (first : string * Z) (others : list (string * Z)) :
  In (max_by snd first others) (first :: others)
  /\ forall item, In item (first :: others) -> snd item <= snd (max_by snd first others).
Proof.
  pose proof (max_by_first snd others first) as Hfind.
  apply find_some in Hfind. destruct Hfind as [Hin Hmax]. apply Z.eqb_eq in Hmax.
  split; [assumption|]. intros item Hitem. rewrite Hmax.
  destruct Hitem as [<-|Hitem]; [apply max_ge_init|].
  apply max_ge_elem. now apply in_map.
Qed.

(** X21.  The dominant emotion of the template summary is an emotion of one
    of the memories summarised, and no emotion is recorded for more of them;
    a memory without emotion counts as Neutral. *)
Theorem dominant_emotion_most_frequent (memory_list : list memory) :
  memory_list <> [] ->
  let felt := map (fun memory => default "Neutral" (mem_emotion memory)) memory_list in
  In (dominant_emotion memory_list) felt
  /\ forall e : string,
       occurrences_of e felt <= occurrences_of (dominant_emotion memory_list) felt.
Proof.
  intros Hne. cbv zeta. unfold dominant_emotion, emotion_counts.
  set (felt := map (fun memory => default "Neutral" (mem_emotion memory)) memory_list).
  assert (Hfelt : exists e0 rest, felt = e0 :: rest).
  { destruct memory_list as [|m l]; [congruence|]. cbn. eauto. }
  destruct Hfelt as [e0 [rest Hfelt]].
  pose proof (counted_tally felt) as Hcount.
  pose proof (tally_keys_NoDup felt) as Hnd.
  destruct (tally felt) as [|first others] eqn:Ht.
  - specialize (Hcount e0). rewrite Hfelt in Hcount. cbn in Hcount.
    rewrite String.eqb_refl in Hcount.
    pose proof (occurrences_of_nonneg e0 rest). lia.
  - destruct (max_by_largest first others) as [Hin Hmax].
    set (best := max_by snd first others) in *.
    assert (Hbest : occurrences_of (fst best) felt = snd best)
      by (rewrite <- Hcount; now apply counted_item).
    assert (Hall : forall e, occurrences_of e felt <= snd best).
    { intros e. rewrite <- Hcount. apply counted_bound; [|assumption].
      specialize (Hmax first (or_introl eq_refl)).
      assert (Hf : counted (first :: others) (fst first) = snd first)
        by (apply counted_item; [assumption|now left]).
      rewrite Hcount in Hf. pose proof (occurrences_of_nonneg (fst first) felt). lia. }
    split; [|intros e; rewrite Hbest; apply Hall].
    apply occurrences_of_positive. rewrite Hbest.
    specialize (Hall e0). rewrite Hfelt in Hall at 1. cbn [occurrences_of] in Hall.
    rewrite String.eqb_refl in Hall.
    pose proof (occurrences_of_nonneg e0 rest). lia.
Qed.

Lemma dominant_emotion_most_frequent_witness :
  let felt := map (fun memory => default "Neutral" (mem_emotion memory))
                  [rainy_day; sunny_day; blank; sunny_day] in
  In (dominant_emotion [rainy_day; sunny_day; blank; sunny_day]) felt
  /\ forall e : string,
       occurrences_of e felt
       <= occurrences_of (dominant_emotion [rainy_day; sunny_day; blank; sunny_day]) felt.
Proof.
  cbv zeta.
  apply (dominant_emotion_most_frequent [rainy_day; sunny_day; blank; sunny_day]).
  discriminate.
Defined.

Example dominant_emotion_tie :
  dominant_emotion [rainy_day; sunny_day; blank; sunny_day; rainy_day] = "Sad"
  /\ dominant_emotion [] = "Neutral"
  /\ closing_phrase "Sad" = "challenges and growth"
  /\ closing_phrase "Curious" = "various experiences".
Proof. repeat split. Qed.

Lemma bump_positive (key : string) (counts : list (string * Z)) :
  Forall (fun item => 0 < snd item) counts ->
  Forall (fun item => 0 < snd item) (bump key counts).
Proof.
  induction counts as [|[k0 n] rest IH]; intros Hall; cbn [bump].
  - constructor; [simpl; lia|constructor].
  - inversion Hall as [|? ? Hn Hrest]; subst. cbn [snd] in Hn.
    destruct (String.eqb k0 key); constructor; cbn [snd]; try lia; try assumption.
    now apply IH.
Qed.

Lemma tally_positive (keys : list string) :
  Forall (fun item => 0 < snd item) (tally keys).
Proof.
  unfold tally.
  assert (Hgen : forall acc, Forall (fun item => 0 < snd item) acc ->
             Forall (fun item : string * Z => 0 < snd item)
                    (fold_left (fun counts key => bump key counts) keys acc)).
  { induction keys as [|key keys IH]; intros acc Hacc; [assumption|].
    cbn [fold_left]. apply IH. now apply bump_positive. }
  apply Hgen. constructor.
Qed.

Lemma tally_item (keys : list string) (item : string * Z) :
  In item (tally keys) -> snd item = occurrences_of (fst item) keys.
Proof.
  intros Hin. rewrite <- counted_tally. symmetry.
  apply counted_item; [apply tally_keys_NoDup|assumption].
Qed.

Lemma tally_has (keys : list string) (k : string) :
  0 < occurrences_of k keys -> In (k, occurrences_of k keys) (tally keys).
Proof.
  intros Hpos. rewrite <- counted_tally in Hpos |- *. unfold counted in *.
  destruct (List.find _ (tally keys)) as [[k' n]|] eqn:Hf; [|lia].
  apply find_some in Hf. destruct Hf as [Hin Hk]. cbn [fst snd] in *.
  apply String.eqb_eq in Hk. now subst k'.
Qed.

Lemma occurrences_of_filtered (k skip : string) (keys : list string) :
  k <> skip ->
  occurrences_of k (List.filter (fun x => negb (String.eqb x skip)) keys)
  = occurrences_of k keys.
Proof.
  intros Hne. induction keys as [|x keys IH]; [reflexivity|].
  cbn [List.filter occurrences_of].
  destruct (String.eqb_spec x skip) as [->|Hx]; cbn [negb occurrences_of].
  - destruct (String.eqb_spec skip k); [congruence|]. now rewrite IH.
  - now rewrite IH.
Qed.

Lemma sorted_split {A : Type} (R : A -> A -> Prop) (n : nat) (l : list A) :
  StronglySorted R l ->
  StronglySorted R (firstn n l)
  /\ forall x y, In x (firstn n l) -> In y (skipn n l) -> R x y.
Proof.
  revert l. induction n as [|n IH]; intros l Hs.
  - cbn. split; [constructor|intros x y []].
  - destruct l as [|a l]; [cbn; split; [constructor|intros x y []]|].
    inversion Hs as [|? ? Hl Hall]; subst. destruct (IH l Hl) as [Hf Hcross].
    cbn [firstn skipn]. split.
    + constructor; [assumption|].
      apply List.Forall_forall. intros y Hy. apply firstn_In in Hy.
      rewrite List.Forall_forall in Hall. now apply Hall.
    + intros x y [<-|Hx] Hy; [|now apply Hcross].
      rewrite List.Forall_forall in Hall. apply Hall.
      rewrite <- (firstn_skipn n l). apply in_or_app. now right.
Qed.

(** The three most frequent keys of a dict of counts. *)
Lemma top_three_spec (counts : list (string * Z)) :
  (length (top_three counts) <= 3)%nat
  /\ incl (top_three counts) counts
  /\ StronglySorted (fun a b => snd b <= snd a) (top_three counts)
  /\ forall shown other,
       In shown (top_three counts) -> In other counts ->
       ~ In other (top_three counts) -> snd other <= snd shown.
Proof.
  unfold top_three.
  set (key := fun item : string * Z => Int (snd item)).
  pose proof (sorted_desc_perm key counts) as Hperm.
  assert (Hcomparable : comparable key counts)
    by (apply List.Forall_forall; intros item _; reflexivity).
  assert (Hsorted : StronglySorted (fun a b : string * Z => snd b <= snd a)
                                   (sorted_desc key counts)).
  { pose proof (sorted_desc_descending key counts Hcomparable) as Hd.
    unfold descending in Hd.
    generalize dependent (sorted_desc key counts). intros l _ Hd.
    induction Hd as [|a l Hl IH Hall]; constructor; [assumption|].
    eapply List.Forall_impl; [|exact Hall].
    intros b Hb. unfold key in Hb. rewrite number_lt_int in Hb.
    apply Z.ltb_ge in Hb. exact Hb. }
  destruct (sorted_split _ 3 _ Hsorted) as [Hfirst Hcross].
  split; [rewrite length_firstn; lia|].
  split; [intros x Hx; apply firstn_In in Hx; now apply (Permutation_in _ Hperm)|].
  split; [assumption|].
  intros shown other Hshown Hother Hnot. apply (Hcross shown other Hshown).
  apply (Permutation_in _ (Permutation_sym Hperm)) in Hother.
  rewrite <- (firstn_skipn 3 (sorted_desc key counts)) in Hother.
  apply in_app_or in Hother. tauto.
Qed.

(** X22.  The places named by the template summary are at most three, none
    of them Unknown, each with the number of memories recorded there, in
    descending order of that number, and no other known place has more
    memories than any of them. *)
Theorem common_locations_most_visited (memory_list : list memory) :
  let places :=
    map (fun memory => default "Unknown" (mem_location memory)) memory_list in
  (length (common_locations memory_list) <= 3)%nat
  /\ Forall (fun item =>
               fst item <> "Unknown"
               /\ snd item = occurrences_of (fst item) places
               /\ 0 < snd item)
            (common_locations memory_list)
  /\ StronglySorted (fun a b => snd b <= snd a) (common_locations memory_list)
  /\ forall (place : string) (shown : string * Z),
       place <> "Unknown" ->
       ~ In place (map fst (common_locations memory_list)) ->
       In shown (common_locations memory_list) ->
       occurrences_of place places <= snd shown.
Proof.
  cbv zeta. unfold common_locations, location_counts.
  set (places := map (fun memory => default "Unknown" (mem_location memory)) memory_list).
  set (known := List.filter (fun loc => negb (String.eqb loc "Unknown")) places).
  destruct (top_three_spec (tally known)) as [Hlen [Hincl [Hsorted Hbest]]].
  assert (Hitem : forall item, In item (tally known) ->
             fst item <> "Unknown"
             /\ snd item = occurrences_of (fst item) places /\ 0 < snd item).
  { intros item Hin.
    pose proof (tally_item known item Hin) as Hcount.
    pose proof (tally_positive known) as Hpos.
    rewrite List.Forall_forall in Hpos. specialize (Hpos item Hin).
    assert (Hknown : In (fst item) known)
      by (apply occurrences_of_positive; lia).
    apply filter_In in Hknown. destruct Hknown as [_ Hne].
    apply negb_true_iff, String.eqb_neq in Hne.
    split; [assumption|]. split; [|assumption].
    rewrite Hcount. now apply occurrences_of_filtered. }
  split; [assumption|]. split; [|split; [assumption|]].
  - apply List.Forall_forall. intros item Hin. apply Hitem. now apply Hincl.
  - intros place shown Hplace Hnot Hshown.
    destruct (Hitem shown (Hincl shown Hshown)) as [_ [_ Hpos]].
    destruct (Z.le_gt_cases (occurrences_of place places) 0) as [Hz|Hvisited]; [lia|].
    rewrite <- (occurrences_of_filtered place "Unknown" places Hplace) in Hvisited |- *.
    fold known in Hvisited |- *.
    apply (Hbest shown (place, occurrences_of place known) Hshown).
    + now apply tally_has.
    + intros Hin. apply Hnot. apply in_map_iff.
      now exists (place, occurrences_of place known).
Qed.

Example common_locations_sample :
  common_locations [sunny_day; rainy_day; capsule; sunny_day; capsule; blank]
  = [("Beach", 2); ("Time Capsule", 2)]
  /\ location_text [rainy_day; blank] = "various places"
  /\ people_text [sunny_day; rainy_day] = "Maria".
Proof. repeat split. Qed.

Lemma occurrences_of_In (k : string) (keys : list string) :
  In k keys -> 0 < occurrences_of k keys.
Proof.
  induction keys as [|x keys IH]; [intros []|].
  cbn [occurrences_of]. pose proof (occurrences_of_nonneg k keys).
  intros [->|Hin]; [rewrite String.eqb_refl; lia|].
  specialize (IH Hin). destruct (String.eqb x k); lia.
Qed.

(** The keys of a dict of counts are the values counted. *)
Lemma tally_keys (keys : list string) (k : string) :
  In k (map fst (tally keys)) <-> In k keys.
Proof.
  split.
  - intros Hin. apply in_map_iff in Hin. destruct Hin as [item [<- Hin]].
    apply occurrences_of_positive. rewrite <- (tally_item keys item Hin).
    pose proof (tally_positive keys) as Hpos. rewrite List.Forall_forall in Hpos.
    now apply Hpos.
  - intros Hin. apply occurrences_of_In in Hin. apply tally_has in Hin.
    apply in_map_iff. now exists (k, occurrences_of k keys).
Qed.

Lemma dominant_emotion_key (memory_list : list memory) :
  emotion_counts memory_list <> [] ->
  In (dominant_emotion memory_list) (map fst (emotion_counts memory_list)).
Proof.
  unfold dominant_emotion. destruct (emotion_counts memory_list) as [|first others];
    [congruence|]. intros _.
  apply in_map. apply max_by_largest.
Qed.

Lemma firstn_NoDup {A : Type} (n : nat) (l : list A) : NoDup l -> NoDup (firstn n l).
Proof.
  revert l. induction n as [|n IH]; intros l Hnd; [constructor|].
  destruct l as [|x l]; [constructor|]. cbn [firstn].
  apply NoDup_cons in Hnd. destruct Hnd as [Hx Hnd].
  apply NoDup_cons. split; [|now apply IH].
  intros Hin. apply Hx. apply list_elem_of_In. apply list_elem_of_In in Hin.
  now apply firstn_In in Hin.
Qed.

(** X23.  The template summary's sentence on other emotions appears exactly
    when the memories carry more than one emotion; it then names at least one
    and at most three emotions, each once, each the emotion of some memory,
    and never the dominant one. *)
Theorem other_emotions_listed (memory_list : list memory) :
  let felt := map (fun memory => default "Neutral" (mem_emotion memory)) memory_list in
  match other_emotions memory_list with
  | Some others =>
      others <> [] /\ (length others <= 3)%nat /\ NoDup others
      /\ ~ In (dominant_emotion memory_list) others
      /\ (forall e, In e others -> In e felt)
      /\ exists e, In e felt /\ e <> dominant_emotion memory_list
  | None => forall e, In e felt -> e = dominant_emotion memory_list
  end.
Proof.
  cbv zeta. unfold other_emotions.
  set (felt := map (fun memory => default "Neutral" (mem_emotion memory)) memory_list).
  set (dominant := dominant_emotion memory_list).
  pose proof (dominant_emotion_key memory_list) as Hdom. fold dominant in Hdom.
  unfold emotion_counts in *. fold felt in Hdom |- *.
  pose proof (tally_keys_NoDup felt) as Hnd.
  pose proof (tally_keys felt) as Hkeys.
  rewrite <- (length_map fst (tally felt)).
  assert (Hdom' : map fst (tally felt) <> [] -> In dominant (map fst (tally felt))).
  { intros Hne. apply Hdom. intros Ht. apply Hne. now rewrite Ht. }
  clear Hdom. clearbody dominant. revert Hnd Hkeys Hdom'.
  generalize (map fst (tally felt)). intros keys Hnd Hkeys Hdom.
  destruct (1 <? length keys)%nat eqn:Hlen.
  - apply Nat.ltb_lt in Hlen.
    set (rest := List.filter (fun e => negb (String.eqb e dominant)) keys).
    assert (Hother : exists e, In e keys /\ e <> dominant).
    { destruct keys as [|a [|b keys']]; cbn [length] in Hlen; try lia.
      destruct (String.eqb_spec a dominant) as [->|Ha]; [|exists a; split; [now left|assumption]].
      exists b. split; [right; now left|].
      intros ->. apply NoDup_cons in Hnd. destruct Hnd as [Hx _].
      apply Hx. apply list_elem_of_In. now left. }
    destruct Hother as [e [He Hne]].
    assert (Hrest : In e rest).
    { apply filter_In. split; [assumption|]. now apply negb_true_iff, String.eqb_neq. }
    split; [destruct rest; [destruct Hrest|discriminate]|].
    split; [rewrite length_firstn; lia|].
    split; [apply firstn_NoDup; now apply filter_NoDup|].
    split.
    { intros Hin. apply firstn_In, filter_In in Hin. destruct Hin as [_ Hin].
      apply negb_true_iff, String.eqb_neq in Hin. congruence. }
    split.
    { intros x Hin. apply firstn_In, filter_In in Hin. now apply Hkeys. }
    exists e. split; [now apply Hkeys|assumption].
  - apply Nat.ltb_ge in Hlen. intros e He. apply Hkeys in He.
    assert (Hne : keys <> []) by (intros ->; destruct He).
    specialize (Hdom Hne).
    destruct keys as [|a [|b keys']]; cbn [length] in Hlen; try lia; [destruct He|].
    destruct He as [<-|[]]. destruct Hdom as [<-|[]]. reflexivity.
Qed.


(** The block sent for one memory: date, content and emotion, then the
    people, all of them, when there are any, and the location when it is
    known. *)
Example memory_str_sample :
  memory_str sunny_day
  = Ok ("Date: 2024-06-01" +:+ nl +:+ "Content: Great day by the sea" +:+ nl
        +:+ "Emotion: Happy" +:+ nl +:+ "People: Maria" +:+ nl
        +:+ "Location: Beach" +:+ nl)
  /\ memory_str rainy_day
     = Ok ("Date: 2024-06-02" +:+ nl +:+ "Content: Missed the bus in the rain" +:+ nl
           +:+ "Emotion: Sad" +:+ nl)
  /\ (forall memory,
        mem_date memory = Some "2024-06-05T08:00:00" ->
        mem_text memory = None -> mem_emotion memory = None ->
        mem_people memory = Some ["Ana"; "Ben"; "Cleo"] -> mem_location memory = None ->
        memory_str memory
        = Ok ("Date: 2024-06-05" +:+ nl +:+ "Content: None" +:+ nl
              +:+ "Emotion: None" +:+ nl +:+ "People: Ana, Ben, Cleo" +:+ nl))
  /\ memory_str blank = Raise.
Proof.
  split; [reflexivity|]. split; [reflexivity|]. split; [|reflexivity].
  intros memory Hdate Htext Hemotion Hpeople Hlocation.
  unfold memory_str, day_of. now rewrite Hdate, Htext, Hemotion, Hpeople, Hlocation.
Qed.


Example summarize_memories_sample :
  summarize_memories (fun _ _ => Some "A calm week.") [sunny_day; blank] "Past Week"
  = basic_summary_generator [sunny_day; blank] "Past Week"
  /\ summarize_memories (fun _ _ => None) [] "Past Week"
     = "No memories found for this time period."
  /\ summarize_memories (fun _ content => Some content) [rainy_day; rainy_day] "Past Week"
     = "Date: 2024-06-02" +:+ nl +:+ "Content: Missed the bus in the rain" +:+ nl
       +:+ "Emotion: Sad" +:+ nl +:+ nl +:+ "---" +:+ nl
       +:+ "Date: 2024-06-02" +:+ nl +:+ "Content: Missed the bus in the rain" +:+ nl
       +:+ "Emotion: Sad" +:+ nl.
Proof. repeat split. Qed.

(** ** Connections of the mind map *)

Lemma grouped_append (key k : string) (memory_id : option Z)
    (groups : list (string * list (option Z))) :
  grouped (group_append key memory_id groups) k
  = if String.eqb key k then grouped groups k ++ [memory_id] else grouped groups k.
Proof.
  unfold grouped. induction groups as [|[k0 ids] rest IH]; cbn [group_append List.find fst snd].
  - destruct (String.eqb key k); reflexivity.
  - destruct (String.eqb_spec k0 key) as [->|Hne]; cbn [List.find fst snd].
    + destruct (String.eqb key k); reflexivity.
    + destruct (String.eqb_spec k0 k) as [->|Hk]; [|exact IH].
      destruct (String.eqb_spec key k); [congruence|reflexivity].
Qed.

Lemma group_append_keys (key : string) (memory_id : option Z)
    (groups : list (string * list (option Z))) :
  map fst (group_append key memory_id groups)
  = if existsb (String.eqb key) (map fst groups) then map fst groups
    else map fst groups ++ [key].
Proof.
  induction groups as [|[k0 ids] rest IH]; [reflexivity|].
  cbn [group_append map fst existsb].
  rewrite (String.eqb_sym key k0).
  destruct (String.eqb k0 key); cbn [map fst orb]; [reflexivity|].
  rewrite IH. destruct (existsb _ _); reflexivity.
Qed.

Lemma group_append_NoDup (key : string) (memory_id : option Z)
    (groups : list (string * list (option Z))) :
  NoDup (map fst groups) -> NoDup (map fst (group_append key memory_id groups)).
Proof.
  intros Hnd. rewrite group_append_keys.
  destruct (existsb _ _) eqn:Hex; [assumption|].
  apply NoDup_app. split; [assumption|]. split; [|apply NoDup_singleton].
  intros x Hx Hkey. apply list_elem_of_singleton in Hkey. subst x.
  assert (Ht : existsb (String.eqb key) (map fst groups) = true); [|congruence].
  apply existsb_exists. exists key. split; [now apply list_elem_of_In|].
  apply String.eqb_refl.
Qed.

Lemma group_memory (memory_id : option Z) (keys : list string)
    (groups : list (string * list (option Z))) :
  NoDup (map fst groups) ->
  let groups' :=
    fold_left (fun groups key => group_append key memory_id groups) keys groups in
  NoDup (map fst groups')
  /\ forall k, grouped groups' k
               = grouped groups k
                 ++ map (fun _ => memory_id) (List.filter (fun x => String.eqb x k) keys).
Proof.
  cbv zeta. revert groups.
  induction keys as [|key keys IH]; intros groups Hnd; cbn [fold_left List.filter map].
  - split; [assumption|]. intros k. now rewrite app_nil_r.
  - destruct (IH (group_append key memory_id groups)
                 (group_append_NoDup key memory_id groups Hnd)) as [Hnd' Hk].
    split; [assumption|]. intros k. rewrite Hk, grouped_append.
    destruct (String.eqb key k); cbn [map]; [|reflexivity].
    now rewrite <- app_assoc.
Qed.

(** The dict built by the two nested loops: distinct keys, and under each
    key the ids of the memories listing it. *)
Lemma group_by_listings (keys_of : memory -> list string) (memories : list memory) :
  NoDup (map fst (group_by keys_of memories))
  /\ forall k, grouped (group_by keys_of memories) k = listings keys_of k memories.
Proof.
  unfold group_by.
  assert (Hgen : forall groups, NoDup (map fst groups) ->
    let groups' :=
      fold_left
        (fun groups memory =>
           fold_left (fun groups key => group_append key (mem_id memory) groups)
                     (keys_of memory) groups)
        memories groups in
    NoDup (map fst groups')
    /\ forall k, grouped groups' k = grouped groups k ++ listings keys_of k memories).
  { cbv zeta. induction memories as [|memory memories IH]; intros groups Hnd;
      cbn [fold_left listings flat_map].
    - split; [assumption|]. intros k. now rewrite app_nil_r.
    - destruct (group_memory (mem_id memory) (keys_of memory) groups Hnd) as [Hnd' Hk].
      destruct (IH _ Hnd') as [Hnd'' Hk']. split; [assumption|].
      intros k. rewrite Hk', Hk. unfold listings. now rewrite <- app_assoc. }
  destruct (Hgen [] (NoDup_nil_2 : NoDup (map fst []))) as [Hnd Hk].
  split; [assumption|]. intros k. now rewrite Hk.
Qed.

Lemma all_pairs_short {A : Type} (l : list A) :
  (1 <? length l)%nat = false -> all_pairs l = [].
Proof.
  intros Hlen. apply Nat.ltb_ge in Hlen.
  destruct l as [|x [|y l]]; cbn [length] in Hlen; try lia; reflexivity.
Qed.

Lemma all_pairs_length {A : Type} (l : list A) :
  (2 * length (all_pairs l) = length l * (length l - 1))%nat.
Proof.
  induction l as [|x l IH]; [reflexivity|].
  cbn [all_pairs length]. rewrite length_app, length_map.
  replace (S (length l) - 1)%nat with (length l) by lia.
  destruct (length l) as [|n]; [cbn in *; lia|].
  replace (S n - 1)%nat with n in IH by lia. nia.
Qed.

(** Each pair taken from a list takes its first component from an earlier
    position than its second. *)
Lemma all_pairs_ordered {A : Type} (l : list A) (a b : A) :
  In (a, b) (all_pairs l) <->
  exists (i j : nat), (i < j)%nat /\ nth_error l i = Some a /\ nth_error l j = Some b.
Proof.
  induction l as [|x l IH]; cbn [all_pairs].
  - split; [intros []|]. intros [i [j [_ [Hi _]]]]. destruct i; discriminate.
  - rewrite in_app_iff, in_map_iff, IH. split.
    + intros [[y [Heq Hy]]|[i [j [Hij [Hi Hj]]]]].
      * inversion Heq; subst. apply In_nth_error in Hy. destruct Hy as [j Hj].
        exists 0%nat, (S j). repeat split; [lia|assumption].
      * exists (S i), (S j). repeat split; [lia|assumption|assumption].
    + intros [i [j [Hij [Hi Hj]]]]. destruct j as [|j]; [lia|]. cbn in Hj.
      destruct i as [|i]; cbn in Hi.
      * left. inversion Hi; subst. exists b. split; [reflexivity|].
        eapply nth_error_In; eassumption.
      * right. exists i, j. repeat split; [lia|assumption|assumption].
Qed.

Lemma filter_label (type k key : string) (pairs : list (option Z * option Z)) :
  List.filter (fun c => String.eqb (conn_label c) key)
              (map (fun ab => Connection (fst ab) (snd ab) type k) pairs)
  = if String.eqb k key
    then map (fun ab => Connection (fst ab) (snd ab) type k) pairs
    else [].
Proof.
  induction pairs as [|ab l IHl]; [now destruct (String.eqb k key)|].
  cbn [map List.filter conn_label]. rewrite IHl.
  destruct (String.eqb k key); reflexivity.
Qed.

Lemma connections_of_label (type key : string)
    (groups : list (string * list (option Z))) :
  NoDup (map fst groups) ->
  List.filter (fun c => String.eqb (conn_label c) key) (connections_of type groups)
  = map (fun ab => Connection (fst ab) (snd ab) type key) (all_pairs (grouped groups key)).
Proof.
  unfold connections_of, grouped.
  induction groups as [|[k ids] rest IH]; intros Hnd; [reflexivity|].
  cbn [map fst] in Hnd. apply NoDup_cons in Hnd. destruct Hnd as [Hk Hnd].
  cbn [flat_map List.find fst snd]. rewrite List.filter_app, (IH Hnd).
  assert (Hhere :
    (if (1 <? length ids)%nat
     then map (fun ab => Connection (fst ab) (snd ab) type k) (all_pairs ids)
     else [])
    = map (fun ab : option Z * option Z => Connection (fst ab) (snd ab) type k)
          (all_pairs ids)).
  { destruct (1 <? length ids)%nat eqn:Hlen; [reflexivity|].
    now rewrite all_pairs_short. }
  rewrite Hhere, filter_label. clear Hhere.
  destruct (String.eqb_spec k key) as [->|Hne]; [|reflexivity].
  assert (Hnone : List.find (fun group : string * list (option Z) =>
                               String.eqb (fst group) key) rest = None).
  { destruct (List.find _ rest) as [group|] eqn:Hf; [|reflexivity].
    apply find_some in Hf. destruct Hf as [Hin Heq]. apply String.eqb_eq in Heq.
    exfalso. apply Hk. apply list_elem_of_In. rewrite <- Heq. now apply in_map. }
  rewrite Hnone. cbn [all_pairs map snd]. now rewrite app_nil_r.
Qed.

Lemma add_nodes_drawable (memories : list memory) :
  if drawable memories
  then exists nodes, add_nodes memories = Ok nodes
                     /\ map (fun n => Some (node_id n)) nodes = map mem_id memories
  else add_nodes memories = Raise.
Proof.
  unfold add_nodes.
  induction memories as [|memory memories IH]; cbn [drawable forallb map_raising].
  - now exists [].
  - fold (drawable memories).
    assert (Hhead : match mem_text memory, mem_date memory, mem_id memory with
                    | Some _, Some _, Some memory_id =>
                        exists n, add_node memory = Ok n /\ node_id n = memory_id
                    | _, _, _ => add_node memory = Raise
                    end).
    { unfold add_node.
      destruct (mem_text memory), (mem_date memory), (mem_id memory);
        try reflexivity.
      eexists. split; reflexivity. }
    destruct (mem_text memory) as [text|];
      [|rewrite Hhead; destruct (mem_date memory), (mem_id memory); reflexivity].
    destruct (mem_date memory) as [date|];
      [|rewrite Hhead; destruct (mem_id memory); reflexivity].
    destruct (mem_id memory) as [memory_id|] eqn:Hid; [|now rewrite Hhead].
    destruct Hhead as [n [-> Hn]].
    cbn [andb mbind result_bind]. destruct (drawable memories).
    + destruct IH as [nodes [-> Hids]]. cbn [mbind result_bind].
      eexists. split; [reflexivity|]. cbn [map]. now rewrite Hids, Hn, Hid.
    + rewrite IH. reflexivity.
Qed.

(** X25.  The mind map is drawn only when every memory has a text, a date
    and an id: otherwise the node loop raises and no connection is computed.
    When it is drawn, the connections labelled with a topic pair up the
    memories listing that topic: one connection for every two listings of the
    topic, running from the earlier memory to the later one, and as many as
    n(n-1)/2 for n listings.  The same holds for people and for locations
    other than Unknown. *)
Theorem mind_map_connections (memories : list memory) (key : string) :
  let labelled (connections : list connection) :=
    List.filter (fun c => String.eqb (conn_label c) key) connections in
  let pairs (type : string) (keys_of : memory -> list string) :=
    map (fun ab => Connection (fst ab) (snd ab) type key)
        (all_pairs (listings keys_of key memories)) in
  match topic_connections memories, person_connections memories,
        location_connections memories with
  | Ok topics, Ok people, Ok places =>
      drawable memories = true
      /\ labelled topics = pairs "topic" (fun memory => default [] (mem_topics memory))
      /\ labelled people = pairs "person" (fun memory => default [] (mem_people memory))
      /\ labelled places = pairs "location" location_keys
      /\ (2 * length (labelled topics)
          = length (listings (fun memory => default [] (mem_topics memory)) key memories)
            * (length (listings (fun memory => default [] (mem_topics memory)) key
                                memories) - 1))%nat
  | Raise, Raise, Raise => drawable memories = false
  | _, _, _ => False
  end.
Proof.
  cbv zeta. unfold topic_connections, person_connections, location_connections,
    connections_after_nodes.
  pose proof (add_nodes_drawable memories) as Hnodes.
  destruct (drawable memories).
  - destruct Hnodes as [nodes [-> _]]. cbn [mbind result_bind].
    assert (Hgen : forall type keys_of,
      List.filter (fun c => String.eqb (conn_label c) key)
                  (connections_of type (group_by keys_of memories))
      = map (fun ab => Connection (fst ab) (snd ab) type key)
            (all_pairs (listings keys_of key memories))).
    { intros type keys_of. destruct (group_by_listings keys_of memories) as [Hnd Hk].
      rewrite connections_of_label by assumption. now rewrite Hk. }
    rewrite !Hgen. repeat split.
    rewrite length_map. apply all_pairs_length.
  - rewrite Hnodes. reflexivity.
Qed.

Example mind_map_connections_sample :
  person_connections [sunny_day; rainy_day; set_id 3 sunny_day]
  = Ok [Connection (Some 1) (Some 3) "person" "Maria"]
  /\ location_connections [sunny_day; rainy_day; set_id 3 sunny_day; set_id 4 sunny_day]
     = Ok [Connection (Some 1) (Some 3) "location" "Beach";
           Connection (Some 1) (Some 4) "location" "Beach";
           Connection (Some 3) (Some 4) "location" "Beach"]
  /\ location_connections [sunny_day; blank; set_id 3 sunny_day] = Raise
  /\ add_nodes [sunny_day]
     = Ok [Node 1 "Great day by the sea" "2024-06-01" "Happy"].
Proof. repeat split. Qed.

(** ** From the Summaries tab to [summarize_memories] *)

Lemma filter_raising_cases {A : Type} (cond : A -> result bool) (l : list A) :
  match filter_raising cond l with
  | Ok kept => forall x, In x kept -> In x l /\ cond x = Ok true
  | Raise => exists x, In x l /\ cond x = Raise
  end.
Proof.
  induction l as [|y l IH]; cbn [filter_raising].
  - intros x [].
  - destruct (cond y) as [keep|] eqn:Hy; cbn [mbind result_bind];
      [|exists y; split; [now left|assumption]].
    destruct (filter_raising cond l) as [rest|]; cbn [mbind result_bind].
    + intros x Hin. destruct keep.
      * destruct Hin as [<-|Hin]; [split; [now left|assumption]|].
        destruct (IH x Hin). split; [now right|assumption].
      * destruct (IH x Hin). split; [now right|assumption].
    + destruct IH as [x [Hin Hx]]. exists x. split; [now right|assumption].
Qed.

Lemma filter_raising_evaluates {A : Type} (cond : A -> result bool)
  (l kept : list A) (x : A) :
  filter_raising cond l = Ok kept -> In x l -> cond x <> Raise.
Proof.
  revert kept. induction l as [|y l IH]; intros kept; cbn [filter_raising];
    [intros _ []|].
  destruct (cond y) as [keep|] eqn:Hy; [|discriminate]. cbn [mbind result_bind].
  destruct (filter_raising cond l) as [rest|]; [|discriminate].
  intros _ [<-|Hin]; [congruence|]. now apply (IH rest).
Qed.

Lemma filter_raising_filter {A : Type} (cond : A -> result bool) (l : list A) :
  match filter_raising cond l with
  | Ok kept => kept = List.filter (fun x => holds (cond x)) l
  | Raise => exists x, In x l /\ cond x = Raise
  end.
Proof.
  induction l as [|y l IH]; cbn [filter_raising List.filter]; [reflexivity|].
  destruct (cond y) as [keep|] eqn:Hy; cbn [mbind result_bind holds];
    [|exists y; split; [now left|assumption]].
  destruct (filter_raising cond l) as [rest|]; cbn [mbind result_bind].
  - rewrite IH. now destruct keep.
  - destruct IH as [x [Hin Hx]]. exists x. split; [now right|assumption].
Qed.



Example summaries_tab_sample :
  summaries_tab (fun _ _ => Some "A calm week.") "Past Week" "2024-06-02"
                "2024-12-01T08:00:00.000000" [sunny_day; rainy_day; capsule]
  = Ok (ShowSummary "A calm week.")
  /\ summaries_tab (fun _ _ => Some "A calm week.") "Past Week" "2024-11-24"
                   "2024-12-01T08:00:00.000000" [sunny_day; rainy_day; capsule]
     = Ok NoMemoriesInPeriod
  /\ summaries_tab (fun _ _ => Some "A calm week.") "Past Week" "2024-11-24"
                   "2024-12-01T08:00:00.000000" [capsule]
     = Ok NoAvailableMemories
  /\ summaries_tab (fun _ _ => Some "A calm week.") "Past Week" "2024-11-24"
                   "2024-12-01T08:00:00.000000" [sunny_day; blank]
     = Raise.
Proof. repeat split. Qed.

(** ** From the Capture tab to the store *)

Lemma numbered_next_fresh (n : nat) : ~ In (Some (Z.of_nat n + 1)) (numbered n).
Proof.
  unfold numbered. intros Hin. apply in_map_iff in Hin.
  destruct Hin as [k [Heq Hk]]. apply in_seq in Hk. inversion Heq. lia.
Qed.

(** X27.  As long as nothing has been deleted and no update has rewritten an
    id, a memory saved from the Capture tab is appended to the session and to
    the file, carries the text, the date and the people typed and the location
    typed or Unknown, and is the record [get_memory_by_id] returns for its
    id. *)
Theorem save_memory_button_retrievable
  (c : client) (reply : option extraction_reply)
  (memory_text people_involved location : string) (unlock_date : option string)
  (current_date : string) (actions : list action) :
  memory_text <> EmptyString ->
  Forall keeps_ids actions ->
  let w := run actions in
  let pressed := save_memory_button c reply memory_text people_involved location
                   unlock_date current_date w in
  snd pressed = true
  /\ exists saved : memory,
       session (fst pressed) = session w ++ [saved]
       /\ stored (fst pressed) = stored w ++ [saved]
       /\ mem_id saved = Some (Z.of_nat (length (session w)) + 1)
       /\ snd (get_memory_by_id (Z.of_nat (length (session w)) + 1) (fst pressed))
          = Some saved
       /\ mem_text saved = Some memory_text
       /\ mem_date saved = Some current_date
       /\ mem_people saved = Some (parse_people people_involved)
       /\ mem_location saved
          = Some (if String.eqb location EmptyString then "Unknown" else location)
       /\ mem_unlock_date saved = unlock_date.
Proof.
  intros Htext Hsafe. cbv zeta.
  destruct (ids_in_sequence_without_deletion actions Hsafe) as [Hs Hids].
  unfold save_memory_button.
  destruct memory_text as [|t0 ts] eqn:Ht; [congruence|]. rewrite <- Ht.
  cbn [fst snd]. split; [reflexivity|].
  match goal with |- context [capture ?d _] => set (draft := d) end.
  exists (new_memory draft (run actions)).
  unfold capture, save_memory, get_memory_by_id, load_memories, stored.
  cbn [fst snd session file dump_and_publish ensure_data_directory default
       from_option id].
  split; [now rewrite Hs|]. split; [reflexivity|]. split; [reflexivity|].
  split.
  { rewrite find_app_first.
    assert (Hnone : List.find (has_id (Z.of_nat (length (session (run actions))) + 1))
                              (default [] (file (run actions))) = None).
    { apply find_has_id_absent. unfold stored_ids in Hids. rewrite Hids, Hs.
      apply numbered_next_fresh. }
    cbn [default from_option id] in Hnone. rewrite Hnone. cbn [List.find].
    assert (Hid : has_id (Z.of_nat (length (session (run actions))) + 1)
                         (new_memory draft (run actions)) = true)
      by (apply has_id_true; reflexivity).
    now rewrite Hid. }
  split; [reflexivity|]. split; [reflexivity|]. split; [reflexivity|].
  split; [|reflexivity].
  unfold new_memory, draft. cbn [mem_location set_id]. now destruct location.
Qed.

Lemma save_memory_button_retrievable_witness :
  let w := run [Capture sunny_day; Import [rainy_day]] in
  let pressed := save_memory_button offline None "Picnic in the park" "Ana, Ben"
                   EmptyString None "2024-07-01T12:00:00.000000" w in
  snd pressed = true
  /\ exists saved : memory,
       session (fst pressed) = session w ++ [saved]
       /\ stored (fst pressed) = stored w ++ [saved]
       /\ mem_id saved = Some (Z.of_nat (length (session w)) + 1)
       /\ snd (get_memory_by_id (Z.of_nat (length (session w)) + 1) (fst pressed))
          = Some saved
       /\ mem_text saved = Some "Picnic in the park"
       /\ mem_date saved = Some "2024-07-01T12:00:00.000000"
       /\ mem_people saved = Some (parse_people "Ana, Ben")
       /\ mem_location saved
          = Some (if String.eqb EmptyString EmptyString then "Unknown" else EmptyString)
       /\ mem_unlock_date saved = None.
Proof.
  apply (save_memory_button_retrievable offline None "Picnic in the park" "Ana, Ben"
           EmptyString None "2024-07-01T12:00:00.000000"
           [Capture sunny_day; Import [rainy_day]]).
  - discriminate.
  - repeat constructor.
Defined.

Example save_memory_button_after_deletion :
  let w := run [Capture sunny_day; Capture rainy_day; Delete 1] in
  let pressed := save_memory_button offline None "Picnic in the park" EmptyString
                   EmptyString None "2024-07-01T12:00:00.000000" w in
  option_map mem_text (snd (get_memory_by_id 2 (fst pressed)))
  = Some (Some "Missed the bus in the rain")
  /\ map mem_id (session (fst pressed)) = [Some 2; Some 2].
Proof. split; vm_compute; reflexivity. Qed.

(** ** Browsing in the Recall tab *)

(** X28.  Without a search, the Recall tab shows the memories of the session
    that are unlocked, have the selected emotion, list the selected person and
    are dated within the selected range, in the order and multiplicity of the
    session; with a date range selected it fails exactly when an unlocked
    memory passing the other filters has no date. *)
Theorem recall_tab_browse_filters (c : client) (search_query : string)
    (emotion_filter person_filter : option string)
    (date_range : option (string * string)) (current_date : string)
    (memories : list memory) :
  match recall_tab c search_query false emotion_filter person_filter date_range
                   current_date memories with
  | Ok shown =>
      exists keep : memory -> bool,
        shown = List.filter keep memories
        /\ (forall m, keep m = true
                      <-> matches_filters emotion_filter person_filter date_range
                                          current_date m)
        /\ (date_range <> None ->
            forall m, In m memories ->
              matches_filters emotion_filter person_filter None current_date m ->
              exists date, mem_date m = Some date)
  | Raise =>
      date_range <> None
      /\ exists m, In m memories /\ mem_date m = None
                   /\ matches_filters emotion_filter person_filter None current_date m
  end.
Proof.
  unfold recall_tab. rewrite andb_false_r.
  set (by_emotion := fun m : memory =>
         match emotion_filter with
         | Some wanted => bool_decide (mem_emotion m = Some wanted)
         | None => true
         end).
  set (by_person := fun m : memory =>
         match person_filter with
         | Some wanted => bool_decide (wanted ∈ default [] (mem_people m))
         | None => true
         end).
  set (base := fun m => (unlocked current_date m && by_emotion m) && by_person m).
  assert (Hstage :
    match person_filter with
    | Some wanted =>
        List.filter (fun m => bool_decide (wanted ∈ default [] (mem_people m)))
          match emotion_filter with
          | Some wanted =>
              List.filter (fun m => bool_decide (mem_emotion m = Some wanted))
                          (List.filter (unlocked current_date) memories)
          | None => List.filter (unlocked current_date) memories
          end
    | None =>
        match emotion_filter with
        | Some wanted =>
            List.filter (fun m => bool_decide (mem_emotion m = Some wanted))
                        (List.filter (unlocked current_date) memories)
        | None => List.filter (unlocked current_date) memories
        end
    end = List.filter base memories).
  { unfold base, by_emotion, by_person.
    destruct person_filter, emotion_filter; rewrite ?filter_filter_and;
      apply List.filter_ext; intros m; rewrite ?andb_true_r, ?andb_assoc; reflexivity. }
  cbv zeta. rewrite Hstage. clear Hstage.
  assert (Hbase : forall m, base m = true
                            <-> matches_filters emotion_filter person_filter None
                                                current_date m).
  { intros m. unfold base, matches_filters, by_emotion, by_person.
    rewrite !andb_true_iff, unlocked_not_locked, negb_true_iff.
    split.
    - intros [[Hu He] Hp]. split; [assumption|]. split; [|split].
      + intros wanted ->. now apply bool_decide_eq_true in He.
      + intros wanted ->. apply bool_decide_eq_true in Hp.
        now apply list_elem_of_In.
      + intros ? ? [=].
    - intros [Hu [He [Hp _]]]. split; [split; [assumption|]|].
      + destruct emotion_filter as [wanted|]; [|reflexivity].
        apply bool_decide_eq_true. now apply He.
      + destruct person_filter as [wanted|]; [|reflexivity].
        apply bool_decide_eq_true. apply list_elem_of_In. now apply Hp. }
  destruct date_range as [[start_date end_date]|].
  - set (cond := fun m => day ← day_of m;
                          Ok (String.leb start_date day && String.leb day end_date)).
    pose proof (filter_raising_filter cond (List.filter base memories)) as Hcases.
    pose proof (filter_raising_evaluates cond (List.filter base memories)) as Heval.
    destruct (filter_raising cond (List.filter base memories)) as [shown|].
    + exists (fun m => base m && holds (cond m)). rewrite <- filter_filter_and.
      split; [assumption|].
      split; [|intros _ m Hin Hm;
               assert (Hb : In m (List.filter base memories))
                 by (apply filter_In; split; [assumption|now apply Hbase]);
               specialize (Heval shown m eq_refl Hb); unfold cond, day_of in Heval;
               destruct (mem_date m) as [date|]; [now exists date|];
               now contradiction Heval].
      intros m. rewrite andb_true_iff, Hbase.
      unfold matches_filters, cond, day_of. split.
      * intros [[Hu [He [Hp _]]] Hd]. repeat (split; [assumption|]).
        intros s e [= <- <-]. destruct (mem_date m) as [date|]; [|discriminate].
        cbn [mbind result_bind holds] in Hd. exists date. split; [reflexivity|].
        destruct (String.leb start_date _), (String.leb _ end_date);
          try discriminate; now split.
      * intros [Hu [He [Hp Hd]]]. split.
        { repeat (split; [assumption|]). intros ? ? [=]. }
        destruct (Hd start_date end_date eq_refl) as [date [Hdate [Hs He']]].
        rewrite Hdate. cbn [mbind result_bind holds]. now rewrite Hs, He'.
    + split; [discriminate|]. destruct Hcases as [m [Hin Hcond]].
      apply filter_In in Hin. destruct Hin as [Hin Hb]. exists m.
      split; [assumption|]. split; [|now apply Hbase].
      unfold cond, day_of in Hcond. destruct (mem_date m); [discriminate|reflexivity].
  - exists base. split; [reflexivity|]. split; [exact Hbase|]. now intros Hnone.
Qed.

Example recall_tab_browse_sample :
  recall_tab offline EmptyString false (Some "Happy") (Some "Maria")
             (Some ("2024-05-01", "2024-06-30")) "2024-12-01T08:00:00.000000"
             [rainy_day; sunny_day; capsule]
  = Ok [sunny_day]
  /\ recall_tab offline "sea" false None None (Some ("2024-05-01", "2024-06-30"))
                "2024-12-01T08:00:00.000000" [sunny_day; blank]
     = Raise.
Proof. split; reflexivity. Qed.
